(** * PasteBro: clipboard capture-and-persistence pipeline

    A shallow embedding of the JavaScript sources

      - clipboardItem.js        (module [ClipboardItem])
      - database.js             (module [Database])
      - imageStorageManager.js  (module [ImageStorage])
      - historyManager.js       (module [History])
      - preferencesManager.js   (module [Preferences], the two clamps only)

    together with the few pieces of the Node runtime they rely on
    (module [Js]: truthiness, [String.prototype.includes], base64, a
    JSON codec for arrays of strings, SHA-256 and [path.join]).

    Conventions.  A JavaScript string is a Rocq [string], read as the
    sequence of its UTF-8 bytes.  [null] and [undefined] are both [None].
    Numbers are integers ([Z]).  A [Buffer] is a [list byte].  Code that
    can throw returns an [outcome].  [Date.now()] and
    [crypto.randomUUID()] are passed in as arguments. *)

From Stdlib Require Import ZArith Lia Ascii String.
From Stdlib.Strings Require Import Byte.
From stdpp Require Import gmap strings list sorting pretty.

Local Open Scope string_scope.
Local Open Scope Z_scope.

(* ===================================================================== *)
(** * The JavaScript runtime pieces used by the sources                   *)
(* ===================================================================== *)

Module Js.

(** Result of a call that may throw. *)
Inductive outcome (A : Type) : Type :=
| Returned (a : A)
| Threw (msg : string).
Global Arguments Returned {A} a.
Global Arguments Threw {A} msg.

Definition Buffer : Type := list byte.

(** The JavaScript values that reach [DatabaseManager.update]. *)
Inductive value : Type :=
| JNull
| JBool (b : bool)
| JNum (n : Z)
| JStr (s : string)
| JBuf (b : Buffer)
| JArr (l : list string).

(** Truthiness of [x] in [x || y], [x ? a : b] and [if (x)]. *)
Definition truthy_str (s : string) : bool :=
  match s with EmptyString => false | String _ _ => true end.

Definition truthy_ostr (o : option string) : bool :=
  match o with Some s => truthy_str s | None => false end.

Definition truthy_onum (o : option Z) : bool :=
  match o with Some n => negb (n =? 0) | None => false end.

(** [o || d] *)
Definition or_str (o : option string) (d : string) : string :=
  match o with
  | Some s => if truthy_str s then s else d
  | None => d
  end.

Definition or_num (o : option Z) (d : Z) : Z :=
  match o with
  | Some n => if n =? 0 then d else n
  | None => d
  end.

(** [hay.includes(needle)] *)
Fixpoint includes (needle hay : string) : bool :=
  String.prefix needle hay ||
  match hay with
  | EmptyString => false
  | String _ rest => includes needle rest
  end.

(** [path.join(a, b)].  Node also normalises the result (it resolves
    [..] and [.] segments); the joined text written here names the same
    file, and normalisation is left to the file system. *)
Definition path_join (a b : string) : string := a +:+ "/" +:+ b.

(** ** base64: [buffer.toString('base64')] *)

Definition b64_alphabet : string :=
  "ABCDEFGHIJKLMNOPQRSTUVWXYZabcdefghijklmnopqrstuvwxyz0123456789+/".

Definition b64_digit (n : Z) : ascii :=
  match String.get (Z.to_nat n) b64_alphabet with
  | Some c => c
  | None => "="%char
  end.

Definition byteZ (b : byte) : Z := Z.of_N (Byte.to_N b).

Fixpoint base64 (l : Buffer) : string :=
  match l with
  | [] => EmptyString
  | [a] =>
      let x := byteZ a in
      String (b64_digit (Z.shiftr x 2))
        (String (b64_digit (Z.shiftl (Z.land x 3) 4)) "==")
  | [a; b] =>
      let x := byteZ a in
      let y := byteZ b in
      String (b64_digit (Z.shiftr x 2))
        (String (b64_digit (Z.lor (Z.shiftl (Z.land x 3) 4) (Z.shiftr y 4)))
           (String (b64_digit (Z.shiftl (Z.land y 15) 2)) "="))
  | a :: b :: c :: rest =>
      let x := byteZ a in
      let y := byteZ b in
      let z := byteZ c in
      String (b64_digit (Z.shiftr x 2))
        (String (b64_digit (Z.lor (Z.shiftl (Z.land x 3) 4) (Z.shiftr y 4)))
           (String (b64_digit (Z.lor (Z.shiftl (Z.land y 15) 2) (Z.shiftr z 6)))
              (String (b64_digit (Z.land z 63)) (base64 rest))))
  end.

(** ** JSON for arrays of strings: [JSON.stringify] / [JSON.parse]

    Only the two escapes that make the text ambiguous are written out
    (the quote and the backslash); JavaScript additionally escapes
    control characters, which changes the text but not what is read
    back. *)

Definition dquote : ascii := "034"%char.
Definition backslash : ascii := "092"%char.

Fixpoint json_escape (s : string) : string :=
  match s with
  | EmptyString => EmptyString
  | String c rest =>
      if (Ascii.eqb c dquote || Ascii.eqb c backslash)%bool
      then String backslash (String c (json_escape rest))
      else String c (json_escape rest)
  end.

Definition json_quote (s : string) : string :=
  String dquote (json_escape s +:+ String dquote EmptyString).

Fixpoint json_elems (l : list string) : string :=
  match l with
  | [] => EmptyString
  | [s] => json_quote s
  | s :: rest => json_quote s +:+ "," +:+ json_elems rest
  end.

Definition JSON_stringify (l : list string) : string :=
  "[" +:+ json_elems l +:+ "]".

(** Reads the body of a string literal, after its opening quote: the
    decoded text and what follows the closing quote. *)
Fixpoint json_read_string (s : string) : option (string * string) :=
  match s with
  | EmptyString => None
  | String c rest =>
      if Ascii.eqb c dquote then Some (EmptyString, rest)
      else if Ascii.eqb c backslash then
        match rest with
        | EmptyString => None
        | String d rest' =>
            match json_read_string rest' with
            | Some (t, k) => Some (String d t, k)
            | None => None
            end
        end
      else
        match json_read_string rest with
        | Some (t, k) => Some (String c t, k)
        | None => None
        end
  end.

(** Reads [elem , elem , ... ]] with [fuel] bounding the number of
    elements. *)
Fixpoint json_read_elems (fuel : nat) (s : string) : option (list string) :=
  match fuel with
  | O => None
  | S fuel' =>
      match s with
      | String c rest =>
          if Ascii.eqb c dquote then
            match json_read_string rest with
            | Some (t, String d k) =>
                if Ascii.eqb d "]"%char then
                  match k with
                  | EmptyString => Some [t]
                  | _ => None
                  end
                else if Ascii.eqb d ","%char then
                  match json_read_elems fuel' k with
                  | Some l => Some (t :: l)
                  | None => None
                  end
                else None
            | _ => None
            end
          else None
      | EmptyString => None
      end
  end.

(** [JSON.parse(s)] on the texts that [JSON_stringify] writes: an
    array of string literals without white space.  [None] stands for
    every other text: a syntax error (which JavaScript throws) or a
    JSON value of another shape, which no column of the table holds. *)
Definition JSON_parse (s : string) : option (list string) :=
  match s with
  | String c rest =>
      if Ascii.eqb c "["%char then
        match rest with
        | String d EmptyString =>
            if Ascii.eqb d "]"%char then Some [] else None
        | _ => json_read_elems (String.length rest) rest
        end
      else None
  | EmptyString => None
  end.

(** [String(v)] and the text of [v] in a template literal *)
Definition String_ (v : value) : string :=
  match v with
  | JNull => "null"
  | JBool true => "true"
  | JBool false => "false"
  | JNum n => pretty n
  | JStr s => s
  | JBuf b => string_of_list_ascii ((fun x => ascii_of_N (Byte.to_N x)) <$> b)
  | JArr l => String.concat "," l
  end.

Definition truthy (v : value) : bool :=
  match v with
  | JNull => false
  | JBool b => b
  | JNum n => negb (n =? 0)
  | JStr s => truthy_str s
  | JBuf _ => true
  | JArr _ => true
  end.

(** Runs [f] over [l] in order and stops at the first throw. *)
Fixpoint map_outcome {A B} (f : A -> outcome B) (l : list A) : outcome (list B) :=
  match l with
  | [] => Returned []
  | x :: rest =>
      match f x with
      | Threw m => Threw m
      | Returned y =>
          match map_outcome f rest with
          | Threw m => Threw m
          | Returned ys => Returned (y :: ys)
          end
      end
  end.

(** [s.split(sep)] for a one-character separator: the pieces between
    the separators, in order; a text without separator is one piece. *)
Fixpoint split (sep : ascii) (s : string) : list string :=
  match s with
  | EmptyString => [EmptyString]
  | String c rest =>
      if Ascii.eqb c sep then EmptyString :: split sep rest
      else
        match split sep rest with
        | [] => [String c EmptyString]
        | piece :: pieces => String c piece :: pieces
        end
  end.

(** Runs [f] over [l] in order, handing it the position of each
    element, and stops at the first throw. *)
Fixpoint map_outcome_from {A B} (i : nat) (f : nat -> A -> outcome B) (l : list A)
  : outcome (list B) :=
  match l with
  | [] => Returned []
  | x :: rest =>
      match f i x with
      | Threw m => Threw m
      | Returned y =>
          match map_outcome_from (S i) f rest with
          | Threw m => Threw m
          | Returned ys => Returned (y :: ys)
          end
      end
  end.

End Js.

(* ===================================================================== *)
(** * SHA-256: [crypto.createHash('sha256').update(s).digest('hex')]      *)
(* ===================================================================== *)

Module Sha256.

Definition w32 (x : Z) : Z := x mod 2 ^ 32.

Definition rotr (n x : Z) : Z :=
  Z.lor (Z.shiftr x n) (w32 (Z.shiftl x (32 - n))).

Definition Ch (x y z : Z) : Z :=
  Z.lxor (Z.land x y) (Z.land (Z.lxor x 0xffffffff) z).

Definition Maj (x y z : Z) : Z :=
  Z.lxor (Z.lxor (Z.land x y) (Z.land x z)) (Z.land y z).

Definition Sigma0 (x : Z) : Z :=
  Z.lxor (Z.lxor (rotr 2 x) (rotr 13 x)) (rotr 22 x).
Definition Sigma1 (x : Z) : Z :=
  Z.lxor (Z.lxor (rotr 6 x) (rotr 11 x)) (rotr 25 x).
Definition sigma0 (x : Z) : Z :=
  Z.lxor (Z.lxor (rotr 7 x) (rotr 18 x)) (Z.shiftr x 3).
Definition sigma1 (x : Z) : Z :=
  Z.lxor (Z.lxor (rotr 17 x) (rotr 19 x)) (Z.shiftr x 10).

(** The constants are defined as the standard defines them: the first
    32 bits of the fractional parts of the cube roots (for [K]) and of
    the square roots (for [H0]) of the first primes. *)
Definition is_prime (n : Z) : bool :=
  (1 <? n) && forallb (fun d => negb (n mod d =? 0)) (seqZ 2 (n - 2)).

Definition primes (k : nat) : list Z :=
  take k (List.filter is_prime (seqZ 2 400)).

(** The integer cube root, found bit by bit from bit [bits - 1] down. *)
Fixpoint cube_root (bits : nat) (n acc : Z) : Z :=
  match bits with
  | O => acc
  | S b =>
      let next := acc + 2 ^ Z.of_nat b in
      cube_root b n (if next * next * next <=? n then next else acc)
  end.

Definition K : list Z :=
  (fun p => w32 (cube_root 40 (p * 2 ^ 96) 0)) <$> primes 64.

Definition H0 : list Z :=
  (fun p => w32 (Z.sqrt (p * 2 ^ 64))) <$> primes 8.

Definition bytes_of_string (s : string) : list Z :=
  (fun c => Z.of_N (Ascii.N_of_ascii c)) <$> String.list_ascii_of_string s.

(** Big-endian bytes of [x], [n] of them. *)
Fixpoint be_bytes (n : nat) (x : Z) : list Z :=
  match n with
  | O => []
  | S n' => Z.shiftr x (8 * Z.of_nat n') mod 256 :: be_bytes n' x
  end.

Definition pad (msg : list Z) : list Z :=
  let len := Z.of_nat (length msg) in
  let zeros := Z.to_nat ((55 - len) mod 64) in
  msg ++ [0x80] ++ replicate zeros 0 ++ be_bytes 8 (8 * len).

Fixpoint be_words (fuel : nat) (l : list Z) : list Z :=
  match fuel, l with
  | S fuel', a :: b :: c :: d :: rest =>
      (Z.shiftl a 24 + Z.shiftl b 16 + Z.shiftl c 8 + d) :: be_words fuel' rest
  | _, _ => []
  end.

(** The message schedule, most recent word first. *)
Fixpoint schedule (n : nat) (rev_w : list Z) : list Z :=
  match n with
  | O => rev_w
  | S n' =>
      let at_ i := nth i rev_w 0 in
      let w := w32 (sigma1 (at_ 1%nat) + at_ 6%nat + sigma0 (at_ 14%nat) + at_ 15%nat) in
      schedule n' (w :: rev_w)
  end.

Definition round (st : list Z) (kw : Z * Z) : list Z :=
  match st with
  | [a; b; c; d; e; f; g; h] =>
      let t1 := h + Sigma1 e + Ch e f g + kw.1 + kw.2 in
      let t2 := Sigma0 a + Maj a b c in
      [w32 (t1 + t2); a; b; c; w32 (d + t1); e; f; g]
  | _ => st
  end.

Definition compress (h : list Z) (block : list Z) : list Z :=
  let w := rev (schedule 48 (rev block)) in
  let st := foldl round h (zip K w) in
  zip_with (fun x y => w32 (x + y)) h st.

Fixpoint blocks (fuel : nat) (ws : list Z) : list (list Z) :=
  match fuel, ws with
  | _, [] => []
  | O, _ => []
  | S fuel', _ => take 16 ws :: blocks fuel' (drop 16 ws)
  end.

Definition hex_digit (n : Z) : ascii :=
  match String.get (Z.to_nat n) "0123456789abcdef" with
  | Some c => c
  | None => "?"%char
  end.

Fixpoint hex_word (n : nat) (x : Z) : string :=
  match n with
  | O => EmptyString
  | S n' => String (hex_digit (Z.shiftr x (4 * Z.of_nat n') mod 16)) (hex_word n' x)
  end.

Definition digest (msg : list Z) : list Z :=
  let p := pad msg in
  let ws := be_words (length p) p in
  foldl compress H0 (blocks (length ws) ws).

Definition sha256_hex (s : string) : string :=
  String.concat EmptyString (hex_word 8 <$> digest (bytes_of_string s)).

End Sha256.

(* ===================================================================== *)
(** * clipboardItem.js                                                    *)
(* ===================================================================== *)

(** The object that [toDatabase] builds and that [fromDatabase],
    [DatabaseManager.insert] and [DatabaseManager.rowToItem] exchange. *)
Module DbItem.
Record t : Type := mk {
  id : string;
  type : string;
  timestamp : Z;
  isPinned : bool;
  isDeleted : bool;
  contentHash : string;
  plainText : option string;
  richText : option string;
  imageData : option Js.Buffer;
  thumbnailData : option Js.Buffer;
  imagePath : option string;
  thumbnailPath : option string;
  filePaths : option (list string);
  colorValue : option string;
  sourceApplication : option string;
  fileSize : option Z;
  fileCount : option Z;
  fileTypes : option string;
  isAllImages : Z;
  thumbnails : option (list string)
}.
End DbItem.

Module ClipboardItemType.
Definition TEXT : string := "text".
Definition RICH_TEXT : string := "richText".
Definition IMAGE : string := "image".
Definition FILE : string := "file".
Definition MULTI_FILE : string := "multi-file".
Definition COLOR : string := "color".

Definition supported : list string :=
  [TEXT; RICH_TEXT; IMAGE; FILE; MULTI_FILE; COLOR].
End ClipboardItemType.

Module ClipboardItem.
Import Js ClipboardItemType.

(** An instance of the class. *)
Record t : Type := mk {
  id : string;
  type : string;
  timestamp : Z;
  isPinned : bool;
  isDeleted : bool;
  contentHash : string;
  plainText : option string;
  richText : option string;
  imageData : option Buffer;
  imageThumbnail : option Buffer;
  imagePath : option string;
  thumbnailPath : option string;
  filePaths : option (list string);
  colorValue : option string;
  sourceApplication : option string;
  fileSize : option Z;
  fileCount : option Z;
  fileTypes : option (list string);
  isAllImages : bool;
  thumbnails : option (list string)
}.

(** The argument object of the constructor; [None] is an absent (or
    null) property, for which the destructuring default applies. *)
Record init : Type := mk_init {
  i_id : option string;
  i_type : string;
  i_timestamp : option Z;
  i_isPinned : bool;
  i_isDeleted : bool;
  i_contentHash : option string;
  i_plainText : option string;
  i_richText : option string;
  i_imageData : option Buffer;
  i_imageThumbnail : option Buffer;
  i_imagePath : option string;
  i_thumbnailPath : option string;
  i_filePaths : option (list string);
  i_colorValue : option string;
  i_sourceApplication : option string;
  i_fileSize : option Z;
  i_fileCount : option Z;
  i_fileTypes : option (list string);
  i_isAllImages : bool;
  i_thumbnails : option (list string)
}.

(** [{ type }]: every other property left to its default. *)
Definition only_type (ty : string) : init :=
  mk_init None ty None false false None None None None None None None
          None None None None None None false None.

(** [_generateContentHash()] (lines 73-96), reading the fields of
    [this]. *)
Definition _generateContentHash (this : t) : string :=
  let content :=
    if (String.eqb (type this) TEXT || String.eqb (type this) RICH_TEXT)%bool then
      or_str (plainText this) EmptyString
    else if String.eqb (type this) IMAGE then
      match imageData this with
      | Some b => String.substring 0 1000 (base64 b)
      | None => EmptyString
      end
    else if (String.eqb (type this) FILE || String.eqb (type this) MULTI_FILE)%bool then
      match filePaths this with
      | Some l => JSON_stringify l
      | None => EmptyString
      end
    else if String.eqb (type this) COLOR then
      or_str (colorValue this) EmptyString
    else EmptyString
  in
  Sha256.sha256_hex content.

(** The constructor (lines 26-68).  The assignments run in source
    order: [this.contentHash] is computed on line 53, after [id],
    [type], [timestamp], [isPinned] and [isDeleted] have been assigned
    and before any payload field has, so [_generateContentHash] reads
    an object whose payload fields are still undefined. *)
Definition new (a : init) (uuid : string) (now : Z) : t :=
  let id_ := or_str (i_id a) uuid in
  let timestamp_ := or_num (i_timestamp a) now in
  let this_at_line_53 :=
    {| id := id_; type := i_type a; timestamp := timestamp_;
       isPinned := i_isPinned a; isDeleted := i_isDeleted a;
       contentHash := EmptyString;
       plainText := None; richText := None;
       imageData := None; imageThumbnail := None;
       imagePath := None; thumbnailPath := None;
       filePaths := None; colorValue := None;
       sourceApplication := None; fileSize := None;
       fileCount := None; fileTypes := None;
       isAllImages := false; thumbnails := None |} in
  {| id := id_;
     type := i_type a;
     timestamp := timestamp_;
     isPinned := i_isPinned a;
     isDeleted := i_isDeleted a;
     contentHash :=
       or_str (i_contentHash a) (_generateContentHash this_at_line_53);
     plainText := i_plainText a;
     richText := i_richText a;
     imageData := i_imageData a;
     imageThumbnail := i_imageThumbnail a;
     imagePath := i_imagePath a;
     thumbnailPath := i_thumbnailPath a;
     filePaths := i_filePaths a;
     colorValue := i_colorValue a;
     sourceApplication := i_sourceApplication a;
     fileSize := i_fileSize a;
     fileCount := i_fileCount a;
     fileTypes := i_fileTypes a;
     isAllImages := i_isAllImages a;
     thumbnails := i_thumbnails a |}.

(** [static generateHash(content, type = TEXT)] (lines 101-113) *)
Definition generateHash (content : value) (ty : string) : string :=
  let hashContent :=
    match content with
    | JBuf b =>
        if String.eqb ty IMAGE then String.substring 0 1000 (base64 b)
        else String_ content
    | JArr l =>
        if String.eqb ty FILE then JSON_stringify l else String_ content
    | _ => String_ content
    end in
  Sha256.sha256_hex hashContent.

(** [toDatabase()] (lines 180-203) *)
Definition toDatabase (this : t) : DbItem.t :=
  {| DbItem.id := id this;
     DbItem.type := type this;
     DbItem.timestamp := timestamp this;
     DbItem.isPinned := isPinned this;
     DbItem.isDeleted := isDeleted this;
     DbItem.contentHash := contentHash this;
     DbItem.plainText := plainText this;
     DbItem.richText := richText this;
     DbItem.imageData := imageData this;
     DbItem.thumbnailData := imageThumbnail this;
     DbItem.imagePath := imagePath this;
     DbItem.thumbnailPath := thumbnailPath this;
     DbItem.filePaths := filePaths this;
     DbItem.colorValue := colorValue this;
     DbItem.sourceApplication := sourceApplication this;
     DbItem.fileSize := fileSize this;
     DbItem.fileCount := fileCount this;
     DbItem.fileTypes :=
       match fileTypes this with
       | Some l => Some (JSON_stringify l)
       | None => None
       end;
     DbItem.isAllImages := if isAllImages this then 1 else 0;
     DbItem.thumbnails := thumbnails this |}.

(** [static fromDatabase(dbRow)] (lines 208-231); [JSON.parse] throws
    on text that is not JSON. *)
Definition fromDatabase (dbRow : DbItem.t) (uuid : string) (now : Z) : outcome t :=
  let build ft :=
    new {| i_id := Some (DbItem.id dbRow);
           i_type := DbItem.type dbRow;
           i_timestamp := Some (DbItem.timestamp dbRow);
           i_isPinned := DbItem.isPinned dbRow;
           i_isDeleted := DbItem.isDeleted dbRow;
           i_contentHash := Some (DbItem.contentHash dbRow);
           i_plainText := DbItem.plainText dbRow;
           i_richText := DbItem.richText dbRow;
           i_imageData := DbItem.imageData dbRow;
           i_imageThumbnail := DbItem.thumbnailData dbRow;
           i_imagePath := DbItem.imagePath dbRow;
           i_thumbnailPath := DbItem.thumbnailPath dbRow;
           i_filePaths := DbItem.filePaths dbRow;
           i_colorValue := DbItem.colorValue dbRow;
           i_sourceApplication := DbItem.sourceApplication dbRow;
           i_fileSize := DbItem.fileSize dbRow;
           i_fileCount := DbItem.fileCount dbRow;
           i_fileTypes := ft;
           i_isAllImages := DbItem.isAllImages dbRow =? 1;
           i_thumbnails := DbItem.thumbnails dbRow |} uuid now in
  if truthy_ostr (DbItem.fileTypes dbRow) then
    match JSON_parse (default EmptyString (DbItem.fileTypes dbRow)) with
    | Some l => Returned (build (Some l))
    | None => Threw "SyntaxError"
    end
  else Returned (build None).

(** [static fromText(text, richText = null)] (lines 236-247) *)
Definition fromText (text : string) (rich : option string)
    (uuid : string) (now : Z) : t :=
  let plain := String_ (JStr text) in
  let hash := generateHash (JStr plain) TEXT in
  new {| i_id := None;
         i_type := if truthy_ostr rich then RICH_TEXT else TEXT;
         i_timestamp := None;
         i_isPinned := false;
         i_isDeleted := false;
         i_contentHash := Some hash;
         i_plainText := Some plain;
         i_richText := rich;
         i_imageData := None;
         i_imageThumbnail := None;
         i_imagePath := None;
         i_thumbnailPath := None;
         i_filePaths := None;
         i_colorValue := None;
         i_sourceApplication := None;
         i_fileSize := Some (Z.of_nat (String.length plain));
         i_fileCount := None;
         i_fileTypes := None;
         i_isAllImages := false;
         i_thumbnails := None |} uuid now.

(** [static fromImage(imageBuffer, thumbnail = null)] (lines 252-266) *)
Definition fromImage (imageBuffer : value) (thumbnail : option Buffer)
    (uuid : string) (now : Z) : outcome t :=
  match imageBuffer with
  | JBuf b =>
      let hash := generateHash imageBuffer IMAGE in
      Returned
        (new {| i_id := None;
                i_type := IMAGE;
                i_timestamp := None;
                i_isPinned := false;
                i_isDeleted := false;
                i_contentHash := Some hash;
                i_plainText := None;
                i_richText := None;
                i_imageData := Some b;
                i_imageThumbnail := thumbnail;
                i_imagePath := None;
                i_thumbnailPath := None;
                i_filePaths := None;
                i_colorValue := None;
                i_sourceApplication := None;
                i_fileSize := Some (Z.of_nat (length b));
                i_fileCount := None;
                i_fileTypes := None;
                i_isAllImages := false;
                i_thumbnails := None |} uuid now)
  | _ => Threw "Image data must be a Buffer"
  end.

(** [static fromFiles(filePaths)] (lines 271-283) *)
Definition fromFiles (filePaths : value) (uuid : string) (now : Z) : outcome t :=
  match filePaths with
  | JArr (p :: ps) =>
      let hash := generateHash filePaths FILE in
      Returned
        (new {| i_id := None;
                i_type := FILE;
                i_timestamp := None;
                i_isPinned := false;
                i_isDeleted := false;
                i_contentHash := Some hash;
                i_plainText := None;
                i_richText := None;
                i_imageData := None;
                i_imageThumbnail := None;
                i_imagePath := None;
                i_thumbnailPath := None;
                i_filePaths := Some (p :: ps);
                i_colorValue := None;
                i_sourceApplication := None;
                i_fileSize := None;
                i_fileCount := None;
                i_fileTypes := None;
                i_isAllImages := false;
                i_thumbnails := None |} uuid now)
  | _ => Threw "File paths must be a non-empty array"
  end.

(** [static fromColor(colorValue)] (lines 288-296); a null colour is
    hashed as the text of [String(null)]. *)
Definition fromColor (colorValue : option string) (uuid : string) (now : Z) : t :=
  let content := match colorValue with Some s => JStr s | None => JNull end in
  let hash := generateHash content COLOR in
  new {| i_id := None;
         i_type := COLOR;
         i_timestamp := None;
         i_isPinned := false;
         i_isDeleted := false;
         i_contentHash := Some hash;
         i_plainText := None;
         i_richText := None;
         i_imageData := None;
         i_imageThumbnail := None;
         i_imagePath := None;
         i_thumbnailPath := None;
         i_filePaths := None;
         i_colorValue := colorValue;
         i_sourceApplication := None;
         i_fileSize := None;
         i_fileCount := None;
         i_fileTypes := None;
         i_isAllImages := false;
         i_thumbnails := None |} uuid now.

(** [clone()] (lines 332-349): the constructor is handed fourteen of
    the twenty properties; the other six take their defaults. *)
Definition clone (this : t) (uuid : string) (now : Z) : t :=
  new {| i_id := Some (id this);
         i_type := type this;
         i_timestamp := Some (timestamp this);
         i_isPinned := isPinned this;
         i_isDeleted := isDeleted this;
         i_contentHash := Some (contentHash this);
         i_plainText := plainText this;
         i_richText := richText this;
         i_imageData := imageData this;
         i_imageThumbnail := imageThumbnail this;
         i_imagePath := None;
         i_thumbnailPath := None;
         i_filePaths := filePaths this;
         i_colorValue := colorValue this;
         i_sourceApplication := sourceApplication this;
         i_fileSize := fileSize this;
         i_fileCount := None;
         i_fileTypes := None;
         i_isAllImages := false;
         i_thumbnails := None |} uuid now.

(** [isValid()] (lines 381-404) *)
Definition isValid (this : t) : bool :=
  if (negb (truthy_str (id this)) || negb (truthy_str (type this))
      || (timestamp this =? 0))%bool
  then false
  else if (String.eqb (type this) TEXT || String.eqb (type this) RICH_TEXT)%bool then
    match plainText this with Some _ => true | None => false end
  else if String.eqb (type this) IMAGE then
    match imageData this with Some _ => true | None => false end
  else if (String.eqb (type this) FILE || String.eqb (type this) MULTI_FILE)%bool then
    match filePaths this with Some (_ :: _) => true | _ => false end
  else if String.eqb (type this) COLOR then
    match colorValue this with Some _ => true | None => false end
  else false.

(** [_getFileName(filePath)] (lines 160-164) *)
Definition _getFileName (filePath : string) : string :=
  if negb (truthy_str filePath) then EmptyString
  else
    let parts := split "/"%char filePath in
    or_str (last parts) filePath.

(** [minute${minutes !== 1 ? 's' : ''}] *)
Definition plural (n : Z) : string := if n =? 1 then EmptyString else "s".

Section Runtime.
(** [new Date(t).toLocaleDateString()] and [s.toLowerCase()] depend on
    the locale and on the Unicode tables of the runtime. *)
Variable toLocaleDateString : Z -> string.
Variable toLowerCase : string -> string.

(** [getRelativeTime()] (lines 301-320); [now] is [Date.now()]. *)
Definition getRelativeTime (this : t) (now : Z) : string :=
  let diff := now - timestamp this in
  let seconds := diff / 1000 in
  let minutes := seconds / 60 in
  let hours := minutes / 60 in
  let days := hours / 24 in
  if seconds <? 60 then "Just now"
  else if minutes <? 60 then
    pretty minutes +:+ " minute" +:+ plural minutes +:+ " ago"
  else if hours <? 24 then
    pretty hours +:+ " hour" +:+ plural hours +:+ " ago"
  else if days <? 7 then
    pretty days +:+ " day" +:+ plural days +:+ " ago"
  else toLocaleDateString (timestamp this).

(** [matchesSearch(query)] (lines 354-376), read as a condition: the
    value [x && y] counts as true when it is truthy. *)
Definition matchesSearch (this : t) (query : string) : bool :=
  if negb (truthy_str query) then true
  else
    let lowerQuery := toLowerCase query in
    if (String.eqb (type this) TEXT || String.eqb (type this) RICH_TEXT)%bool then
      match plainText this with
      | Some s => truthy_str s && includes lowerQuery (toLowerCase s)
      | None => false
      end
    else if (String.eqb (type this) FILE || String.eqb (type this) MULTI_FILE)%bool then
      match filePaths this with
      | Some l => existsb (fun path => includes lowerQuery (toLowerCase path)) l
      | None => false
      end
    else if String.eqb (type this) COLOR then
      match colorValue this with
      | Some s => truthy_str s && includes lowerQuery (toLowerCase s)
      | None => false
      end
    else false.
End Runtime.

End ClipboardItem.

(* ===================================================================== *)
(** * database.js                                                         *)
(* ===================================================================== *)

Module Database.
Import Js.

(** What a SQLite column holds. *)
Inductive SqlValue : Type :=
| SNull
| SInt (n : Z)
| SText (s : string)
| SBlob (b : Buffer).

(** A row of [clipboard_items]: column name to value. *)
Abbreviation Row := (gmap string SqlValue).

(** The table, in rowid order (the order of insertion). *)
Definition table : Type := list Row.

Definition col (c : string) (r : Row) : SqlValue := default SNull (r !! c).

Definition as_int (v : SqlValue) : option Z :=
  match v with SInt n => Some n | _ => None end.
Definition as_text (v : SqlValue) : option string :=
  match v with SText s => Some s | _ => None end.
Definition as_blob (v : SqlValue) : option Buffer :=
  match v with SBlob b => Some b | _ => None end.

Definition int_is (n : Z) (v : SqlValue) : bool :=
  match v with SInt m => m =? n | _ => false end.
Definition text_is (s : string) (v : SqlValue) : bool :=
  match v with SText t => String.eqb t s | _ => false end.

(** The columns that only [insert] writes are read back at the type
    [insert] wrote them with. *)
Definition row_id (r : Row) : string := default EmptyString (as_text (col "id" r)).
Definition row_timestamp (r : Row) : Z := default 0 (as_int (col "timestamp" r)).
Definition row_hash (r : Row) : string :=
  default EmptyString (as_text (col "content_hash" r)).

Definition has_id (id : string) (r : Row) : bool := text_is id (col "id" r).

(** ** Binding JavaScript values to statement parameters *)

Definition of_bool (b : bool) : SqlValue := SInt (if b then 1 else 0).
Definition opt_text (o : option string) : SqlValue :=
  match o with Some s => SText s | None => SNull end.
Definition opt_int (o : option Z) : SqlValue :=
  match o with Some n => SInt n | None => SNull end.
Definition opt_blob (o : option Buffer) : SqlValue :=
  match o with Some b => SBlob b | None => SNull end.
(** [x || null] on a string *)
Definition text_or_null (o : option string) : SqlValue :=
  if truthy_ostr o then opt_text o else SNull.

(** The row written by [insert(item)] (lines 156-195). *)
Definition row_of_item (item : DbItem.t) : Row :=
  list_to_map
    [ ("id", SText (DbItem.id item));
      ("type", SText (DbItem.type item));
      ("timestamp", SInt (DbItem.timestamp item));
      ("is_pinned", of_bool (DbItem.isPinned item));
      ("is_deleted", of_bool (DbItem.isDeleted item));
      ("content_hash", SText (DbItem.contentHash item));
      ("plain_text", opt_text (DbItem.plainText item));
      ("rich_text", opt_text (DbItem.richText item));
      ("image_data", opt_blob (DbItem.imageData item));
      ("thumbnail_data", opt_blob (DbItem.thumbnailData item));
      ("file_paths",
        match DbItem.filePaths item with
        | Some l => SText (JSON_stringify l)
        | None => SNull
        end);
      ("color_value", opt_text (DbItem.colorValue item));
      ("source_application", opt_text (DbItem.sourceApplication item));
      ("file_size", opt_int (DbItem.fileSize item));
      ("file_count", opt_int (DbItem.fileCount item));
      ("file_types", opt_text (DbItem.fileTypes item));
      ("is_all_images", SInt (DbItem.isAllImages item));
      ("image_path", text_or_null (DbItem.imagePath item));
      ("thumbnail_path", text_or_null (DbItem.thumbnailPath item)) ].

(** [insert(item)]: [id] is the primary key, so a second row with the
    same id makes the statement fail; the error is rethrown. *)
Definition insert (item : DbItem.t) (db : table) : outcome bool * table :=
  if existsb (has_id (DbItem.id item)) db
  then (Threw "Insert failed: UNIQUE constraint failed: clipboard_items.id", db)
  else (Returned true, app db [row_of_item item]).

(** [rowToItem(row)] (lines 391-413).  [JSON.parse] throws on text
    that is not JSON.  A payload column is read at the type [insert]
    writes it with. *)
Definition rowToItem (row : Row) : outcome DbItem.t :=
  let build fp :=
    {| DbItem.id := row_id row;
       DbItem.type := default EmptyString (as_text (col "type" row));
       DbItem.timestamp := row_timestamp row;
       DbItem.isPinned := int_is 1 (col "is_pinned" row);
       DbItem.isDeleted := int_is 1 (col "is_deleted" row);
       DbItem.contentHash := row_hash row;
       DbItem.plainText := as_text (col "plain_text" row);
       DbItem.richText := as_text (col "rich_text" row);
       DbItem.imageData := as_blob (col "image_data" row);
       DbItem.thumbnailData := as_blob (col "thumbnail_data" row);
       DbItem.imagePath := as_text (col "image_path" row);
       DbItem.thumbnailPath := as_text (col "thumbnail_path" row);
       DbItem.filePaths := fp;
       DbItem.colorValue := as_text (col "color_value" row);
       DbItem.sourceApplication := as_text (col "source_application" row);
       DbItem.fileSize := as_int (col "file_size" row);
       DbItem.fileCount := as_int (col "file_count" row);
       DbItem.fileTypes := as_text (col "file_types" row);
       DbItem.isAllImages := default 0 (as_int (col "is_all_images" row));
       DbItem.thumbnails := None |} in
  match col "file_paths" row with
  | SText s =>
      if truthy_str s then
        match JSON_parse s with
        | Some l => Returned (build (Some l))
        | None => Threw "SyntaxError"
        end
      else Returned (build None)
  | _ => Returned (build None)
  end.

Inductive direction : Type := ASC | DESC.

(** The options object of [query] and [count]; every caller orders by
    [timestamp], which is the only [orderBy] modelled. *)
Record options : Type := mk_options {
  limit : Z;
  offset : Z;
  isPinned : option bool;
  isDeleted : option bool;
  orderDirection : direction
}.

(** The defaults of [query] (lines 201-208). *)
Definition defaults : options :=
  {| limit := 50; offset := 0; isPinned := None; isDeleted := None;
     orderDirection := DESC |}.

Definition flag_ok (want : option bool) (v : SqlValue) : bool :=
  match want with
  | None => true
  | Some b => int_is (if b then 1 else 0) v
  end.

(** The [WHERE] clause shared by [query] and [count]. *)
Definition selected (o : options) (r : Row) : bool :=
  flag_ok (isPinned o) (col "is_pinned" r)
  && flag_ok (isDeleted o) (col "is_deleted" r).

Definition before (d : direction) (x y : Row) : bool :=
  match d with
  | ASC => row_timestamp x <=? row_timestamp y
  | DESC => row_timestamp y <=? row_timestamp x
  end.

Fixpoint place (d : direction) (x : Row) (l : list Row) : list Row :=
  match l with
  | [] => [x]
  | y :: rest => if before d x y then x :: l else y :: place d x rest
  end.

(** [ORDER BY timestamp d].  SQLite leaves the order of rows with
    equal timestamps open; here they stay in rowid order, and no
    statement below depends on that choice. *)
Definition order_by_timestamp (d : direction) (l : list Row) : list Row :=
  foldr (place d) [] l.

(** [LIMIT n]: a negative limit is no limit. *)
Definition sql_limit (n : Z) (l : list Row) : list Row :=
  if n <? 0 then l else take (Z.to_nat n) l.

(** The rows a [query] statement returns. *)
Definition select (o : options) (db : table) : list Row :=
  sql_limit (limit o)
    (drop (Z.to_nat (offset o))
       (order_by_timestamp (orderDirection o) (List.filter (selected o) db))).

(** [query(options)] (lines 200-235) *)
Definition query (o : options) (db : table) : outcome (list DbItem.t) :=
  match map_outcome rowToItem (select o db) with
  | Returned items => Returned items
  | Threw m => Threw ("Query failed: " +:+ m)
  end.

(** [getById(id)] (lines 240-249) *)
Definition getById (id : string) (db : table) : outcome (option DbItem.t) :=
  match List.find (has_id id) db with
  | None => Returned None
  | Some row =>
      match rowToItem row with
      | Returned item => Returned (Some item)
      | Threw m => Threw ("Get by ID failed: " +:+ m)
      end
  end.

(** [camelToSnake(str)] (lines 418-420) *)
Definition is_upper (c : ascii) : bool :=
  let n := nat_of_ascii c in (65 <=? n)%nat && (n <=? 90)%nat.

Definition to_lower (c : ascii) : ascii :=
  if is_upper c then ascii_of_nat (nat_of_ascii c + 32) else c.

Fixpoint camelToSnake (str : string) : string :=
  match str with
  | EmptyString => EmptyString
  | String c rest =>
      if is_upper c
      then String "_"%char (String (to_lower c) (camelToSnake rest))
      else String c (camelToSnake rest)
  end.

(** [allowedFields] of [update] (lines 280-283) *)
Definition allowedFields : list string :=
  [ "is_pinned"; "is_deleted"; "plain_text"; "rich_text";
    "image_data"; "thumbnail_data"; "file_paths"; "color_value" ].

Definition allowed (dbKey : string) : bool :=
  existsb (String.eqb dbKey) allowedFields.

(** The value pushed for a kept key: booleans become 0/1, arrays
    become JSON text. *)
Definition bind (v : value) : SqlValue :=
  match v with
  | JNull => SNull
  | JBool b => of_bool b
  | JNum n => SInt n
  | JStr s => SText s
  | JBuf b => SBlob b
  | JArr l => SText (JSON_stringify l)
  end.

(** The [SET] list built by the [forEach] of [update]: one assignment
    per key whose snake-case name is allowed, in key order. *)
Fixpoint assignments (updates : list (string * value)) : list (string * SqlValue) :=
  match updates with
  | [] => []
  | (key, v) :: rest =>
      let dbKey := camelToSnake key in
      if allowed dbKey
      then (dbKey, bind v) :: assignments rest
      else assignments rest
  end.

(** [SET c1 = v1, c2 = v2, ...] on one row; when a column is named
    twice the rightmost assignment stands. *)
Definition assign (sets : list (string * SqlValue)) (r : Row) : Row :=
  foldl (fun acc cv => <[cv.1 := cv.2]> acc) r sets.

(** [update(id, updates)] (lines 279-322); [updates] lists the
    properties of the object in key order. *)
Definition update (id : string) (updates : list (string * value)) (db : table)
  : bool * table :=
  let sets := assignments updates in
  match sets with
  | [] => (false, db)
  | _ :: _ =>
      (existsb (has_id id) db,
       (fun r => if has_id id r then assign sets r else r) <$> db)
  end.

(** [delete(ids)] (lines 327-343): the number of rows removed, and the
    table without them. *)
Definition listed (ids : list string) (r : Row) : bool :=
  existsb (fun id => has_id id r) ids.

Definition delete (ids : list string) (db : table) : Z * table :=
  (Z.of_nat (length (List.filter (listed ids) db)),
   List.filter (fun r => negb (listed ids r)) db).

(** [count(options)] (lines 348-372) *)
Definition count (o : options) (db : table) : Z :=
  Z.of_nat (length (List.filter (selected o) db)).

(** [WHERE content_hash = ? AND is_deleted = 0] *)
Definition hash_match (contentHash : string) (r : Row) : bool :=
  text_is contentHash (col "content_hash" r) && int_is 0 (col "is_deleted" r).

(** [existsByHash(contentHash)] (lines 377-386): the id of the first
    non-deleted row with that hash, or null. *)
Definition existsByHash (contentHash : string) (db : table) : option string :=
  match List.find (hash_match contentHash) db with
  | Some row => as_text (col "id" row)
  | None => None
  end.

End Database.

(* ===================================================================== *)
(** * imageStorageManager.js                                              *)
(* ===================================================================== *)

Module ImageStorage.
Import Js.

(** The files on disk: path to contents.  [fs.writeFile] is taken to
    succeed, [fs.unlink] and [fs.readFile] fail on a missing path. *)
Abbreviation FS := (gmap string Buffer).

(** The two encoders of the [sharp] library; [None] is a throw (the
    input is not an image). *)
Class Sharp : Type := {
  webp : Buffer -> option Buffer;
  jpeg_thumbnail : Buffer -> option Buffer
}.

Record t : Type := mk {
  basePath : string;
  imagesPath : string;
  thumbnailsPath : string
}.

(** The constructor (lines 10-14) *)
Definition new (base : string) : t :=
  {| basePath := base;
     imagesPath := path_join base "images";
     thumbnailsPath := path_join base "thumbnails" |}.

Record saved : Type := mk_saved {
  id : string;
  imagePath : string;
  thumbnailPath : string;
  fileSize : Z
}.

Definition invalid_id : string := "Invalid image ID".

(** The guard of [deleteImage], [readImage] and [readThumbnail]
    (lines 98, 151, 169): true when the id is rejected. *)
Definition rejects (id : value) : bool :=
  match id with
  | JStr s =>
      negb (truthy_str s)
      || includes ".." s
      || includes "/" s
      || includes (String backslash EmptyString) s
  | _ => true
  end.

Section WithSharp.
Context `{Sharp}.

(** [saveImage(imageBuffer, id = null)] (lines 33-68) *)
Definition saveImage (m : t) (imageBuffer : Buffer) (id : value)
    (uuid : string) (fs : FS) : outcome saved * FS :=
  let imageId := if truthy id then String_ id else uuid in
  match webp imageBuffer with
  | None => (Threw "sharp: unsupported image format", fs)
  | Some compressedBuffer =>
      let imagePath := path_join (imagesPath m) (imageId +:+ ".webp") in
      let fs1 := <[imagePath := compressedBuffer]> fs in
      match jpeg_thumbnail imageBuffer with
      | None => (Threw "sharp: unsupported image format", fs1)
      | Some thumbnailBuffer =>
          let thumbnailPath :=
            path_join (thumbnailsPath m) (imageId +:+ ".jpg") in
          let fs2 := <[thumbnailPath := thumbnailBuffer]> fs1 in
          (Returned {| id := imageId;
                       imagePath := imagePath;
                       thumbnailPath := thumbnailPath;
                       fileSize := Z.of_nat (length imageBuffer) |},
           fs2)
      end
  end.
End WithSharp.

(** [getImagePath(id)], [getThumbnailPath(id)] (lines 135-144) *)
Definition getImagePath (m : t) (id : value) : string :=
  path_join (imagesPath m) (String_ id +:+ ".png").

Definition getThumbnailPath (m : t) (id : value) : string :=
  path_join (thumbnailsPath m) (String_ id +:+ ".jpg").

(** [deleteImage(id)] (lines 96-117); [Promise.allSettled] absorbs
    the failure of either [unlink]. *)
Definition deleteImage (m : t) (id : value) (fs : FS) : outcome bool * FS :=
  if rejects id then (Threw invalid_id, fs)
  else
    let imagePath := path_join (imagesPath m) (String_ id +:+ ".png") in
    let thumbnailPath := path_join (thumbnailsPath m) (String_ id +:+ ".jpg") in
    (Returned true, base.delete thumbnailPath (base.delete imagePath fs)).

(** [imageExists(id)] (lines 122-130) *)
Definition imageExists (m : t) (id : value) (fs : FS) : bool :=
  bool_decide (is_Some (fs !! path_join (imagesPath m) (String_ id +:+ ".png"))).

(** [readImage(id)] (lines 149-162): the bytes, or null when the
    read fails. *)
Definition readImage (m : t) (id : value) (fs : FS) : outcome (option Buffer) :=
  if rejects id then Threw invalid_id
  else Returned (fs !! getImagePath m id).

(** [readThumbnail(id)] (lines 167-180) *)
Definition readThumbnail (m : t) (id : value) (fs : FS) : outcome (option Buffer) :=
  if rejects id then Threw invalid_id
  else Returned (fs !! getThumbnailPath m id).

End ImageStorage.

(* ===================================================================== *)
(** * preferencesManager.js: the clamps of [validateUpdates]              *)
(* ===================================================================== *)

Module Preferences.
(** [Math.max(100, Math.min(10000, value))] (line 141) *)
Definition validate_maxHistoryItems (value : Z) : Z :=
  Z.max 100 (Z.min 10000 value).

(** [Math.max(1, Math.min(365, value))] (line 149) *)
Definition validate_retentionDays (value : Z) : Z :=
  Z.max 1 (Z.min 365 value).
End Preferences.

(* ===================================================================== *)
(** * historyManager.js                                                   *)
(* ===================================================================== *)

Module History.
Import Js.

(** The fields of a [HistoryManager]; [db] is the content of the
    table behind its [DatabaseManager]. *)
Record t : Type := mk {
  db : Database.table;
  maxItems : Z;
  retentionDays : Z
}.

Definition with_db (h : t) (d : Database.table) : t :=
  {| db := d; maxItems := maxItems h; retentionDays := retentionDays h |}.

(** The constructor (lines 9-14), over the table found on disk. *)
Definition new (d : Database.table) : t :=
  {| db := d; maxItems := 1000; retentionDays := 30 |}.

Definition ids_of (items : list DbItem.t) : list string := DbItem.id <$> items.

(** Lines 301-322 of [enforceStorageLimits]: the count limit. *)
Definition enforce_count (h : t) : outcome t :=
  let totalCount :=
    Database.count
      {| Database.limit := 50; Database.offset := 0;
         Database.isPinned := None; Database.isDeleted := Some false;
         Database.orderDirection := Database.DESC |} (db h) in
  if maxItems h <? totalCount then
    let excessCount := totalCount - maxItems h in
    match Database.query
            {| Database.limit := excessCount; Database.offset := 0;
               Database.isPinned := Some false; Database.isDeleted := Some false;
               Database.orderDirection := Database.ASC |} (db h) with
    | Threw m => Threw m
    | Returned oldestItems =>
        let idsToDelete := ids_of oldestItems in
        match idsToDelete with
        | [] => Returned h
        | _ :: _ => Returned (with_db h (Database.delete idsToDelete (db h)).2)
        end
    end
  else Returned h.

(** Lines 324-342 of [enforceStorageLimits]: the retention period. *)
Definition enforce_retention (now : Z) (h : t) : outcome t :=
  if 0 <? retentionDays h then
    let cutoffTimestamp := now - retentionDays h * 24 * 60 * 60 * 1000 in
    match Database.query
            {| Database.limit := 10000; Database.offset := 0;
               Database.isPinned := Some false; Database.isDeleted := Some false;
               Database.orderDirection := Database.ASC |} (db h) with
    | Threw m => Threw m
    | Returned items =>
        let expiredItems :=
          List.filter (fun item => DbItem.timestamp item <? cutoffTimestamp) items in
        let idsToDelete := ids_of expiredItems in
        match idsToDelete with
        | [] => Returned h
        | _ :: _ => Returned (with_db h (Database.delete idsToDelete (db h)).2)
        end
    end
  else Returned h.

(** [enforceStorageLimits()] (lines 299-346): both passes inside one
    [try]; an error is logged and what was done before it stays. *)
Definition enforceStorageLimits (now : Z) (h : t) : t :=
  match enforce_count h with
  | Threw _ => h
  | Returned h1 =>
      match enforce_retention now h1 with
      | Threw _ => h1
      | Returned h2 => h2
      end
  end.

(** [addItem(item)] (lines 20-51); [now] is the clock read by
    [enforceStorageLimits]. *)
Definition addItem (item : ClipboardItem.t) (now : Z) (h : t)
  : outcome (option string) * t :=
  let existingId := Database.existsByHash (ClipboardItem.contentHash item) (db h) in
  if truthy_ostr existingId then
    let id := default EmptyString existingId in
    let r := Database.update id
               [("timestamp", JNum (ClipboardItem.timestamp item))] (db h) in
    (Returned (Some id), with_db h r.2)
  else
    match Database.insert (ClipboardItem.toDatabase item) (db h) with
    | (Threw m, d) => (Threw m, with_db h d)
    | (Returned true, d) =>
        (Returned (Some (ClipboardItem.id item)),
         enforceStorageLimits now (with_db h d))
    | (Returned false, d) => (Returned None, with_db h d)
    end.

(** [pinItem(id)], [unpinItem(id)] (lines 114-141) *)
Definition pinItem (id : string) (h : t) : bool * t :=
  let r := Database.update id [("isPinned", JBool true)] (db h) in
  (r.1, with_db h r.2).

Definition unpinItem (id : string) (h : t) : bool * t :=
  let r := Database.update id [("isPinned", JBool false)] (db h) in
  (r.1, with_db h r.2).

(** The loop of [moveToTrash] and [restoreFromTrash]. *)
Definition set_deleted (flag : bool) (ids : list string) (h : t) : Z * t :=
  foldl (fun acc id =>
           let r := Database.update id [("isDeleted", JBool flag)] (db acc.2) in
           (if r.1 then acc.1 + 1 else acc.1, with_db acc.2 r.2))
        (0, h) ids.

(** [moveToTrash(ids)] (lines 167-187) *)
Definition moveToTrash (ids : list string) (h : t) : Z * t :=
  set_deleted true ids h.

(** [restoreFromTrash(ids)] (lines 192-212) *)
Definition restoreFromTrash (ids : list string) (h : t) : Z * t :=
  set_deleted false ids h.

(** [deleteItems(ids)] (lines 217-230) *)
Definition deleteItems (ids : list string) (h : t) : Z * t :=
  let r := Database.delete ids (db h) in
  (r.1, with_db h r.2).

(** The common shape of [emptyTrash] and [clearAllHistory]: query,
    then delete what the query returned. *)
Definition delete_selected (o : Database.options) (h : t) : outcome Z * t :=
  match Database.query o (db h) with
  | Threw m => (Threw m, h)
  | Returned items =>
      match ids_of items with
      | [] => (Returned 0, h)
      | (_ :: _) as ids =>
          let r := Database.delete ids (db h) in
          (Returned r.1, with_db h r.2)
      end
  end.

(** [emptyTrash()] (lines 235-255) *)
Definition emptyTrash (h : t) : outcome Z * t :=
  delete_selected
    {| Database.limit := 10000; Database.offset := 0;
       Database.isPinned := None; Database.isDeleted := Some true;
       Database.orderDirection := Database.DESC |} h.

(** [clearAllHistory()] (lines 260-281) *)
Definition clearAllHistory (h : t) : outcome Z * t :=
  delete_selected
    {| Database.limit := 10000; Database.offset := 0;
       Database.isPinned := Some false; Database.isDeleted := Some false;
       Database.orderDirection := Database.DESC |} h.

(** [getCount(options)] (lines 286-293) *)
Definition getCount (o : Database.options) (h : t) : Z :=
  Database.count o (db h).

(** [updatePreferences(prefs)] (lines 351-361) *)
Definition updatePreferences (maxHistoryItems retention : option Z)
    (now : Z) (h : t) : t :=
  enforceStorageLimits now
    {| db := db h;
       maxItems := default (maxItems h) maxHistoryItems;
       retentionDays := default (retentionDays h) retention |}.

(** The options object of [getItems]; [None] is an absent property.
    An absent [isDeleted] defaults to [false], an explicit [null]
    ([Some None]) asks for trashed and live items alike. *)
Record get_options : Type := mk_get_options {
  g_limit : option Z;
  g_offset : option Z;
  g_isPinned : option bool;
  g_isDeleted : option (option bool)
}.

(** [getItems()] without argument. *)
Definition no_options : get_options :=
  {| g_limit := None; g_offset := None; g_isPinned := None; g_isDeleted := None |}.

(** [getItems(options)] (lines 56-79).  The item at position [i] of
    the result is built with [uuid i] and [now i], which the
    constructor falls back on when the row has no id or no timestamp. *)
Definition getItems (o : get_options) (uuid : nat -> string) (now : nat -> Z) (h : t)
  : outcome (list ClipboardItem.t) :=
  match Database.query
          {| Database.limit := default 50 (g_limit o);
             Database.offset := default 0 (g_offset o);
             Database.isPinned := g_isPinned o;
             Database.isDeleted := default (Some false) (g_isDeleted o);
             Database.orderDirection := Database.DESC |} (db h) with
  | Threw m => Threw m
  | Returned items =>
      map_outcome_from 0
        (fun i item => ClipboardItem.fromDatabase item (uuid i) (now i)) items
  end.

(** [getItemById(id)] (lines 101-109) *)
Definition getItemById (id : string) (uuid : string) (now : Z) (h : t)
  : outcome (option ClipboardItem.t) :=
  match Database.getById id (db h) with
  | Threw m => Threw m
  | Returned None => Returned None
  | Returned (Some item) =>
      match ClipboardItem.fromDatabase item uuid now with
      | Threw m => Threw m
      | Returned it => Returned (Some it)
      end
  end.

(** [togglePin(id)] (lines 146-162) *)
Definition togglePin (id : string) (uuid : string) (now : Z) (h : t)
  : outcome bool * t :=
  match getItemById id uuid now h with
  | Threw m => (Threw m, h)
  | Returned None => (Returned false, h)
  | Returned (Some item) =>
      let r := if ClipboardItem.isPinned item then unpinItem id h else pinItem id h in
      (Returned r.1, r.2)
  end.

End History.

(* ===================================================================== *)
(** * Vocabulary of the properties                                        *)
(* ===================================================================== *)

Module Store.
Import Js Database.

(** A live item: [is_deleted = 0]. *)
Definition live (r : Row) : bool := int_is 0 (col "is_deleted" r).
Definition pinned (r : Row) : bool := int_is 1 (col "is_pinned" r).
Definition unpinned (r : Row) : bool := int_is 0 (col "is_pinned" r).

(** [rowToItem] returns on this row. *)
Definition readable (r : Row) : bool :=
  match rowToItem r with Returned _ => true | Threw _ => false end.

(** What [insert] establishes for a row and no operation of the
    coordinator undoes: the id is text and the row can be read back. *)
Definition wf_row (r : Row) : bool :=
  match col "id" r with
  | SText _ => readable r
  | _ => false
  end.

(** A table as SQLite keeps it: well-formed rows, and [id] a key. *)
Definition wf (db : table) : Prop :=
  Forall (fun r => wf_row r = true) db /\ NoDup (row_id <$> db).

Definition ids_nonempty (db : table) : Prop :=
  Forall (fun r => row_id r <> EmptyString) db.

(** At most one live row per content hash. *)
Definition unique_live_hash (db : table) : Prop :=
  forall h : string, (length (List.filter (hash_match h) db) <= 1)%nat.

(** The rows' timestamps strictly increase in rowid order. *)
Definition increasing (l : list Row) : Prop :=
  StronglySorted (fun x y => row_timestamp x < row_timestamp y) l.

(** The operations of the coordinator that change the store. *)
Inductive op : Type :=
| AddItem (item : ClipboardItem.t) (now : Z)
| PinItem (id : string)
| UnpinItem (id : string)
| MoveToTrash (ids : list string)
| RestoreFromTrash (ids : list string)
| DeleteItems (ids : list string)
| EmptyTrash
| ClearAllHistory
| EnforceStorageLimits (now : Z)
| UpdatePreferences (maxHistoryItems retentionDays : option Z) (now : Z).

Definition run (h : History.t) (o : op) : History.t :=
  match o with
  | AddItem item now => (History.addItem item now h).2
  | PinItem id => (History.pinItem id h).2
  | UnpinItem id => (History.unpinItem id h).2
  | MoveToTrash ids => (History.moveToTrash ids h).2
  | RestoreFromTrash ids => (History.restoreFromTrash ids h).2
  | DeleteItems ids => (History.deleteItems ids h).2
  | EmptyTrash => (History.emptyTrash h).2
  | ClearAllHistory => (History.clearAllHistory h).2
  | EnforceStorageLimits now => History.enforceStorageLimits now h
  | UpdatePreferences m r now => History.updatePreferences m r now h
  end.

(** An item as the constructor leaves it has a non-empty id. *)
Definition built (o : op) : Prop :=
  match o with
  | AddItem item _ => ClipboardItem.id item <> EmptyString
  | _ => True
  end.

Definition restores (o : op) : bool :=
  match o with RestoreFromTrash _ => true | _ => false end.

(** The rows after [update(id, { key: flag })] for the two flag keys. *)
Definition flag_rows (c : string) (flag : bool) (id : string) (db : table) : table :=
  (fun r => if has_id id r then <[c := of_bool flag]> r else r) <$> db.

(** The invariant of the store. *)
Definition Inv (h : History.t) : Prop :=
  wf (History.db h) /\ ids_nonempty (History.db h) /\ unique_live_hash (History.db h).

(** [{ type: 'text', plainText: text }] *)
Definition text_init (text : string) : ClipboardItem.init :=
  ClipboardItem.mk_init None ClipboardItemType.TEXT None false false None
    (Some text) None None None None None None None None None None None false None.

(** The rows that both passes of [enforceStorageLimits] select:
    [is_pinned = 0 AND is_deleted = 0]. *)
Definition evictable (r : Row) : bool := unpinned r && live r.

(** The retention cutoff of line 326. *)
Definition cutoff (now : Z) (h : History.t) : Z :=
  now - History.retentionDays h * 24 * 60 * 60 * 1000.

(** The options of the two queries of [enforceStorageLimits]: the
    [n] oldest unpinned live rows. *)
Definition oldest (n : Z) : options :=
  {| limit := n; offset := 0; isPinned := Some false; isDeleted := Some false;
     orderDirection := ASC |}.

(** [{ isDeleted: false }] *)
Definition not_deleted : options :=
  {| limit := 50; offset := 0; isPinned := None; isDeleted := Some false;
     orderDirection := DESC |}.

(** The rows that the count pass deletes ... *)
Definition count_victims (h : History.t) : list Row :=
  let totalCount := count not_deleted (History.db h) in
  if History.maxItems h <? totalCount
  then select (oldest (totalCount - History.maxItems h)) (History.db h)
  else [].

(** ... and the rows that the retention pass deletes. *)
Definition retention_victims (now : Z) (h : History.t) : list Row :=
  if 0 <? History.retentionDays h
  then List.filter (fun r => row_timestamp r <? cutoff now h)
         (select (oldest 10000) (History.db h))
  else [].

(** The store after the count pass. *)
Definition after_count (h : History.t) : History.t :=
  History.with_db h (delete (row_id <$> count_victims h) (History.db h)).2.

(** A row as [addItem] writes it for a captured text. *)
Definition text_row (id : string) (timestamp : Z) : Row :=
  row_of_item
    (ClipboardItem.toDatabase
       (ClipboardItem.fromText ("item " +:+ id) None id timestamp)).

(** Six unpinned live rows, oldest first, under a limit of one item. *)
Definition six_rows : table :=
  [ text_row "a" 1; text_row "b" 2; text_row "c" 3;
    text_row "d" 4; text_row "e" 5; text_row "f" 6 ].

Definition six_over_one : History.t :=
  {| History.db := six_rows; History.maxItems := 1; History.retentionDays := 30 |}.

(** One old row in a store whose retention is switched off, and in one
    that keeps thirty days. *)
Definition retention_off : History.t :=
  {| History.db := [text_row "a" 5];
     History.maxItems := 1000; History.retentionDays := 0 |}.

Definition retention_thirty : History.t :=
  {| History.db := [text_row "a" 5];
     History.maxItems := 1000; History.retentionDays := 30 |}.

(** The captures of the end-to-end scenario. *)
Definition hello (uuid : string) (now : Z) : ClipboardItem.t :=
  ClipboardItem.fromText "Hello" None uuid now.

Definition world (uuid : string) (now : Z) : ClipboardItem.t :=
  ClipboardItem.fromText "World" None uuid now.

(** A store that holds one capture of Hello, made at time 1000. *)
Definition one_hello : History.t :=
  (History.addItem (hello "id-1" 1000) 1000 (History.new [])).2.

(** Capture, trash, capture the same content again, restore. *)
Definition recapture_then_restore : list op :=
  [ AddItem (hello "id-1" 1000) 1000;
    MoveToTrash ["id-1"];
    AddItem (hello "id-2" 2000) 2000;
    RestoreFromTrash ["id-1"] ].

(** A session without a restore. *)
Definition session : list op :=
  [ AddItem (hello "id-1" 1000) 1000;
    AddItem (world "id-2" 2000) 2000;
    PinItem "id-2";
    AddItem (hello "id-3" 3000) 3000;
    MoveToTrash ["id-1"];
    AddItem (hello "id-4" 4000) 4000;
    UnpinItem "id-2";
    EnforceStorageLimits 5000;
    EmptyTrash;
    UpdatePreferences (Some 100) None 6000;
    DeleteItems ["id-2"];
    ClearAllHistory ].

End Store.

Module Blob.
Import Js ImageStorage.

(** An encoder for running examples: the full image keeps its bytes and
    the thumbnail keeps the first four.  It stands in for [sharp], whose
    output no statement below depends on. *)
Definition plain_sharp : Sharp :=
  {| webp := fun b => Some b; jpeg_thumbnail := fun b => Some (take 4 b) |}.

(** The states of the disk when only the Blob Store writes to it,
    starting from empty directories. *)
Inductive reachable `{Sharp} : FS -> Prop :=
| reach_empty : reachable ∅
| reach_save (m : t) (buf : Buffer) (id : value) (uuid : string) (fs : FS) :
    reachable fs -> reachable (saveImage m buf id uuid fs).2
| reach_delete (m : t) (id : value) (fs : FS) :
    reachable fs -> reachable (deleteImage m id fs).2.

(** Every file carries one of the two extensions that [saveImage]
    writes. *)
Definition written (fs : FS) : Prop :=
  forall p : string, is_Some (fs !! p) ->
    exists a x, p = path_join a (x +:+ ".webp") \/ p = path_join a (x +:+ ".jpg").

Definition data_root : t := ImageStorage.new "/data".

Definition png_bytes : Buffer := [x89; x50; x4e; x47; x0d; x0a].

(** The item that the clipboard monitor builds for a saved image
    (clipboardMonitor.js, [createClipboardItem], the first branch). *)
Definition image_item (r : saved) (contentHash : string) (sourceApp : option string)
    (uuid : string) (now : Z) : ClipboardItem.t :=
  ClipboardItem.new
    (ClipboardItem.mk_init (Some (id r)) ClipboardItemType.IMAGE None false false
       (Some contentHash) None None None None
       (Some (imagePath r)) (Some (thumbnailPath r)) None None sourceApp
       (Some (fileSize r)) None None false None)
    uuid now.

(** One image captured into an empty store and an empty disk: the
    files are saved under a fresh id, then the item is added. *)
Definition saved_capture : outcome saved * FS :=
  @saveImage plain_sharp data_root png_bytes JNull "img-1" ∅.

Definition captured_image : History.t :=
  match saved_capture.1 with
  | Returned r =>
      (History.addItem
         (image_item r (ClipboardItem.generateHash (JBuf png_bytes) ClipboardItemType.IMAGE)
                     None "unused" 1000)
         1000 (History.new [])).2
  | Threw _ => History.new []
  end.

End Blob.

(* ===================================================================== *)
(** * preferencesManager.js and permissionManager.js                      *)
(* ===================================================================== *)

Module PreferencesManager.
Import Js.

(** The value of a preference.  An array is an object: it lives in the
    heap of the manager and a property holds its address, so that two
    properties (or two objects) can hold the same array. *)
Inductive pvalue : Type :=
| PNull
| PBool (b : bool)
| PNum (n : Z)
| PNaN
| PStr (s : string)
| PArr (a : nat).

(** A value as [JSON.parse] delivers it. *)
Inductive json : Type :=
| JsNull
| JsBool (b : bool)
| JsNum (n : Z)
| JsStr (s : string)
| JsArr (l : list string).

(** The arrays, by address. *)
Definition heap : Type := list (list string).

(** A manager: the two objects [defaults] and [preferences], and the
    arrays they refer to.  The file that [save] writes is not part of
    the state; [fs.writeFileSync] is taken to succeed. *)
Record t : Type := mk {
  defaults : gmap string pvalue;
  preferences : gmap string pvalue;
  arrays : heap
}.

Definition alloc (l : list string) (hp : heap) : nat * heap :=
  (length hp, app hp [l]).

(** [this.defaults] (lines 12-28); its array literal is the first
    array allocated. *)
Definition defaults_literal : list (string * pvalue) :=
  [ ("globalHotkey", PStr "Command+L");
    ("copyWithFormatting", PBool true);
    ("pasteWithFormatting", PBool true);
    ("autoHideAfterCopy", PBool true);
    ("sidebarPosition", PStr "right");
    ("sidebarWidth", PNum 400);
    ("sidebarItemLimit", PNum 100);
    ("maxHistoryItems", PNum 1000);
    ("retentionDays", PNum 30);
    ("launchAtLogin", PBool false);
    ("excludedApplications", PArr 0);
    ("ignorePasswords", PBool false);
    ("enableSoundEffects", PBool false);
    ("theme", PStr "system");
    ("saveImages", PBool false) ].

(** A parsed value becomes a value of the program; a parsed array is a
    new array. *)
Definition of_json (v : json) (hp : heap) : pvalue * heap :=
  match v with
  | JsNull => (PNull, hp)
  | JsBool b => (PBool b, hp)
  | JsNum n => (PNum n, hp)
  | JsStr s => (PStr s, hp)
  | JsArr l => let r := alloc l hp in (PArr r.1, r.2)
  end.

(** [{ ...target, ...loaded }] for the properties of a parsed object,
    in their order. *)
Definition spread_loaded (loaded : list (string * json))
    (target : gmap string pvalue) (hp : heap) : gmap string pvalue * heap :=
  foldl (fun acc kv =>
           let r := of_json kv.2 acc.2 in
           (<[kv.1 := r.1]> acc.1, r.2))
        (target, hp) loaded.

(** The constructor with [load()] (lines 9-31 and 102-120).  [loaded]
    is the object that [JSON.parse] made of the preferences file;
    [None] stands for a missing or unreadable file.  Without a file the
    preferences are a shallow copy of the defaults: the two objects
    hold the same array. *)
Definition new (loaded : option (list (string * json))) : t :=
  let d := list_to_map defaults_literal in
  let hp := [ [] ] in
  match loaded with
  | None => {| defaults := d; preferences := d; arrays := hp |}
  | Some props =>
      let r := spread_loaded props d hp in
      {| defaults := d; preferences := r.1; arrays := r.2 |}
  end.

(** [get(key)] (lines 43-45); [None] is [undefined].  (The functions
    that every object inherits, as under the key [toString], are not
    values of the model.) *)
Definition get (key : string) (m : t) : option pvalue := preferences m !! key.

(** [getAll()] (lines 36-38): a shallow copy. *)
Definition getAll (m : t) : gmap string pvalue := preferences m.

(** The property names that every object inherits from
    [Object.prototype]; [key in this.defaults] is true for them too. *)
Definition Object_prototype : list string :=
  [ "constructor"; "__defineGetter__"; "__defineSetter__"; "hasOwnProperty";
    "__lookupGetter__"; "__lookupSetter__"; "isPrototypeOf";
    "propertyIsEnumerable"; "toString"; "valueOf"; "__proto__";
    "toLocaleString" ].

(** [key in this.defaults] *)
Definition known (key : string) (m : t) : bool :=
  bool_decide (is_Some (defaults m !! key))
  || existsb (String.eqb key) Object_prototype.

Section Coercion.
(** [Number(s)] for a string, as far as it is an integer; [None] is
    [NaN]. *)
Variable Number_of_string : string -> option Z.

(** The number that [Math.min] and [Math.max] make of an argument. *)
Definition to_number (v : pvalue) (hp : heap) : option Z :=
  match v with
  | PNull => Some 0
  | PBool b => Some (if b then 1 else 0)
  | PNum n => Some n
  | PNaN => None
  | PStr s => Number_of_string s
  | PArr a => Number_of_string (String.concat "," (default [] (hp !! a)))
  end.

(** [Math.max(lo, Math.min(hi, value))] *)
Definition clamp (lo hi : Z) (v : pvalue) (hp : heap) : pvalue :=
  match to_number v hp with
  | Some n => PNum (Z.max lo (Z.min hi n))
  | None => PNaN
  end.

(** [options.includes(value) ? value : fallback] *)
Definition one_of (options : list string) (fallback : string) (v : pvalue) : pvalue :=
  match v with
  | PStr s => if existsb (String.eqb s) options then v else PStr fallback
  | _ => PStr fallback
  end.

(** One turn of the loop of [validateUpdates] (lines 128-176): what is
    assigned to [validated[key]], if anything, and the heap.
    Assigning to [validated['__proto__']] sets no property. *)
Definition validate_entry (m : t) (key : string) (v : pvalue) (hp : heap)
  : option pvalue * heap :=
  if negb (known key m) then (None, hp)
  else if String.eqb key "sidebarWidth" then (Some (clamp 300 800 v hp), hp)
  else if String.eqb key "maxHistoryItems" then (Some (clamp 100 10000 v hp), hp)
  else if String.eqb key "sidebarItemLimit" then (Some (clamp 10 500 v hp), hp)
  else if String.eqb key "retentionDays" then (Some (clamp 1 365 v hp), hp)
  else if String.eqb key "sidebarPosition"
  then (Some (one_of ["left"; "right"] "right" v), hp)
  else if String.eqb key "theme"
  then (Some (one_of ["system"; "light"; "dark"] "system" v), hp)
  else if String.eqb key "excludedApplications" then
    match v with
    | PArr a => (Some v, hp)
    | _ => let r := alloc [] hp in (Some (PArr r.1), r.2)
    end
  else if String.eqb key "globalHotkey" then
    match v with
    | PStr s => if truthy_str s then (Some v, hp) else (None, hp)
    | _ => (None, hp)
    end
  else if String.eqb key "__proto__" then (None, hp)
  else (Some v, hp).

(** [validateUpdates(updates)] (lines 125-179): the validated object,
    built from the properties of [updates] in their order. *)
Definition validateUpdates (m : t) (updates : list (string * pvalue))
  : gmap string pvalue * heap :=
  foldl (fun acc kv =>
           let r := validate_entry m kv.1 kv.2 acc.2 in
           (match r.1 with
            | Some v => <[kv.1 := v]> acc.1
            | None => acc.1
            end, r.2))
        (∅, arrays m) updates.

(** [update(updates)] (lines 50-68): the validated properties are
    laid over the preferences. *)
Definition update (updates : list (string * pvalue)) (m : t) : bool * t :=
  let r := validateUpdates m updates in
  (true,
   {| defaults := defaults m;
      preferences := r.1 ∪ preferences m;
      arrays := r.2 |}).

(** [resetToDefaults()] (lines 73-83): a shallow copy of the defaults. *)
Definition resetToDefaults (m : t) : bool * t :=
  (true, {| defaults := defaults m; preferences := defaults m; arrays := arrays m |}).

(** [addExcludedApplication(appName)] (lines 184-190).  The array of
    the preferences is changed in place by [push] before [update] is
    handed the same array.  On a string [includes] is the substring
    test and [push] does not exist. *)
Definition addExcludedApplication (appName : string) (m : t) : outcome unit * t :=
  match preferences m !! "excludedApplications" with
  | Some (PArr a) =>
      let excluded := default [] (arrays m !! a) in
      if existsb (String.eqb appName) excluded then (Returned tt, m)
      else
        let pushed :=
          {| defaults := defaults m; preferences := preferences m;
             arrays := <[a := app excluded [appName]]> (arrays m) |} in
        (Returned tt, (update [("excludedApplications", PArr a)] pushed).2)
  | Some (PStr s) =>
      if includes appName s then (Returned tt, m)
      else (Threw "TypeError: excluded.push is not a function", m)
  | _ => (Threw "TypeError: excluded.includes is not a function", m)
  end.

(** [removeExcludedApplication(appName)] (lines 195-200): [filter]
    makes a new array. *)
Definition removeExcludedApplication (appName : string) (m : t) : outcome unit * t :=
  match preferences m !! "excludedApplications" with
  | Some (PArr a) =>
      let excluded :=
        List.filter (fun name => negb (String.eqb name appName))
                    (default [] (arrays m !! a)) in
      let r := alloc excluded (arrays m) in
      let allocated :=
        {| defaults := defaults m; preferences := preferences m; arrays := r.2 |} in
      (Returned tt, (update [("excludedApplications", PArr r.1)] allocated).2)
  | _ => (Threw "TypeError: excludedApplications.filter is not a function", m)
  end.

(** [isApplicationExcluded(appName)] (lines 205-207) *)
Definition isApplicationExcluded (appName : string) (m : t) : outcome bool :=
  match preferences m !! "excludedApplications" with
  | Some (PArr a) => Returned (existsb (String.eqb appName) (default [] (arrays m !! a)))
  | Some (PStr s) => Returned (includes appName s)
  | _ => Threw "TypeError: excludedApplications.includes is not a function"
  end.

End Coercion.

(** Truthiness of a property read; [None] is [undefined]. *)
Definition truthy_property (o : option pvalue) : bool :=
  match o with
  | Some (PBool b) => b
  | Some (PNum n) => negb (n =? 0)
  | Some (PStr s) => truthy_str s
  | Some (PArr _) => true
  | Some PNull | Some PNaN | None => false
  end.

(** permissionManager.js, [shouldShowPermissionNotification()] (lines
    46-57); [hasPermission] is what [checkFullDiskAccess()] finds. *)
Definition shouldShowPermissionNotification (hasPermission : bool) (m : t) : bool :=
  if truthy_property (get "fullDiskAccessNotificationDismissed" m) then false
  else negb hasPermission.

Section Dismissal.
Variable Number_of_string : string -> option Z.

(** The second action of the notification, "Don't Show Again" (lines
    81-84). *)
Definition dontShowAgain (m : t) : bool * t :=
  update Number_of_string [("fullDiskAccessNotificationDismissed", PBool true)] m.
End Dismissal.

(** The applications named by the exclusion list of the preferences,
    when it is an array. *)
Definition excluded (m : t) : option (list string) :=
  match preferences m !! "excludedApplications" with
  | Some (PArr a) => arrays m !! a
  | _ => None
  end.

(** [lo <= v <= hi], or [v] is [NaN]. *)
Definition ranged (lo hi : Z) (v : pvalue) : Prop :=
  v = PNaN \/ exists n, v = PNum n /\ lo <= n <= hi.

(** What [validateUpdates] promises of the value it lets through for
    a key. *)
Definition meets (key : string) (v : pvalue) : Prop :=
  if String.eqb key "sidebarWidth" then ranged 300 800 v
  else if String.eqb key "maxHistoryItems" then ranged 100 10000 v
  else if String.eqb key "sidebarItemLimit" then ranged 10 500 v
  else if String.eqb key "retentionDays" then ranged 1 365 v
  else if String.eqb key "sidebarPosition" then v = PStr "left" \/ v = PStr "right"
  else if String.eqb key "theme"
  then v = PStr "system" \/ v = PStr "light" \/ v = PStr "dark"
  else if String.eqb key "excludedApplications" then exists a, v = PArr a
  else if String.eqb key "globalHotkey"
  then exists s, v = PStr s /\ s <> EmptyString
  else True.

(** [Number] on the strings that the examples use. *)
Definition Number_on_examples (s : string) : option Z :=
  match s with
  | EmptyString => Some 0
  | "1" => Some 1
  | "500" => Some 500
  | _ => None
  end.

End PreferencesManager.

(* ===================================================================== *)
(** * The sidebar renderer: the relative time of an item                  *)
(* ===================================================================== *)

Module Renderer.

(** [formatTimestamp(timestamp)] of the sidebar script; [now] is
    [Date.now()]. *)
Definition formatTimestamp (timestamp now : Z) : string :=
  let diff := now - timestamp in
  let seconds := diff / 1000 in
  let minutes := seconds / 60 in
  let hours := minutes / 60 in
  let days := hours / 24 in
  if seconds <? 60 then "Just now"
  else if minutes <? 60 then pretty minutes +:+ "m ago"
  else if hours <? 24 then pretty hours +:+ "h ago"
  else pretty days +:+ "d ago".

End Renderer.

(* ===================================================================== *)
(** * main.js: the two migrations of pictures held by rows               *)
(* ===================================================================== *)

Module Main.
Import Js Database ImageStorage Blob.

(** [!item.imagePath && item.imageData]: the picture is held by the
    row and no file is recorded for it.  A Buffer is an object and
    counts as true even when it is empty. *)
Definition holds_blob (item : DbItem.t) : bool :=
  bool_decide (is_Some (DbItem.imageData item))
  && negb (truthy_ostr (DbItem.imagePath item)).

(** The filter of the background migration (lines 68-70) *)
Definition is_blob_image (item : DbItem.t) : bool :=
  String.eqb (DbItem.type item) "image" && holds_blob item.

(** The object handed to [db.update] by the migration at startup
    (lines 167-170) *)
Definition startup_updates (r : saved) : list (string * value) :=
  [ ("image_path", JStr (imagePath r));
    ("thumbnail_path", JStr (thumbnailPath r)) ].

(** The object handed to [db.update] by the background migration
    (lines 82-87) *)
Definition background_updates (r : saved) : list (string * value) :=
  [ ("image_path", JStr (imagePath r));
    ("thumbnail_path", JStr (thumbnailPath r));
    ("image_data", JNull);
    ("thumbnail_data", JNull) ].

(** The options of the two queries (lines 146-149 and 63-66) *)
Definition startup_query : options :=
  {| limit := 10000; offset := 0; isPinned := None; isDeleted := None;
     orderDirection := DESC |}.

Definition background_query : options :=
  {| limit := 10; offset := 0; isPinned := None; isDeleted := None;
     orderDirection := DESC |}.

Section WithSharp.
Context `{Sharp}.
Variable storage : ImageStorage.t.

(** One turn of the loop over [blobItems]: [saveImage], then
    [db.update]; a throw of [saveImage] is caught and the loop goes
    on.  ([sharp] throws on an input that is no Buffer before anything
    is written.) *)
Definition migrate (updates : saved -> list (string * value))
    (item : DbItem.t) (uuid : string) (st : table * FS) : table * FS :=
  match DbItem.imageData item with
  | None => st
  | Some buf =>
      match saveImage storage buf (JStr (DbItem.id item)) uuid st.2 with
      | (Returned r, fs) => ((update (DbItem.id item) (updates r) st.1).2, fs)
      | (Threw _, fs) => (st.1, fs)
      end
  end.

(** The loop; [uuid i] is what [crypto.randomUUID()] gives in turn
    [i]. *)
Fixpoint migrate_all (updates : saved -> list (string * value)) (i : nat)
    (items : list DbItem.t) (uuid : nat -> string) (st : table * FS)
  : table * FS :=
  match items with
  | [] => st
  | item :: rest =>
      migrate_all updates (S i) rest uuid (migrate updates item (uuid i) st)
  end.

(** [migrateBlobImagesToFiles()] (lines 141-189), run to its end: the
    table and the disk afterwards.  A failing query is caught. *)
Definition migrateBlobImagesToFiles (uuid : nat -> string) (db : table) (fs : FS)
  : table * FS :=
  match query startup_query db with
  | Threw _ => (db, fs)
  | Returned items =>
      migrate_all startup_updates 0 (List.filter holds_blob items) uuid (db, fs)
  end.

(** One run of the callback of [startBackgroundMigration()] (lines
    61-98), run to its end. *)
Definition backgroundMigration (uuid : nat -> string) (db : table) (fs : FS)
  : table * FS :=
  match query background_query db with
  | Threw _ => (db, fs)
  | Returned items =>
      migrate_all background_updates 0 (List.filter is_blob_image items) uuid
                  (db, fs)
  end.

(** The items of a list that [saveImage] can encode. *)
Definition encodable (item : DbItem.t) : bool :=
  match DbItem.imageData item with
  | Some buf =>
      bool_decide (is_Some (webp buf)) && bool_decide (is_Some (jpeg_thumbnail buf))
  | None => false
  end.

(** Where [saveImage] puts the picture of an item. *)
Definition saved_path (item : DbItem.t) (uuid : string) : string :=
  path_join (imagesPath storage)
    ((if truthy_str (DbItem.id item) then DbItem.id item else uuid) +:+ ".webp").

End WithSharp.

(** A row after [SET image_data = NULL, thumbnail_data = NULL]. *)
Definition cleared (r : Row) : Row :=
  <["thumbnail_data" := SNull]> (<["image_data" := SNull]> r).

(** A row that holds its picture, for examples. *)
Definition blob_row : Row :=
  row_of_item
    {| DbItem.id := "img-1";
       DbItem.type := "image";
       DbItem.timestamp := 1000;
       DbItem.isPinned := false;
       DbItem.isDeleted := false;
       DbItem.contentHash := "h";
       DbItem.plainText := None;
       DbItem.richText := None;
       DbItem.imageData := Some png_bytes;
       DbItem.thumbnailData := Some png_bytes;
       DbItem.imagePath := None;
       DbItem.thumbnailPath := None;
       DbItem.filePaths := None;
       DbItem.colorValue := None;
       DbItem.sourceApplication := None;
       DbItem.fileSize := Some 6;
       DbItem.fileCount := None;
       DbItem.fileTypes := None;
       DbItem.isAllImages := 0;
       DbItem.thumbnails := None |}.

End Main.

(** What the table keeps of an item. *)
Module Persisted.
Import Js.

(** [x || null] on a path: the empty text is stored as NULL. *)
Definition path (o : option string) : option string :=
  if truthy_ostr o then o else None.

(** The object that [rowToItem] rebuilds from the row that [insert]
    wrote for [item]: the paths pass through [x || null], and
    [thumbnails] has no column. *)
Definition row_item (item : DbItem.t) : DbItem.t :=
  {| DbItem.id := DbItem.id item;
     DbItem.type := DbItem.type item;
     DbItem.timestamp := DbItem.timestamp item;
     DbItem.isPinned := DbItem.isPinned item;
     DbItem.isDeleted := DbItem.isDeleted item;
     DbItem.contentHash := DbItem.contentHash item;
     DbItem.plainText := DbItem.plainText item;
     DbItem.richText := DbItem.richText item;
     DbItem.imageData := DbItem.imageData item;
     DbItem.thumbnailData := DbItem.thumbnailData item;
     DbItem.imagePath := path (DbItem.imagePath item);
     DbItem.thumbnailPath := path (DbItem.thumbnailPath item);
     DbItem.filePaths := DbItem.filePaths item;
     DbItem.colorValue := DbItem.colorValue item;
     DbItem.sourceApplication := DbItem.sourceApplication item;
     DbItem.fileSize := DbItem.fileSize item;
     DbItem.fileCount := DbItem.fileCount item;
     DbItem.fileTypes := DbItem.fileTypes item;
     DbItem.isAllImages := DbItem.isAllImages item;
     DbItem.thumbnails := None |}.

(** The same for an instance of the class. *)
Definition item (this : ClipboardItem.t) : ClipboardItem.t :=
  {| ClipboardItem.id := ClipboardItem.id this;
     ClipboardItem.type := ClipboardItem.type this;
     ClipboardItem.timestamp := ClipboardItem.timestamp this;
     ClipboardItem.isPinned := ClipboardItem.isPinned this;
     ClipboardItem.isDeleted := ClipboardItem.isDeleted this;
     ClipboardItem.contentHash := ClipboardItem.contentHash this;
     ClipboardItem.plainText := ClipboardItem.plainText this;
     ClipboardItem.richText := ClipboardItem.richText this;
     ClipboardItem.imageData := ClipboardItem.imageData this;
     ClipboardItem.imageThumbnail := ClipboardItem.imageThumbnail this;
     ClipboardItem.imagePath := path (ClipboardItem.imagePath this);
     ClipboardItem.thumbnailPath := path (ClipboardItem.thumbnailPath this);
     ClipboardItem.filePaths := ClipboardItem.filePaths this;
     ClipboardItem.colorValue := ClipboardItem.colorValue this;
     ClipboardItem.sourceApplication := ClipboardItem.sourceApplication this;
     ClipboardItem.fileSize := ClipboardItem.fileSize this;
     ClipboardItem.fileCount := ClipboardItem.fileCount this;
     ClipboardItem.fileTypes := ClipboardItem.fileTypes this;
     ClipboardItem.isAllImages := ClipboardItem.isAllImages this;
     ClipboardItem.thumbnails := None |}.

(** [is_deleted = 1]: the rows of the trash view. *)
Definition trashed (r : Database.Row) : bool :=
  Database.int_is 1 (Database.col "is_deleted" r).

(** The options [o] with another window: [limit] rows from [offset]. *)
Definition page (o : Database.options) (limit offset : Z) : Database.options :=
  {| Database.limit := limit; Database.offset := offset;
     Database.isPinned := Database.isPinned o;
     Database.isDeleted := Database.isDeleted o;
     Database.orderDirection := Database.orderDirection o |}.

(** An item read from a row agrees with a filter of the query. *)
Definition agrees (want : option bool) (flag : bool) : Prop :=
  forall b, want = Some b -> flag = b.

(** Items in the order that [ORDER BY timestamp d] asks for. *)
Definition ordered (d : Database.direction) (items : list DbItem.t) : Prop :=
  StronglySorted
    (fun x y =>
       match d with
       | Database.DESC => DbItem.timestamp y <= DbItem.timestamp x
       | Database.ASC => DbItem.timestamp x <= DbItem.timestamp y
       end) items.

(** [x] may stand before [y] under [ORDER BY timestamp d]. *)
Definition comes_before (d : Database.direction) (x y : Database.Row) : Prop :=
  Database.before d x y = true.

(** The table with [is_deleted] set to [flag] in every row whose id
    is listed. *)
Definition with_deleted (flag : bool) (ids : list string) (db : Database.table)
  : Database.table :=
  (fun r => if Database.listed ids r
            then <["is_deleted" := Database.of_bool flag]> r else r) <$> db.

(** The listed ids that name a row, as often as they are listed. *)
Definition naming (ids : list string) (db : Database.table) : list string :=
  List.filter (fun id => existsb (Database.has_id id) db) ids.

(** A store with two captures, Hello at time 1000 and World at 2000. *)
Definition hello_world : History.t :=
  foldl Store.run (History.new [])
    [ Store.AddItem (Store.hello "id-1" 1000) 1000;
      Store.AddItem (Store.world "id-2" 2000) 2000 ].

(** No upper-case letter of [A-Z] occurs in the text. *)
Fixpoint no_upper (s : string) : bool :=
  match s with
  | EmptyString => true
  | String c rest => negb (Database.is_upper c) && no_upper rest
  end.

End Persisted.

(* ===================================================================== *)
(** * Facts about the runtime pieces                                      *)
(* ===================================================================== *)

Module JsFacts.
Import Js.

(** The implementation agrees with the published test vectors. *)
Example sha256_abc :
  Sha256.sha256_hex "abc"
  = "ba7816bf8f01cfea414140de5dae2223b00361a396177a9cb410ff61f20015ad".
Proof. vm_compute. reflexivity. Qed.

Example sha256_empty :
  Sha256.sha256_hex EmptyString
  = "e3b0c44298fc1c149afbf4c8996fb92427ae41e4649b934ca495991b7852b855".
Proof. vm_compute. reflexivity. Qed.

Example sha256_first_constants :
  take 2 Sha256.K = [0x428a2f98; 0x71374491]
  /\ take 2 Sha256.H0 = [0x6a09e667; 0xbb67ae85]
  /\ length Sha256.K = 64%nat.
Proof. vm_compute. repeat split. Qed.

Example sha256_two_blocks :
  Sha256.sha256_hex "abcdbcdecdefdefgefghfghighijhijkijkljklmklmnlmnomnopnopq"
  = "248d6a61d20638b8e5c026930c3e6039a33ce45964ff2167f6ecedd419db06c1".
Proof. vm_compute. reflexivity. Qed.

Example base64_foob : base64 [x66; x6f; x6f; x62] = "Zm9vYg==".
Proof. vm_compute. reflexivity. Qed.

Lemma append_cons (c : ascii) (a b : string) :
  String c a +:+ b = String c (a +:+ b).
Proof. reflexivity. Qed.

Lemma append_nil (b : string) : EmptyString +:+ b = b.
Proof. reflexivity. Qed.

Lemma append_nonempty (a : string) (c : ascii) (k : string) :
  exists x y, a +:+ String c k = String x y.
Proof. destruct a as [|x a]; [rewrite append_nil | rewrite append_cons]; eauto. Qed.

Lemma append_assoc (a b c : string) : (a +:+ b) +:+ c = a +:+ (b +:+ c).
Proof.
  induction a as [|x a IH]; [reflexivity |].
  rewrite !append_cons. f_equal. exact IH.
Qed.

Lemma length_append (a b : string) :
  String.length (a +:+ b) = (String.length a + String.length b)%nat.
Proof.
  induction a as [|x a IH]; [reflexivity |].
  rewrite append_cons. simpl. now rewrite IH.
Qed.

Lemma chars_append (a b : string) :
  list_ascii_of_string (a +:+ b)
  = (list_ascii_of_string a ++ list_ascii_of_string b)%list.
Proof.
  induction a as [|x a IH]; [reflexivity |].
  rewrite append_cons. simpl. now rewrite IH.
Qed.

Lemma chars_inj (a b : string) :
  list_ascii_of_string a = list_ascii_of_string b -> a = b.
Proof.
  intros E. rewrite <- (string_of_list_ascii_of_string a).
  rewrite <- (string_of_list_ascii_of_string b). now rewrite E.
Qed.

Lemma chars_length (a : string) :
  length (list_ascii_of_string a) = String.length a.
Proof. induction a as [|x a IH]; simpl; [reflexivity | now rewrite IH]. Qed.

(** Two texts that end in suffixes of the same length are equal only if
    the suffixes are. *)
Lemma append_suffix_inj (a b s t : string) :
  String.length s = String.length t -> a +:+ s = b +:+ t -> s = t.
Proof.
  intros Hlen E. apply chars_inj.
  apply (f_equal list_ascii_of_string) in E. rewrite !chars_append in E.
  apply app_inj_2 in E; [tauto |].
  rewrite !chars_length. exact Hlen.
Qed.

Lemma truthy_str_spec (s : string) : truthy_str s = true <-> s <> EmptyString.
Proof. destruct s; simpl; split; congruence. Qed.

Lemma or_str_truthy (o : option string) (d : string) :
  d <> EmptyString -> or_str o d <> EmptyString.
Proof.
  intros Hd. destruct o as [s|]; simpl; [|exact Hd].
  destruct s; simpl; [exact Hd | discriminate].
Qed.

Lemma or_num_nonzero (o : option Z) (d : Z) : d <> 0 -> or_num o d <> 0.
Proof.
  intros Hd. destruct o as [n|]; simpl; [|exact Hd].
  destruct (Z.eqb_spec n 0); [exact Hd | assumption].
Qed.

(** ** [JSON.parse] undoes [JSON.stringify] *)

Lemma json_read_string_escape (s k : string) :
  json_read_string (json_escape s +:+ String dquote k) = Some (s, k).
Proof.
  induction s as [|c s IH].
  - reflexivity.
  - cbn [json_escape].
    destruct (Ascii.eqb c dquote) eqn:E1; cbn [orb].
    + rewrite !append_cons. cbn [json_read_string].
      change (Ascii.eqb backslash dquote) with false.
      change (Ascii.eqb backslash backslash) with true.
      cbv iota. rewrite IH. reflexivity.
    + destruct (Ascii.eqb c backslash) eqn:E2.
      * rewrite !append_cons. cbn [json_read_string].
        change (Ascii.eqb backslash dquote) with false.
        change (Ascii.eqb backslash backslash) with true.
        cbv iota. rewrite IH. reflexivity.
      * rewrite append_cons. cbn [json_read_string].
        rewrite E1, E2, IH. reflexivity.
Qed.

Lemma json_quote_append (s k : string) :
  json_quote s +:+ k = String dquote (json_escape s +:+ String dquote k).
Proof.
  unfold json_quote. rewrite append_cons, append_assoc. reflexivity.
Qed.

Lemma json_elems_cons2 (s s' : string) (l : list string) :
  json_elems (s :: s' :: l) = json_quote s +:+ "," +:+ json_elems (s' :: l).
Proof. reflexivity. Qed.

Lemma json_read_elems_elems (l : list string) :
  forall (s : string) (fuel : nat),
    (length l < fuel)%nat ->
    json_read_elems fuel (json_elems (s :: l) +:+ "]") = Some (s :: l).
Proof.
  induction l as [|s' l IH]; intros s fuel Hfuel.
  - destruct fuel as [|fuel]; [lia |].
    cbn [json_elems]. rewrite json_quote_append.
    cbn [json_read_elems]. rewrite Ascii.eqb_refl, json_read_string_escape.
    reflexivity.
  - destruct fuel as [|fuel]; [simpl in Hfuel; lia |].
    rewrite json_elems_cons2, !append_assoc, json_quote_append.
    cbn [json_read_elems]. rewrite Ascii.eqb_refl, json_read_string_escape.
    rewrite append_cons, append_nil.
    change (Ascii.eqb ","%char "]"%char) with false.
    change (Ascii.eqb ","%char ","%char) with true.
    cbv iota. rewrite IH by (simpl in Hfuel; lia).
    reflexivity.
Qed.

Lemma json_elems_length (l : list string) :
  (2 * length l <= String.length (json_elems l) + 1)%nat.
Proof.
  induction l as [|s l IH]; [simpl; lia |].
  destruct l as [|s' l].
  - cbn [json_elems]. unfold json_quote. simpl. lia.
  - rewrite json_elems_cons2. unfold json_quote.
    rewrite append_cons. cbn [String.length length] in *.
    rewrite !length_append. cbn [String.length]. lia.
Qed.

Theorem JSON_parse_stringify (l : list string) :
  JSON_parse (JSON_stringify l) = Some l.
Proof.
  destruct l as [|s l]; [reflexivity |].
  unfold JSON_stringify. rewrite append_cons, append_nil.
  cbn [JSON_parse].
  change (Ascii.eqb "["%char "["%char) with true. cbv iota.
  pose proof (json_elems_length (s :: l)) as Hlen.
  assert (Hfuel : (length l < String.length (json_elems (s :: l) +:+ "]"))%nat).
  { rewrite length_append. cbn [String.length length] in *. lia. }
  rewrite <- (json_read_elems_elems l s _ Hfuel).
  assert (Hshape : exists k, json_elems (s :: l) +:+ "]"
                             = String dquote (json_escape s +:+ String dquote k)).
  { destruct l as [|s' l].
    - cbn [json_elems]. rewrite json_quote_append. eauto.
    - rewrite json_elems_cons2, !append_assoc, json_quote_append. eauto. }
  destruct Hshape as [k ->].
  destruct (append_nonempty (json_escape s) dquote k) as (x & y & ->).
  reflexivity.
Qed.

Lemma JSON_stringify_truthy (l : list string) :
  truthy_str (JSON_stringify l) = true.
Proof. reflexivity. Qed.

End JsFacts.

(* ===================================================================== *)
(** * clipboardItem.js: hashing and the database round trip               *)
(* ===================================================================== *)

Module ClipboardItemFacts.
Import Js ClipboardItemType ClipboardItem.

(** ** The digest is never the empty string *)

Lemma round_length (st : list Z) (kw : Z * Z) :
  length st = 8%nat -> length (Sha256.round st kw) = 8%nat.
Proof.
  intros Hlen.
  destruct st as [|a [|b [|c [|d [|e [|f [|g [|h [|]]]]]]]]];
    simpl in Hlen; try discriminate Hlen; reflexivity.
Qed.

Lemma rounds_length (kws : list (Z * Z)) :
  forall st, length st = 8%nat -> length (foldl Sha256.round st kws) = 8%nat.
Proof.
  induction kws as [|kw kws IH]; intros st Hlen; [exact Hlen |].
  simpl. apply IH, round_length, Hlen.
Qed.

Lemma compress_length (h block : list Z) :
  length h = 8%nat -> length (Sha256.compress h block) = 8%nat.
Proof.
  intros Hlen. unfold Sha256.compress.
  rewrite length_zip_with, rounds_length by exact Hlen. lia.
Qed.

Lemma digest_length (msg : list Z) : length (Sha256.digest msg) = 8%nat.
Proof.
  unfold Sha256.digest.
  generalize (Sha256.blocks (length (Sha256.be_words (length (Sha256.pad msg)) (Sha256.pad msg)))
                (Sha256.be_words (length (Sha256.pad msg)) (Sha256.pad msg))).
  intros bs. assert (H0 : length Sha256.H0 = 8%nat) by (vm_compute; reflexivity).
  revert H0. generalize Sha256.H0.
  induction bs as [|b bs IH]; intros h Hh; [exact Hh |].
  simpl. apply IH, compress_length, Hh.
Qed.

Lemma sha256_hex_nonempty (s : string) : Sha256.sha256_hex s <> EmptyString.
Proof.
  unfold Sha256.sha256_hex.
  pose proof (digest_length (Sha256.bytes_of_string s)) as Hlen.
  destruct (Sha256.digest (Sha256.bytes_of_string s)) as [|x d];
    [simpl in Hlen; discriminate Hlen |].
  rewrite fmap_cons.
  destruct (Sha256.hex_word 8 <$> d); cbn [String.concat Sha256.hex_word];
    rewrite ?JsFacts.append_cons; discriminate.
Qed.

(** ** What the constructor guarantees *)

Lemma new_id_nonempty (a : init) (uuid : string) (now : Z) :
  uuid <> EmptyString -> id (new a uuid now) <> EmptyString.
Proof. intros Hu. apply JsFacts.or_str_truthy, Hu. Qed.

Lemma new_timestamp_nonzero (a : init) (uuid : string) (now : Z) :
  now <> 0 -> timestamp (new a uuid now) <> 0.
Proof. intros Hn. apply JsFacts.or_num_nonzero, Hn. Qed.

Lemma new_contentHash_nonempty (a : init) (uuid : string) (now : Z) :
  contentHash (new a uuid now) <> EmptyString.
Proof. apply JsFacts.or_str_truthy, sha256_hex_nonempty. Qed.

Lemma or_str_keeps (s d : string) : s <> EmptyString -> or_str (Some s) d = s.
Proof. intros Hs. destruct s; [congruence | reflexivity]. Qed.

Lemma or_num_keeps (n d : Z) : n <> 0 -> or_num (Some n) d = n.
Proof. intros Hn. simpl. destruct (Z.eqb_spec n 0); [contradiction | reflexivity]. Qed.

(** ** [_generateContentHash] on a populated object *)

Lemma hash_of_text (this : t) :
  type this = TEXT \/ type this = RICH_TEXT ->
  _generateContentHash this = Sha256.sha256_hex (or_str (plainText this) EmptyString).
Proof. intros [E|E]; unfold _generateContentHash; rewrite E; reflexivity. Qed.

Lemma hash_of_image (this : t) :
  type this = IMAGE ->
  _generateContentHash this
  = Sha256.sha256_hex
      (match imageData this with
       | Some b => String.substring 0 1000 (base64 b)
       | None => EmptyString
       end).
Proof. intros E; unfold _generateContentHash; rewrite E; reflexivity. Qed.

Lemma hash_of_files (this : t) :
  type this = FILE \/ type this = MULTI_FILE ->
  _generateContentHash this
  = Sha256.sha256_hex
      (match filePaths this with
       | Some l => JSON_stringify l
       | None => EmptyString
       end).
Proof. intros [E|E]; unfold _generateContentHash; rewrite E; reflexivity. Qed.

Lemma hash_of_color (this : t) :
  type this = COLOR ->
  _generateContentHash this = Sha256.sha256_hex (or_str (colorValue this) EmptyString).
Proof. intros E; unfold _generateContentHash; rewrite E; reflexivity. Qed.

(** An object without payload hashes to the digest of the empty text,
    whatever its type. *)
Lemma hash_of_nothing (this : t) :
  plainText this = None -> imageData this = None ->
  filePaths this = None -> colorValue this = None ->
  _generateContentHash this = Sha256.sha256_hex EmptyString.
Proof.
  intros E1 E2 E3 E4. unfold _generateContentHash.
  rewrite E1, E2, E3, E4.
  repeat match goal with |- context [if ?b then _ else _] => destruct b end;
    reflexivity.
Qed.

(** The static hasher tells the two texts of the specification apart. *)
Example generateHash_abc_abcd :
  generateHash (JStr "abc") TEXT <> generateHash (JStr "abcd") TEXT.
Proof. vm_compute. discriminate. Qed.

Lemma fromText_contentHash (text : string) (rich : option string)
    (uuid : string) (now : Z) :
  contentHash (fromText text rich uuid now) = Sha256.sha256_hex text.
Proof.
  unfold fromText, new, generateHash. cbn [contentHash String_].
  apply or_str_keeps, sha256_hex_nonempty.
Qed.

(** Test 6 of test-clipboard-item.js: same text, same hash. *)
Example fromText_same_content (u1 u2 : string) (n1 n2 : Z) :
  contentHash (fromText "Same content" None u1 n1)
  = contentHash (fromText "Same content" None u2 n2).
Proof. now rewrite !fromText_contentHash. Qed.

(** C8 (content hash).  When the constructor is not handed a
    [contentHash], the hash it computes is the SHA-256 digest of the
    empty text for every type and every payload: line 53 calls
    [_generateContentHash] before the payload fields are assigned.  Two
    items with different texts therefore get the same digest. *)
Theorem constructor_hash_ignores_payload (a : init) (uuid : string) (now : Z) :
  truthy_ostr (i_contentHash a) = false ->
  contentHash (new a uuid now) = Sha256.sha256_hex EmptyString.
Proof.
  intros Hnone. unfold new. cbn [contentHash].
  assert (E : forall d, or_str (i_contentHash a) d = d).
  { intros d. destruct (i_contentHash a) as [s|]; [|reflexivity].
    simpl in Hnone |- *. now rewrite Hnone. }
  rewrite E. apply hash_of_nothing; reflexivity.
Qed.

Lemma constructor_hash_ignores_payload_witness :
  contentHash (new (Store.text_init "abc") "id-1" 1)
  = contentHash (new (Store.text_init "abcd") "id-2" 2).
Proof.
  rewrite (constructor_hash_ignores_payload (Store.text_init "abc") "id-1" 1 eq_refl).
  rewrite (constructor_hash_ignores_payload (Store.text_init "abcd") "id-2" 2 eq_refl).
  reflexivity.
Defined.

Ltac init_fields :=
  cbn [i_id i_type i_timestamp i_isPinned i_isDeleted i_contentHash
       i_plainText i_richText i_imageData i_imageThumbnail i_imagePath
       i_thumbnailPath i_filePaths i_colorValue i_sourceApplication
       i_fileSize i_fileCount i_fileTypes i_isAllImages i_thumbnails].

(** C9 (round trip).  For every item the constructor builds, of any
    type, [fromDatabase(item.toDatabase())] returns an item equal to it
    in every field.  The two hypotheses say that [crypto.randomUUID()]
    gave a non-empty string and [Date.now()] a non-zero time when the
    item was built. *)
Theorem fromDatabase_toDatabase (a : init) (uuid : string) (now : Z)
    (uuid' : string) (now' : Z) :
  uuid <> EmptyString -> now <> 0 ->
  fromDatabase (toDatabase (new a uuid now)) uuid' now'
  = Returned (new a uuid now).
Proof.
  intros Hu Hn.
  pose proof (new_id_nonempty a uuid now Hu) as Hid.
  pose proof (new_timestamp_nonzero a uuid now Hn) as Hts.
  pose proof (new_contentHash_nonempty a uuid now) as Hh.
  set (item := new a uuid now) in *.
  assert (Hflag : ((if isAllImages item then 1 else 0) =? 1) = isAllImages item)
    by (destruct (isAllImages item); reflexivity).
  assert (Hbuild : forall ft, ft = fileTypes item ->
    new {| i_id := Some (id item); i_type := type item;
           i_timestamp := Some (timestamp item);
           i_isPinned := isPinned item; i_isDeleted := isDeleted item;
           i_contentHash := Some (contentHash item);
           i_plainText := plainText item; i_richText := richText item;
           i_imageData := imageData item;
           i_imageThumbnail := imageThumbnail item;
           i_imagePath := imagePath item;
           i_thumbnailPath := thumbnailPath item;
           i_filePaths := filePaths item; i_colorValue := colorValue item;
           i_sourceApplication := sourceApplication item;
           i_fileSize := fileSize item; i_fileCount := fileCount item;
           i_fileTypes := ft;
           i_isAllImages := (if isAllImages item then 1 else 0) =? 1;
           i_thumbnails := thumbnails item |} uuid' now' = item).
  { intros ft ->. unfold new at 1. init_fields.
    rewrite (or_str_keeps _ _ Hid), (or_num_keeps _ _ Hts),
      (or_str_keeps _ _ Hh), Hflag.
    destruct item; reflexivity. }
  unfold fromDatabase, toDatabase.
  cbn [DbItem.id DbItem.type DbItem.timestamp DbItem.isPinned DbItem.isDeleted
       DbItem.contentHash DbItem.plainText DbItem.richText DbItem.imageData
       DbItem.thumbnailData DbItem.imagePath DbItem.thumbnailPath
       DbItem.filePaths DbItem.colorValue DbItem.sourceApplication
       DbItem.fileSize DbItem.fileCount DbItem.fileTypes DbItem.isAllImages
       DbItem.thumbnails].
  destruct (fileTypes item) as [l|] eqn:Eft.
  - cbv beta iota.
    change (truthy_ostr (Some (JSON_stringify l))) with true.
    change (default EmptyString (Some (JSON_stringify l))) with (JSON_stringify l).
    rewrite JsFacts.JSON_parse_stringify. cbv iota.
    f_equal. apply Hbuild. reflexivity.
  - cbv beta iota. cbn [truthy_ostr]. f_equal. apply Hbuild. reflexivity.
Qed.

Lemma fromDatabase_toDatabase_witness :
  fromDatabase
    (toDatabase
       (new (mk_init None MULTI_FILE None true false None None None None None
               None None (Some ["/a.png"; "/b.txt"]) None (Some "Finder")
               None (Some 2) (Some ["image"; "file"]) false None)
            "0b5c" 1700000000000))
    "unused" 1
  = Returned
      (new (mk_init None MULTI_FILE None true false None None None None None
              None None (Some ["/a.png"; "/b.txt"]) None (Some "Finder")
              None (Some 2) (Some ["image"; "file"]) false None)
           "0b5c" 1700000000000).
Proof.
  apply fromDatabase_toDatabase; [discriminate | lia].
Defined.

End ClipboardItemFacts.

(* ===================================================================== *)
(** * database.js: the statements                                         *)
(* ===================================================================== *)

Module DatabaseFacts.
Import Js Database Store.

(** ** Lists *)

Lemma filter_sublist {A} (f : A -> bool) (l : list A) :
  List.filter f l `sublist_of` l.
Proof.
  induction l as [|x l IH]; simpl; [constructor |].
  destruct (f x); now constructor.
Qed.

Lemma sublist_filter_mono {A} (f : A -> bool) (l k : list A) :
  l `sublist_of` k -> List.filter f l `sublist_of` List.filter f k.
Proof.
  induction 1 as [|x l k _ IH|x l k _ IH]; simpl.
  - constructor.
  - destruct (f x); [now constructor | exact IH].
  - destruct (f x); [now constructor | exact IH].
Qed.

Lemma sublist_Forall {A} (P : A -> Prop) (l k : list A) :
  l `sublist_of` k -> Forall P k -> Forall P l.
Proof.
  intros Hsub HP. rewrite Forall_forall in *.
  intros x Hx. apply HP. eapply elem_of_sublist; eassumption.
Qed.

Lemma elem_of_filter {A} (f : A -> bool) (l : list A) (x : A) :
  x ∈ List.filter f l <-> x ∈ l /\ f x = true.
Proof. rewrite !list_elem_of_In. apply List.filter_In. Qed.

Lemma filter_all {A} (f : A -> bool) (l : list A) :
  Forall (fun x => f x = true) l -> List.filter f l = l.
Proof.
  induction 1 as [|x l Hx _ IH]; simpl; [reflexivity |].
  now rewrite Hx, IH.
Qed.

Lemma filter_none {A} (f : A -> bool) (l : list A) :
  Forall (fun x => f x = false) l -> List.filter f l = [].
Proof.
  induction 1 as [|x l Hx _ IH]; simpl; [reflexivity |].
  now rewrite Hx, IH.
Qed.

Lemma filter_fmap_le {A} (P : A -> bool) (f : A -> A) (l : list A) :
  (forall x, P (f x) = true -> P x = true) ->
  (length (List.filter P (f <$> l)) <= length (List.filter P l))%nat.
Proof.
  intros HP. induction l as [|x l IH]; [reflexivity |].
  rewrite fmap_cons. cbn [List.filter].
  destruct (P (f x)) eqn:E.
  - rewrite (HP x E). cbn [length]. lia.
  - destruct (P x); cbn [length]; lia.
Qed.

Lemma find_none_filter {A} (f : A -> bool) (l : list A) :
  List.find f l = None <-> List.filter f l = [].
Proof.
  induction l as [|x l IH]; simpl; [tauto |].
  destruct (f x); [split; discriminate | exact IH].
Qed.

Lemma find_some_elem {A} (f : A -> bool) (l : list A) (x : A) :
  List.find f l = Some x -> x ∈ l /\ f x = true.
Proof. intros H. apply List.find_some in H. now rewrite list_elem_of_In. Qed.

Lemma NoDup_fmap_eq {A B} (f : A -> B) (l : list A) (x y : A) :
  NoDup (f <$> l) -> x ∈ l -> y ∈ l -> f x = f y -> x = y.
Proof.
  intros Hnd Hx Hy E.
  apply list_elem_of_lookup in Hx as [i Hi].
  apply list_elem_of_lookup in Hy as [j Hj].
  assert (i = j) as ->.
  { eapply NoDup_lookup; [exact Hnd | |].
    - rewrite list_lookup_fmap, Hi. reflexivity.
    - rewrite list_lookup_fmap, Hj. simpl. now rewrite E. }
  congruence.
Qed.

(** ** Columns and keys *)

Lemma has_id_spec (id : string) (r : Row) :
  has_id id r = true <-> col "id" r = SText id.
Proof.
  unfold has_id, text_is. destruct (col "id" r) as [| |s|]; try (split; discriminate).
  rewrite String.eqb_eq. split; congruence.
Qed.

Lemma wf_row_id (r : Row) : wf_row r = true -> col "id" r = SText (row_id r).
Proof.
  unfold wf_row, row_id. destruct (col "id" r); try discriminate. reflexivity.
Qed.

Lemma wf_row_readable (r : Row) : wf_row r = true -> readable r = true.
Proof. unfold wf_row. destruct (col "id" r); try discriminate. tauto. Qed.

Lemma has_id_row_id (id : string) (r : Row) :
  wf_row r = true -> has_id id r = true <-> row_id r = id.
Proof.
  intros Hwf. rewrite has_id_spec, (wf_row_id r Hwf). split; congruence.
Qed.

Lemma listed_spec (ids : list string) (r : Row) :
  wf_row r = true -> listed ids r = true <-> row_id r ∈ ids.
Proof.
  intros Hwf. unfold listed. rewrite List.existsb_exists. split.
  - intros (id & Hin & Hid). apply has_id_row_id in Hid; [|exact Hwf].
    subst. now apply list_elem_of_In.
  - intros Hin. exists (row_id r). split; [now apply list_elem_of_In |].
    now apply has_id_row_id.
Qed.

(** ** [update] *)

Lemma assignments_allowed (updates : list (string * value)) :
  Forall (fun cv => allowed cv.1 = true) (assignments updates).
Proof.
  induction updates as [|[key v] updates IH]; simpl; [constructor |].
  destruct (allowed (camelToSnake key)) eqn:E; [constructor |]; assumption.
Qed.

Lemma assign_other (sets : list (string * SqlValue)) (c : string) :
  forall r : Row, c ∉ sets.*1 -> assign sets r !! c = r !! c.
Proof.
  unfold assign. induction sets as [|[c' v] sets IH]; intros r Hc; [reflexivity |].
  simpl in *. rewrite not_elem_of_cons in Hc. destruct Hc as [Hne Hc].
  rewrite IH by exact Hc. apply lookup_insert_ne. congruence.
Qed.

Lemma allowed_spec (c : string) : allowed c = true <-> c ∈ allowedFields.
Proof.
  unfold allowed. rewrite List.existsb_exists, list_elem_of_In. split.
  - intros (x & Hin & E). apply String.eqb_eq in E. now subst.
  - intros Hin. exists c. split; [exact Hin | apply String.eqb_refl].
Qed.

(** A column outside the whitelist is never written. *)
Lemma assign_keeps (updates : list (string * value)) (c : string) (r : Row) :
  allowed c = false -> col c (assign (assignments updates) r) = col c r.
Proof.
  intros Hc. unfold col. rewrite assign_other; [reflexivity |].
  intros Hin. apply list_elem_of_fmap in Hin as ([c' v] & -> & Hin).
  pose proof (assignments_allowed updates) as Hall.
  rewrite Forall_forall in Hall. specialize (Hall _ Hin). simpl in *. congruence.
Qed.

Lemma update_rows (id : string) (updates : list (string * value)) (db : table) :
  (update id updates db).2
  = (fun r => if has_id id r then assign (assignments updates) r else r) <$> db.
Proof.
  unfold update. destruct (assignments updates) eqn:E; [|reflexivity].
  cbn [snd assign foldl]. induction db as [|r db IH]; [reflexivity |].
  rewrite fmap_cons, <- IH. now destruct (has_id id r).
Qed.

Lemma update_keeps (id : string) (updates : list (string * value))
    (db : table) (c : string) :
  allowed c = false ->
  col c <$> (update id updates db).2 = col c <$> db.
Proof.
  intros Hc. rewrite update_rows, <- list_fmap_compose.
  apply list_fmap_ext. intros _ r _. simpl.
  destruct (has_id id r); [now apply assign_keeps | reflexivity].
Qed.

(** When no key of [updates] is on the whitelist, [update] returns
    false and leaves the table as it is. *)
Lemma update_nothing_allowed (id : string) (updates : list (string * value))
    (db : table) :
  Forall (fun kv => allowed (camelToSnake kv.1) = false) updates ->
  update id updates db = (false, db).
Proof.
  intros Hall. unfold update.
  assert (E : assignments updates = []).
  { induction Hall as [|[key v] updates Hkv _ IH]; [reflexivity |].
    simpl in *. now rewrite Hkv. }
  now rewrite E.
Qed.

(** Keys off the whitelist do not change what [update] does. *)
Lemma assignments_drop (updates : list (string * value)) :
  assignments updates
  = assignments (List.filter (fun kv => allowed (camelToSnake kv.1)) updates).
Proof.
  induction updates as [|[key v] updates IH]; [reflexivity |].
  cbn [assignments List.filter fst].
  destruct (allowed (camelToSnake key)) eqn:E; [|exact IH].
  cbn [assignments]. rewrite E. now f_equal.
Qed.

Lemma update_returns (id : string) (updates : list (string * value)) (db : table) :
  (update id updates db).1
  = negb (bool_decide (assignments updates = [])) && existsb (has_id id) db.
Proof. unfold update. destruct (assignments updates); reflexivity. Qed.

(** ** [delete] *)

Lemma delete_sublist (ids : list string) (db : table) :
  (delete ids db).2 `sublist_of` db.
Proof. apply filter_sublist. Qed.

Lemma delete_elem (ids : list string) (db : table) (r : Row) :
  Forall (fun r => wf_row r = true) db ->
  r ∈ (delete ids db).2 <-> r ∈ db /\ row_id r ∉ ids.
Proof.
  intros Hwf. unfold delete. cbn [snd]. rewrite elem_of_filter.
  rewrite Forall_forall in Hwf.
  split; intros [Hin H]; split; try exact Hin.
  - intros Hid. apply (proj2 (listed_spec ids r (Hwf r Hin))) in Hid.
    now rewrite Hid in H.
  - destruct (listed ids r) eqn:E; [|reflexivity].
    apply (proj1 (listed_spec ids r (Hwf r Hin))) in E. contradiction.
Qed.

(** After [delete(ids)] no row carries one of the ids. *)
Lemma delete_removes (ids : list string) (db : table) (id : string) :
  id ∈ ids -> existsb (has_id id) (delete ids db).2 = false.
Proof.
  intros Hin. apply Bool.not_true_is_false. intros H.
  apply List.existsb_exists in H as (r & Hr & Hid).
  apply list_elem_of_In, elem_of_filter in Hr as [_ Hr].
  apply Bool.negb_true_iff in Hr. unfold listed in Hr.
  assert (existsb (fun id => has_id id r) ids = true); [|congruence].
  apply List.existsb_exists. exists id. split; [now apply list_elem_of_In | exact Hid].
Qed.

(** ** Well-formedness is kept *)

Lemma wf_sublist (l db : table) : l `sublist_of` db -> wf db -> wf l.
Proof.
  intros Hsub [Hrows Hkey]. split.
  - eapply sublist_Forall; eassumption.
  - eapply sublist_NoDup; [exact Hkey | apply fmap_sublist; exact Hsub].
Qed.

Lemma ids_nonempty_sublist (l db : table) :
  l `sublist_of` db -> ids_nonempty db -> ids_nonempty l.
Proof. apply sublist_Forall. Qed.

Lemma unique_live_hash_sublist (l db : table) :
  l `sublist_of` db -> unique_live_hash db -> unique_live_hash l.
Proof.
  intros Hsub Hu h. specialize (Hu h).
  pose proof (sublist_length _ _ (sublist_filter_mono (hash_match h) _ _ Hsub)). lia.
Qed.

End DatabaseFacts.

(* ===================================================================== *)
(** * historyManager.js: deduplication and the store invariant            *)
(* ===================================================================== *)

Module HistoryFacts.
Import Js Database Store History DatabaseFacts.

Lemma with_db_same (h : History.t) : with_db h (db h) = h.
Proof. now destruct h. Qed.

(** ** The row written by [insert] *)

Lemma row_of_item_id (item : DbItem.t) :
  col "id" (row_of_item item) = SText (DbItem.id item).
Proof. reflexivity. Qed.

Lemma row_of_item_hash (item : DbItem.t) :
  col "content_hash" (row_of_item item) = SText (DbItem.contentHash item).
Proof. reflexivity. Qed.

Lemma row_of_item_deleted (item : DbItem.t) :
  col "is_deleted" (row_of_item item) = of_bool (DbItem.isDeleted item).
Proof. reflexivity. Qed.

Lemma row_of_item_timestamp (item : DbItem.t) :
  row_timestamp (row_of_item item) = DbItem.timestamp item.
Proof. reflexivity. Qed.

Lemma row_of_item_file_paths (item : DbItem.t) :
  col "file_paths" (row_of_item item)
  = match DbItem.filePaths item with
    | Some l => SText (JSON_stringify l)
    | None => SNull
    end.
Proof. reflexivity. Qed.

Lemma readable_spec (r : Row) :
  readable r
  = match col "file_paths" r with
    | SText s =>
        if truthy_str s
        then match JSON_parse s with Some _ => true | None => false end
        else true
    | _ => true
    end.
Proof.
  unfold readable, rowToItem.
  destruct (col "file_paths" r) as [| |s|]; try reflexivity.
  destruct (truthy_str s); [|reflexivity].
  now destruct (JSON_parse s).
Qed.

Lemma row_of_item_wf (item : DbItem.t) : wf_row (row_of_item item) = true.
Proof.
  unfold wf_row. rewrite row_of_item_id, readable_spec, row_of_item_file_paths.
  destruct (DbItem.filePaths item) as [l|]; [|reflexivity].
  rewrite JsFacts.JSON_stringify_truthy, JsFacts.JSON_parse_stringify. reflexivity.
Qed.


(** ** The flag updates of the coordinator *)

Lemma col_insert_ne (c c' : string) (v : SqlValue) (r : Row) :
  c <> c' -> col c' (<[c := v]> r) = col c' r.
Proof. intros Hne. unfold col. now rewrite lookup_insert_ne. Qed.

Lemma col_insert_eq (c : string) (v : SqlValue) (r : Row) :
  col c (<[c := v]> r) = v.
Proof. unfold col. now rewrite lookup_insert_eq. Qed.

Lemma update_isPinned (id : string) (flag : bool) (db : table) :
  update id [("isPinned", JBool flag)] db
  = (existsb (has_id id) db, flag_rows "is_pinned" flag id db).
Proof. reflexivity. Qed.

Lemma update_isDeleted (id : string) (flag : bool) (db : table) :
  update id [("isDeleted", JBool flag)] db
  = (existsb (has_id id) db, flag_rows "is_deleted" flag id db).
Proof. reflexivity. Qed.

Lemma flag_rows_wf (c : string) (flag : bool) (id : string) (db : table) :
  c <> "id" -> c <> "file_paths" -> wf db -> wf (flag_rows c flag id db).
Proof.
  intros Hid Hfp [Hrows Hkey]. unfold flag_rows. split.
  - rewrite Forall_fmap. eapply Forall_impl; [exact Hrows |].
    intros r Hr. simpl. destruct (has_id id r); [|exact Hr].
    unfold wf_row in *. rewrite readable_spec in *.
    rewrite !col_insert_ne by assumption. exact Hr.
  - rewrite <- list_fmap_compose.
    erewrite list_fmap_ext; [exact Hkey |].
    intros _ r _. simpl. destruct (has_id id r); [|reflexivity].
    unfold row_id. now rewrite col_insert_ne.
Qed.

Lemma flag_rows_ids (c : string) (flag : bool) (id : string) (db : table) :
  c <> "id" -> ids_nonempty db -> ids_nonempty (flag_rows c flag id db).
Proof.
  intros Hid Hne. unfold flag_rows, ids_nonempty.
  rewrite Forall_fmap. eapply Forall_impl; [exact Hne |].
  intros r Hr. simpl. destruct (has_id id r); [|exact Hr].
  unfold row_id. now rewrite col_insert_ne.
Qed.

(** Pinning and unpinning leave every row as live, and with the hash,
    it had. *)
Lemma pin_rows_unique (flag : bool) (id : string) (db : table) :
  unique_live_hash db -> unique_live_hash (flag_rows "is_pinned" flag id db).
Proof.
  intros Hu h. specialize (Hu h). unfold flag_rows.
  etransitivity; [apply filter_fmap_le | exact Hu].
  intros r. destruct (has_id id r); [|tauto].
  unfold hash_match. now rewrite !col_insert_ne.
Qed.

(** A row moved to the trash is not live. *)
Lemma trash_rows_unique (id : string) (db : table) :
  unique_live_hash db -> unique_live_hash (flag_rows "is_deleted" true id db).
Proof.
  intros Hu h. specialize (Hu h). unfold flag_rows.
  etransitivity; [apply filter_fmap_le | exact Hu].
  intros r. destruct (has_id id r); [|tauto].
  unfold hash_match. rewrite col_insert_eq. simpl.
  rewrite Bool.andb_false_r. discriminate.
Qed.

Lemma Inv_sublist (h : History.t) (d : table) :
  d `sublist_of` db h -> Inv h -> Inv (with_db h d).
Proof.
  intros Hsub (Hwf & Hids & Hu). repeat split; cbn [db with_db].
  - apply (wf_sublist _ _ Hsub Hwf).
  - apply (wf_sublist _ _ Hsub Hwf).
  - apply (ids_nonempty_sublist _ _ Hsub Hids).
  - apply (unique_live_hash_sublist _ _ Hsub Hu).
Qed.

Lemma Inv_db (h h' : History.t) : db h' = db h -> Inv h -> Inv h'.
Proof. unfold Inv. now intros ->. Qed.

Lemma Inv_new : Inv (History.new []).
Proof.
  split; [split; constructor | split; [constructor | intros hash; cbn; lia]].
Qed.

(** [existsByHash] answers with a usable id exactly when a live row
    with the hash exists. *)
Lemma existsByHash_falsy (hash : string) (d : table) :
  Forall (fun r => wf_row r = true) d -> ids_nonempty d ->
  truthy_ostr (existsByHash hash d) = false ->
  List.filter (hash_match hash) d = [].
Proof.
  intros Hwf Hids Hf. apply find_none_filter. unfold existsByHash in Hf.
  destruct (List.find (hash_match hash) d) as [row|] eqn:E; [|reflexivity].
  apply find_some_elem in E as [Hin _].
  unfold ids_nonempty in Hids. rewrite Forall_forall in Hwf, Hids.
  rewrite (wf_row_id row (Hwf row Hin)) in Hf. simpl in Hf.
  apply Bool.not_true_iff_false in Hf. exfalso. apply Hf.
  apply JsFacts.truthy_str_spec, Hids, Hin.
Qed.

(** A hash that only trashed rows carry does not block a recapture. *)
Lemma existsByHash_ignores_trash (hash : string) (d : table) :
  Forall (fun r => text_is hash (col "content_hash" r) = true -> live r = false) d ->
  existsByHash hash d = None.
Proof.
  intros Hall. unfold existsByHash.
  destruct (List.find (hash_match hash) d) as [row|] eqn:E; [|reflexivity].
  apply find_some_elem in E as [Hin Hm]. rewrite Forall_forall in Hall.
  unfold hash_match in Hm. apply andb_prop in Hm as [Hh Hl].
  specialize (Hall row Hin Hh). unfold live in Hall. congruence.
Qed.

(** ** Each operation and the invariant *)

Lemma enforce_count_sublist (h h' : History.t) :
  enforce_count h = Returned h' -> db h' `sublist_of` db h.
Proof.
  unfold enforce_count. destruct (_ <? _); [|intros [= <-]; reflexivity].
  destruct (query _ _) as [items|]; [|discriminate].
  destruct (ids_of items); intros [= <-];
    [reflexivity | cbn [db with_db]; apply filter_sublist].
Qed.

Lemma enforce_retention_sublist (now : Z) (h h' : History.t) :
  enforce_retention now h = Returned h' -> db h' `sublist_of` db h.
Proof.
  unfold enforce_retention. destruct (_ <? _); [|intros [= <-]; reflexivity].
  destruct (query _ _) as [items|]; [|discriminate].
  destruct (ids_of _); intros [= <-];
    [reflexivity | cbn [db with_db]; apply filter_sublist].
Qed.

Lemma enforceStorageLimits_sublist (now : Z) (h : History.t) :
  db (enforceStorageLimits now h) `sublist_of` db h.
Proof.
  unfold enforceStorageLimits.
  destruct (enforce_count h) as [h1|] eqn:E1; [|reflexivity].
  apply enforce_count_sublist in E1.
  destruct (enforce_retention now h1) as [h2|] eqn:E2; [|exact E1].
  apply enforce_retention_sublist in E2. etransitivity; eassumption.
Qed.

Lemma enforce_count_settings (h h' : History.t) :
  enforce_count h = Returned h' ->
  maxItems h' = maxItems h /\ retentionDays h' = retentionDays h.
Proof.
  unfold enforce_count. destruct (_ <? _); [|intros [= <-]; tauto].
  destruct (query _ _) as [items|]; [|discriminate].
  destruct (ids_of items); intros [= <-]; tauto.
Qed.

Lemma enforce_retention_settings (now : Z) (h h' : History.t) :
  enforce_retention now h = Returned h' ->
  maxItems h' = maxItems h /\ retentionDays h' = retentionDays h.
Proof.
  unfold enforce_retention. destruct (_ <? _); [|intros [= <-]; tauto].
  destruct (query _ _) as [items|]; [|discriminate].
  destruct (ids_of _); intros [= <-]; tauto.
Qed.

Lemma enforceStorageLimits_with_db (now : Z) (h : History.t) :
  enforceStorageLimits now h = with_db h (db (enforceStorageLimits now h)).
Proof.
  unfold enforceStorageLimits.
  destruct (enforce_count h) as [h1|] eqn:E1; [|now rewrite with_db_same].
  apply enforce_count_settings in E1 as [Em Er].
  destruct (enforce_retention now h1) as [h2|] eqn:E2.
  - apply enforce_retention_settings in E2 as [Em2 Er2].
    destruct h, h1, h2; cbn in *; subst; reflexivity.
  - destruct h, h1; cbn in *; subst; reflexivity.
Qed.

Lemma Inv_enforceStorageLimits (now : Z) (h : History.t) :
  Inv h -> Inv (enforceStorageLimits now h).
Proof.
  intros HI. rewrite enforceStorageLimits_with_db.
  apply Inv_sublist; [apply enforceStorageLimits_sublist | exact HI].
Qed.

Lemma Inv_delete_selected (o : options) (h : History.t) :
  Inv h -> Inv (delete_selected o h).2.
Proof.
  intros HI. unfold delete_selected.
  destruct (query o (db h)) as [items|]; [|exact HI].
  destruct (ids_of items); [exact HI |].
  cbn [snd]. apply Inv_sublist; [apply delete_sublist | exact HI].
Qed.

Lemma Inv_flag (c : string) (flag : bool) (id : string) (h : History.t) :
  c = "is_pinned" \/ (c = "is_deleted" /\ flag = true) ->
  Inv h -> Inv (with_db h (flag_rows c flag id (db h))).
Proof.
  intros Hc (Hwf & Hids & Hu). unfold Inv. cbn [db with_db].
  split; [|split].
  - apply flag_rows_wf; [destruct Hc as [->|[-> _]]; discriminate .. | exact Hwf].
  - apply flag_rows_ids; [destruct Hc as [->|[-> _]]; discriminate | exact Hids].
  - destruct Hc as [->|[-> ->]]; [now apply pin_rows_unique | now apply trash_rows_unique].
Qed.

Lemma Inv_moveToTrash (ids : list string) (h : History.t) :
  Inv h -> Inv (moveToTrash ids h).2.
Proof.
  unfold moveToTrash, set_deleted.
  generalize 0 as n. revert h.
  induction ids as [|id ids IH]; intros h n HI; [exact HI |].
  cbn [foldl]. cbn [fst snd]. rewrite update_isDeleted. cbn [fst snd].
  apply IH. apply Inv_flag; [now right | exact HI].
Qed.

Lemma Inv_addItem (item : ClipboardItem.t) (now : Z) (h : History.t) :
  ClipboardItem.id item <> EmptyString -> Inv h -> Inv (addItem item now h).2.
Proof.
  intros Hid HI. unfold addItem.
  destruct (truthy_ostr (existsByHash (ClipboardItem.contentHash item) (db h))) eqn:Ex.
  - cbn [snd]. rewrite update_nothing_allowed by (repeat constructor).
    cbn [snd]. now rewrite with_db_same.
  - unfold insert.
    destruct (existsb (has_id (DbItem.id (ClipboardItem.toDatabase item))) (db h)) eqn:Ek.
    + cbn [snd]. now rewrite with_db_same.
    + cbn [snd]. apply Inv_enforceStorageLimits.
      destruct HI as ((Hrows & Hkey) & Hids & Hu).
      set (row := row_of_item (ClipboardItem.toDatabase item)).
      assert (Hrid : row_id row = ClipboardItem.id item) by reflexivity.
      unfold Inv, wf, ids_nonempty. cbn [db with_db].
      repeat split.
      * apply Forall_app. split; [exact Hrows |].
        constructor; [apply row_of_item_wf | constructor].
      * rewrite fmap_app. apply NoDup_app. repeat split; [exact Hkey | | ].
        -- intros x Hx Hx'. apply list_elem_of_fmap in Hx as (r & -> & Hr).
           apply list_elem_of_fmap in Hx' as (r' & Hx' & Hr').
           apply list_elem_of_singleton in Hr' as ->.
           apply Bool.not_true_iff_false in Ek. apply Ek.
           apply List.existsb_exists. exists r. split; [now apply list_elem_of_In |].
           rewrite Forall_forall in Hrows.
           apply (has_id_row_id _ _ (Hrows r Hr)). rewrite Hx'. exact Hrid.
        -- apply NoDup_singleton.
      * apply Forall_app. split; [exact Hids |].
        constructor; [now rewrite Hrid | constructor].
      * intros hash. rewrite List.filter_app, length_app.
        destruct (String.eqb_spec hash (ClipboardItem.contentHash item)) as [->|Hne].
        -- rewrite (existsByHash_falsy _ _ Hrows Hids Ex). cbn [length].
           pose proof (List.filter_length_le (hash_match (ClipboardItem.contentHash item)) [row]).
           cbn [length] in *. lia.
        -- specialize (Hu hash).
           assert (E : List.filter (hash_match hash) [row] = []).
           { cbn [List.filter]. unfold hash_match, row. rewrite row_of_item_hash.
             cbn [text_is ClipboardItem.toDatabase DbItem.contentHash].
             apply String.eqb_neq in Hne. rewrite String.eqb_sym, Hne. reflexivity. }
           rewrite E. cbn [length]. lia.
Qed.

Lemma Inv_run (h : History.t) (o : op) :
  built o -> restores o = false -> Inv h -> Inv (run h o).
Proof.
  intros Hb Hr HI. destruct o; cbn [run]; try discriminate Hr.
  - now apply Inv_addItem.
  - unfold pinItem. rewrite update_isPinned. cbn [fst snd].
    apply Inv_flag; [now left | exact HI].
  - unfold unpinItem. rewrite update_isPinned. cbn [fst snd].
    apply Inv_flag; [now left | exact HI].
  - now apply Inv_moveToTrash.
  - unfold deleteItems. cbn [snd].
    apply Inv_sublist; [apply delete_sublist | exact HI].
  - now apply Inv_delete_selected.
  - now apply Inv_delete_selected.
  - now apply Inv_enforceStorageLimits.
  - unfold updatePreferences. apply Inv_enforceStorageLimits.
    eapply Inv_db; [|exact HI]. reflexivity.
Qed.


(** ** The claims on deduplication and on the whitelist *)

(** C1 (dedup touches the timestamp).  When [addItem] finds a live row
    with the item's hash it returns that row's id and inserts nothing,
    and the whole store, the found row's timestamp included, is what
    it was: the update it issues names only the column [timestamp],
    which is not on the whitelist of [DatabaseManager.update]. *)
Theorem addItem_duplicate_leaves_store (item : ClipboardItem.t) (now : Z)
    (h : History.t) (id : string) :
  existsByHash (ClipboardItem.contentHash item) (db h) = Some id ->
  id <> EmptyString ->
  update id [("timestamp", JNum (ClipboardItem.timestamp item))] (db h) = (false, db h)
  /\ addItem item now h = (Returned (Some id), h).
Proof.
  intros Hex Hid.
  assert (Hu : update id [("timestamp", JNum (ClipboardItem.timestamp item))] (db h)
               = (false, db h))
    by (apply update_nothing_allowed; repeat constructor).
  split; [exact Hu |].
  unfold addItem. rewrite Hex. cbn [truthy_ostr].
  apply JsFacts.truthy_str_spec in Hid. rewrite Hid.
  change (default EmptyString (Some id)) with id.
  rewrite Hu. cbn [snd]. now rewrite with_db_same.
Qed.

Lemma addItem_duplicate_leaves_store_witness :
  row_timestamp <$> db one_hello = [1000]
  /\ ClipboardItem.timestamp (hello "id-2" 2000) = 2000
  /\ addItem (hello "id-2" 2000) 2000 one_hello = (Returned (Some "id-1"), one_hello).
Proof.
  split; [vm_compute; reflexivity |].
  split; [reflexivity |].
  apply (addItem_duplicate_leaves_store (hello "id-2" 2000) 2000 one_hello "id-1").
  - vm_compute. reflexivity.
  - discriminate.
Defined.

(** The end-to-end scenario: Hello, World and Hello again are captured
    at times 1000, 2000 and 3000.  Two live rows remain, and the
    newest-first listing still starts with World: the second capture of
    Hello left the first one's timestamp at 1000. *)
Example hello_world_hello :
  let h := foldl run (History.new [])
             [ AddItem (hello "id-1" 1000) 1000;
               AddItem (world "id-2" 2000) 2000;
               AddItem (hello "id-3" 3000) 3000 ] in
  (fun r => (row_id r, row_timestamp r)) <$> select not_deleted (db h)
  = [("id-2", 2000); ("id-1", 1000)].
Proof. vm_compute. reflexivity. Qed.

(** C3 (whitelist of update).  [image_path] and [thumbnail_path] are
    not on the whitelist: an update that supplies only them, under
    either spelling, returns false and changes nothing; and the update
    the migration issues clears the two blob columns of the row while
    recording no path. *)
Theorem update_drops_image_paths (id : string) (imagePath thumbnailPath : value)
    (db : table) :
  update id [("imagePath", imagePath)] db = (false, db)
  /\ update id [("thumbnailPath", thumbnailPath)] db = (false, db)
  /\ update id [("image_path", imagePath); ("thumbnail_path", thumbnailPath)] db
     = (false, db)
  /\ (update id [("image_path", imagePath); ("thumbnail_path", thumbnailPath);
                 ("image_data", JNull); ("thumbnail_data", JNull)] db).2
     = (fun r => if has_id id r
                 then <["thumbnail_data" := SNull]> (<["image_data" := SNull]> r)
                 else r) <$> db.
Proof.
  split; [apply update_nothing_allowed; repeat constructor |].
  split; [apply update_nothing_allowed; repeat constructor |].
  split; [apply update_nothing_allowed; repeat constructor |].
  rewrite update_rows. reflexivity.
Qed.

(** What the whitelist does hold: a key on it is written, with booleans
    stored as 0/1. *)
Lemma update_writes_allowed (id key : string) (v : value) (db : table) :
  allowed (camelToSnake key) = true ->
  update id [(key, v)] db
  = (existsb (has_id id) db,
     (fun r => if has_id id r then <[camelToSnake key := bind v]> r else r) <$> db).
Proof. intros Ha. unfold update. cbn [assignments]. now rewrite Ha. Qed.

Example whitelist_keys :
  List.filter (fun k => allowed (camelToSnake k))
    [ "isPinned"; "isDeleted"; "plainText"; "richText"; "colorValue";
      "filePaths"; "imageData"; "thumbnailData";
      "imagePath"; "thumbnailPath"; "timestamp"; "id"; "contentHash" ]
  = [ "isPinned"; "isDeleted"; "plainText"; "richText"; "colorValue";
      "filePaths"; "imageData"; "thumbnailData" ].
Proof. vm_compute. reflexivity. Qed.

(** ** The claim on the store invariant *)

Lemma Inv_reachable (ops : list op) :
  forall h, Forall built ops -> Forall (fun o => restores o = false) ops ->
    Inv h -> Inv (foldl run h ops).
Proof.
  induction ops as [|o ops IH]; intros h Hb Hr HI; [exact HI |].
  inversion Hb; inversion Hr; subst. cbn [foldl].
  apply IH; [assumption .. |]. now apply Inv_run.
Qed.

(** C5 (one live item per hash), as amended.  In every state that the
    coordinator reaches from an empty store by operations other than
    [restoreFromTrash], at most one live row exists per content hash
    (and ids stay a key of well-formed rows); and a hash carried only
    by trashed rows is not found by [existsByHash], so it does not block
    a recapture. *)
Theorem unique_live_hash_without_restore (ops : list op) :
  Forall built ops -> Forall (fun o => restores o = false) ops ->
  let h := foldl run (History.new []) ops in
  unique_live_hash (db h)
  /\ wf (db h)
  /\ forall hash,
       Forall (fun r => text_is hash (col "content_hash" r) = true -> live r = false)
              (db h) ->
       existsByHash hash (db h) = None.
Proof.
  intros Hb Hr h.
  destruct (Inv_reachable ops (History.new []) Hb Hr Inv_new) as (Hwf & _ & Hu).
  split; [exact Hu |]. split; [exact Hwf |].
  intros hash. apply existsByHash_ignores_trash.
Qed.

Lemma unique_live_hash_without_restore_witness :
  unique_live_hash (db (foldl run (History.new []) session))
  /\ wf (db (foldl run (History.new []) session))
  /\ forall hash,
       Forall (fun r => text_is hash (col "content_hash" r) = true -> live r = false)
              (db (foldl run (History.new []) session)) ->
       existsByHash hash (db (foldl run (History.new []) session)) = None.
Proof.
  apply (unique_live_hash_without_restore session).
  - repeat constructor; discriminate.
  - repeat constructor.
Defined.

(** Restoring a trashed row whose content was captured again in the
    meantime leaves two live rows with one hash. *)
Lemma restoreFromTrash_breaks_unique_live_hash :
  Forall built recapture_then_restore
  /\ ~ unique_live_hash (db (foldl run (History.new []) recapture_then_restore)).
Proof.
  split; [repeat constructor; discriminate |].
  intros Hu. specialize (Hu (Sha256.sha256_hex "Hello")).
  vm_compute in Hu. lia.
Qed.

End HistoryFacts.

(* ===================================================================== *)
(** * imageStorageManager.js: ids, paths and extensions                   *)
(* ===================================================================== *)

Module ImageStorageFacts.
Import Js ImageStorage Blob JsFacts.

(** ** Paths with different extensions are different files *)

Lemma path_join_ext (a x e : string) :
  path_join a (x +:+ e) = (a +:+ "/" +:+ x) +:+ e.
Proof. unfold path_join. now rewrite !append_assoc. Qed.

Lemma path_join_webp (a x : string) :
  path_join a (x +:+ ".webp") = (a +:+ "/" +:+ x +:+ ".") +:+ "webp".
Proof. unfold path_join. now rewrite !append_assoc. Qed.

Lemma png_not_webp (a x b y : string) :
  path_join a (x +:+ ".png") <> path_join b (y +:+ ".webp").
Proof.
  rewrite path_join_ext, path_join_webp. intros E.
  apply append_suffix_inj in E; [discriminate E | reflexivity].
Qed.

Lemma png_not_jpg (a x b y : string) :
  path_join a (x +:+ ".png") <> path_join b (y +:+ ".jpg").
Proof.
  rewrite !path_join_ext. intros E.
  apply append_suffix_inj in E; [discriminate E | reflexivity].
Qed.

Lemma jpg_not_webp (a x b y : string) :
  path_join a (x +:+ ".jpg") <> path_join b (y +:+ ".webp").
Proof.
  rewrite path_join_ext, path_join_webp. intros E.
  apply append_suffix_inj in E; [discriminate E | reflexivity].
Qed.

(** ** The three guarded operations *)

(** [deleteImage], [readImage] and [readThumbnail] throw on a rejected
    id and leave the disk alone. *)
Lemma guarded_operations_reject (m : t) (id : value) (fs : FS) :
  rejects id = true ->
  deleteImage m id fs = (Threw invalid_id, fs)
  /\ readImage m id fs = Threw invalid_id
  /\ readThumbnail m id fs = Threw invalid_id.
Proof.
  intros Hr. unfold deleteImage, readImage, readThumbnail. now rewrite Hr.
Qed.

Example rejects_examples :
  rejects (JStr "../../etc/passwd") = true
  /\ rejects (JStr "a/b") = true
  /\ rejects (JStr (String backslash "x")) = true
  /\ rejects (JStr "a..b") = true
  /\ rejects (JStr EmptyString) = true
  /\ rejects JNull = true
  /\ rejects (JStr "3f2a9c1e-7b4d-4e0a-9c55-0d6f1b2a3c4d") = false.
Proof. vm_compute. repeat split. Qed.

Section WithSharp.
Context `{Sharp}.

(** ** What [saveImage] does *)

Lemma saveImage_returned (m : t) (buf : Buffer) (id0 : value) (uuid : string)
    (fs fs' : FS) (r : saved) :
  saveImage m buf id0 uuid fs = (Returned r, fs') ->
  exists c th,
    webp buf = Some c /\ jpeg_thumbnail buf = Some th
    /\ id r = (if truthy id0 then String_ id0 else uuid)
    /\ imagePath r = path_join (imagesPath m) (id r +:+ ".webp")
    /\ thumbnailPath r = path_join (thumbnailsPath m) (id r +:+ ".jpg")
    /\ fs' = <[thumbnailPath r := th]> (<[imagePath r := c]> fs).
Proof.
  unfold saveImage.
  destruct (webp buf) as [c|]; [|discriminate].
  destruct (jpeg_thumbnail buf) as [th|]; [|discriminate].
  intros [= <- <-]. exists c, th. cbn. repeat split.
Qed.

Lemma saveImage_written (m : t) (buf : Buffer) (id0 : value) (uuid : string) (fs : FS) :
  written fs -> written (saveImage m buf id0 uuid fs).2.
Proof.
  intros Hw. unfold saveImage.
  destruct (webp buf) as [c|]; [|exact Hw].
  destruct (jpeg_thumbnail buf) as [th|]; cbn [snd].
  - intros p [v Hp]. rewrite lookup_insert in Hp. case_decide as E1.
    { subst p. eexists _, _. right. reflexivity. }
    rewrite lookup_insert in Hp. case_decide as E2.
    { subst p. eexists _, _. left. reflexivity. }
    apply Hw. eauto.
  - intros p [v Hp]. rewrite lookup_insert in Hp. case_decide as E2.
    { subst p. eexists _, _. left. reflexivity. }
    apply Hw. eauto.
Qed.

Lemma deleteImage_written (m : t) (id : value) (fs : FS) :
  written fs -> written (deleteImage m id fs).2.
Proof.
  intros Hw. unfold deleteImage. destruct (rejects id); [exact Hw |].
  cbn [snd]. intros p [v Hp].
  rewrite lookup_delete in Hp. case_decide; [discriminate |].
  rewrite lookup_delete in Hp. case_decide; [discriminate |].
  apply Hw. eauto.
Qed.

Lemma reachable_written (fs : FS) : reachable fs -> written fs.
Proof.
  induction 1 as [|m buf id uuid fs _ IH|m id fs _ IH].
  - intros p [v Hp]. rewrite lookup_empty in Hp. discriminate.
  - now apply saveImage_written.
  - now apply deleteImage_written.
Qed.

(** No file of a disk that the Blob Store wrote is where the read path
    looks for a full image. *)
Lemma written_no_png (fs : FS) (m : t) (id : value) :
  written fs -> fs !! getImagePath m id = None.
Proof.
  intros Hw. destruct (fs !! getImagePath m id) as [v|] eqn:E; [|reflexivity].
  destruct (Hw _ (ex_intro _ v E)) as (a & x & [Hp|Hp]); exfalso.
  - revert Hp. apply png_not_webp.
  - revert Hp. apply png_not_jpg.
Qed.

End WithSharp.


(** ** The claims on the Blob Store *)

Section Claims.
Context `{Sharp}.

(** C2 (path traversal).  [saveImage] performs no check on the id: an
    id that the three guarded operations reject is used as it is, and
    both files are written under it. *)
Theorem saveImage_accepts_rejected_id (m : t) (buf : Buffer) (s uuid : string)
    (fs : FS) (c th : Buffer) :
  rejects (JStr s) = true -> s <> EmptyString ->
  webp buf = Some c -> jpeg_thumbnail buf = Some th ->
  let image := path_join (imagesPath m) (s +:+ ".webp") in
  let thumbnail := path_join (thumbnailsPath m) (s +:+ ".jpg") in
  saveImage m buf (JStr s) uuid fs
  = (Returned {| id := s; imagePath := image; thumbnailPath := thumbnail;
                 fileSize := Z.of_nat (length buf) |},
     <[thumbnail := th]> (<[image := c]> fs))
  /\ (<[thumbnail := th]> (<[image := c]> fs)) !! image = Some c
  /\ (<[thumbnail := th]> (<[image := c]> fs)) !! thumbnail = Some th.
Proof.
  intros _ Hs Hc Hth image thumbnail.
  apply truthy_str_spec in Hs.
  unfold saveImage. cbn [truthy String_]. rewrite Hs, Hc, Hth.
  split; [reflexivity |]. split.
  - rewrite lookup_insert_ne by apply jpg_not_webp. apply lookup_insert_eq.
  - apply lookup_insert_eq.
Qed.

(** C10 (extensions), as amended.  On a disk that only the Blob Store
    wrote, after [saveImage] returned: the full image is in a [.webp]
    file; the read path looks at the [.png] name, where nothing is, so
    [readImage] of the returned id gives null when the id passes its
    check and throws when it does not, and [imageExists] is false; and
    [deleteImage] of that id leaves the [.webp] file in place. *)
Theorem saved_image_not_found (m : t) (buf : Buffer) (id0 : value) (uuid : string)
    (fs fs' : FS) (r : saved) :
  reachable fs ->
  saveImage m buf id0 uuid fs = (Returned r, fs') ->
  imagePath r = path_join (imagesPath m) (id r +:+ ".webp")
  /\ webp buf = fs' !! imagePath r
  /\ is_Some (fs' !! imagePath r)
  /\ getImagePath m (JStr (id r)) = path_join (imagesPath m) (id r +:+ ".png")
  /\ readImage m (JStr (id r)) fs'
     = (if rejects (JStr (id r)) then Threw invalid_id else Returned None)
  /\ imageExists m (JStr (id r)) fs' = false
  /\ forall res fs'', deleteImage m (JStr (id r)) fs' = (res, fs'') ->
       fs'' !! imagePath r = fs' !! imagePath r.
Proof.
  intros Hreach Hsave.
  assert (Hw : written fs').
  { change fs' with (Returned r, fs').2. rewrite <- Hsave.
    apply saveImage_written, reachable_written, Hreach. }
  destruct (saveImage_returned _ _ _ _ _ _ _ Hsave)
    as (c & th & Hc & Hth & Hid & Himg & Hthumb & ->).
  assert (Hfile : (<[thumbnailPath r := th]> (<[imagePath r := c]> fs)) !! imagePath r
                  = Some c).
  { rewrite lookup_insert_ne; [apply lookup_insert_eq |].
    rewrite Himg, Hthumb. apply jpg_not_webp. }
  split; [exact Himg |]. split; [now rewrite Hfile |].
  split; [rewrite Hfile; eauto |]. split; [reflexivity |].
  split; [|split].
  - unfold readImage. destruct (rejects (JStr (id r))); [reflexivity |].
    now rewrite (written_no_png _ m (JStr (id r)) Hw).
  - unfold imageExists. apply bool_decide_eq_false.
    change (path_join (imagesPath m) (String_ (JStr (id r)) +:+ ".png"))
      with (getImagePath m (JStr (id r))).
    rewrite (written_no_png _ m (JStr (id r)) Hw). now intros [? ?].
  - intros res fs''. unfold deleteImage.
    destruct (rejects (JStr (id r))); intros [= _ <-]; [reflexivity |].
    cbn [String_]. rewrite Himg.
    rewrite lookup_delete_ne by apply jpg_not_webp.
    now rewrite lookup_delete_ne by apply png_not_webp.
Qed.

End Claims.

Lemma saveImage_accepts_rejected_id_witness :
  rejects (JStr "../evil") = true
  /\ (@saveImage plain_sharp data_root png_bytes (JStr "../evil") "unused" ∅).1
     = Returned {| id := "../evil";
                   imagePath := "/data/images/../evil.webp";
                   thumbnailPath := "/data/thumbnails/../evil.jpg";
                   fileSize := 6 |}
  /\ (@saveImage plain_sharp data_root png_bytes (JStr "../evil") "unused" ∅).2
       !! "/data/images/../evil.webp" = Some png_bytes.
Proof.
  split; [reflexivity |].
  destruct (@saveImage_accepts_rejected_id plain_sharp data_root png_bytes
              "../evil" "unused" ∅ png_bytes (take 4 png_bytes)
              eq_refl ltac:(discriminate) eq_refl eq_refl) as (E & Himg & _).
  rewrite E. split; [reflexivity | exact Himg].
Defined.

Lemma saved_image_not_found_witness :
  readImage data_root (JStr "img-1") saved_capture.2 = Returned None
  /\ imageExists data_root (JStr "img-1") saved_capture.2 = false
  /\ saved_capture.2 !! "/data/images/img-1.webp" = Some png_bytes
  /\ (deleteImage data_root (JStr "img-1") saved_capture.2).2
       !! "/data/images/img-1.webp" = Some png_bytes.
Proof.
  destruct (@saved_image_not_found plain_sharp data_root png_bytes JNull "img-1" ∅
              saved_capture.2
              {| id := "img-1"; imagePath := "/data/images/img-1.webp";
                 thumbnailPath := "/data/thumbnails/img-1.jpg"; fileSize := 6 |}
              reach_empty eq_refl)
    as (_ & Hfile & _ & _ & Hread & Hexists & Hdel).
  split; [exact Hread |]. split; [exact Hexists |].
  split; [symmetry; exact Hfile |].
  exact (eq_trans (Hdel _ _ (surjective_pairing _)) (eq_sym Hfile)).
Defined.

(** An image saved under an id that the read path rejects cannot even
    be looked for: [readImage] throws instead of returning null. *)
Lemma saved_then_read_throws :
  (exists r, (@saveImage plain_sharp data_root png_bytes (JStr "a..b") "unused" ∅).1
             = Returned r /\ id r = "a..b")
  /\ readImage data_root (JStr "a..b")
       (@saveImage plain_sharp data_root png_bytes (JStr "a..b") "unused" ∅).2
     <> Returned None.
Proof.
  split; [eexists; split; reflexivity |]. vm_compute. discriminate.
Qed.

End ImageStorageFacts.

(* ===================================================================== *)
(** * historyManager.js: eviction, retention and blob cleanup             *)
(* ===================================================================== *)

Module EnforcementFacts.
Import Js Database Store History DatabaseFacts HistoryFacts.

(** ** [ORDER BY], [LIMIT] and the rows of a query *)

Lemma place_perm (d : direction) (x : Row) (l : list Row) :
  place d x l ≡ₚ x :: l.
Proof.
  induction l as [|y l IH]; [reflexivity |].
  cbn [place]. destruct (before d x y); [reflexivity |].
  rewrite IH. apply Permutation_swap.
Qed.

Lemma order_by_timestamp_perm (d : direction) (l : list Row) :
  order_by_timestamp d l ≡ₚ l.
Proof.
  unfold order_by_timestamp. induction l as [|x l IH]; [reflexivity |].
  cbn [foldr]. rewrite place_perm. now rewrite IH.
Qed.

(** Rows already in increasing order of timestamp are returned as they
    stand. *)
Lemma order_by_timestamp_increasing (l : list Row) :
  increasing l -> order_by_timestamp ASC l = l.
Proof.
  unfold order_by_timestamp, increasing.
  induction 1 as [|x l _ IH Hx]; [reflexivity |].
  cbn [foldr]. rewrite IH. destruct l as [|y l]; [reflexivity |].
  cbn [place before]. inversion Hx as [|? ? Hxy _]; subst.
  destruct (Z.leb_spec (row_timestamp x) (row_timestamp y)); [reflexivity | lia].
Qed.

Lemma sql_limit_sublist (n : Z) (l : list Row) : sql_limit n l `sublist_of` l.
Proof. unfold sql_limit. destruct (n <? 0); [reflexivity | apply sublist_take]. Qed.

Lemma select_elem (o : options) (d : table) (r : Row) :
  r ∈ select o d -> r ∈ d /\ selected o r = true.
Proof.
  unfold select. intros Hr.
  eapply elem_of_sublist in Hr; [|apply sql_limit_sublist].
  eapply elem_of_sublist in Hr; [|apply sublist_drop].
  rewrite order_by_timestamp_perm in Hr. now apply elem_of_filter in Hr.
Qed.

Lemma rowToItem_fields (r : Row) (item : DbItem.t) :
  rowToItem r = Returned item ->
  DbItem.id item = row_id r /\ DbItem.timestamp item = row_timestamp r.
Proof.
  unfold rowToItem. destruct (col "file_paths" r) as [| |s|];
    try (intros [= <-]; split; reflexivity).
  destruct (truthy_str s); [|intros [= <-]; split; reflexivity].
  destruct (JSON_parse s); [intros [= <-]; split; reflexivity | discriminate].
Qed.

(** On readable rows a query returns one item per row, in order. *)
Lemma map_outcome_rows (rows : list Row) :
  Forall (fun r => readable r = true) rows ->
  exists items,
    map_outcome rowToItem rows = Returned items
    /\ Forall2 (fun r item => rowToItem r = Returned item) rows items.
Proof.
  induction 1 as [|r rows Hr _ (items & E & HF)].
  - exists []. split; [reflexivity | constructor].
  - unfold readable in Hr. destruct (rowToItem r) as [item|] eqn:Er; [|discriminate].
    exists (item :: items). cbn [map_outcome]. rewrite Er, E.
    split; [reflexivity | now constructor].
Qed.

Lemma query_rows (o : options) (d : table) :
  Forall (fun r => wf_row r = true) d ->
  exists items,
    query o d = Returned items
    /\ Forall2 (fun r item => rowToItem r = Returned item) (select o d) items.
Proof.
  intros Hwf.
  destruct (map_outcome_rows (select o d)) as (items & E & HF).
  - rewrite Forall_forall in *. intros r Hr.
    apply wf_row_readable, Hwf. now apply select_elem in Hr.
  - exists items. unfold query. rewrite E. now split.
Qed.

Lemma items_ids (rows : list Row) (items : list DbItem.t) :
  Forall2 (fun r item => rowToItem r = Returned item) rows items ->
  ids_of items = row_id <$> rows.
Proof.
  unfold ids_of. induction 1 as [|r item rows items Hr _ IH]; [reflexivity |].
  rewrite !fmap_cons, IH. f_equal. now apply rowToItem_fields in Hr.
Qed.

(** The ids of the items that [keep] retains are the ids of the rows
    that it retains. *)
Lemma items_filter_ids (keep : Z -> bool) (rows : list Row) (items : list DbItem.t) :
  Forall2 (fun r item => rowToItem r = Returned item) rows items ->
  ids_of (List.filter (fun item => keep (DbItem.timestamp item)) items)
  = row_id <$> List.filter (fun r => keep (row_timestamp r)) rows.
Proof.
  unfold ids_of. induction 1 as [|r item rows items Hr _ IH]; [reflexivity |].
  apply rowToItem_fields in Hr as [Hid Hts].
  cbn [List.filter]. rewrite Hts.
  destruct (keep (row_timestamp r)); [|exact IH].
  rewrite !fmap_cons, IH. now f_equal.
Qed.

(** ** Deleting the rows of a selection *)

(** Deleting by the ids of rows of the table removes exactly those
    rows, [id] being a key. *)
Lemma delete_rows_elem (victims : list Row) (d : table) (r : Row) :
  wf d -> (forall v, v ∈ victims -> v ∈ d) ->
  r ∈ (delete (row_id <$> victims) d).2 <-> r ∈ d /\ r ∉ victims.
Proof.
  intros [Hrows Hkey] Hsub. rewrite (delete_elem _ _ _ Hrows).
  split; intros [Hin Hno]; split; try exact Hin.
  - intros Hv. apply Hno. now apply list_elem_of_fmap_2.
  - intros Hid. apply list_elem_of_fmap in Hid as (v & E & Hv).
    apply Hno. assert (r = v) as ->; [|exact Hv].
    eapply NoDup_fmap_eq; eauto.
Qed.

Lemma filter_filter_comm {A} (f g : A -> bool) (l : list A) :
  List.filter f (List.filter g l) = List.filter g (List.filter f l).
Proof.
  induction l as [|x l IH]; [reflexivity |].
  cbn [List.filter]. destruct (f x) eqn:Ef, (g x) eqn:Eg;
    cbn [List.filter]; rewrite ?Ef, ?Eg, IH; reflexivity.
Qed.

(** In a list without repeated keys, dropping the keys of a prefix
    leaves the rest. *)
Lemma filter_drop_prefix (n : nat) (l : list Row) :
  Forall (fun r => wf_row r = true) l -> NoDup (row_id <$> l) ->
  List.filter (fun r => negb (listed (row_id <$> take n l) r)) l = drop n l.
Proof.
  intros Hrows Hkey.
  set (keep := fun r => negb (listed (row_id <$> take n l) r)).
  enough (E : List.filter keep (take n l ++ drop n l) = drop n l)
    by now rewrite take_drop in E.
  subst keep. rewrite List.filter_app.
  rewrite <- (take_drop n l) in Hrows, Hkey.
  rewrite fmap_app in Hkey. apply NoDup_app in Hkey as (_ & Hdisj & _).
  apply Forall_app in Hrows as [Hr1 Hr2].
  rewrite filter_none, filter_all; [reflexivity | |].
  - rewrite Forall_forall in *. intros r Hr.
    apply Bool.negb_true_iff, Bool.not_true_iff_false. intros Hl.
    apply (listed_spec _ _ (Hr2 r Hr)) in Hl.
    apply (Hdisj _ Hl). now apply list_elem_of_fmap_2.
  - rewrite Forall_forall in *. intros r Hr.
    apply Bool.negb_false_iff. apply (listed_spec _ _ (Hr1 r Hr)).
    now apply list_elem_of_fmap_2.
Qed.


(** ** The two passes of [enforceStorageLimits] *)

Lemma delete_nil (d : table) : (delete [] d).2 = d.
Proof. unfold delete. cbn [snd]. apply filter_all, Forall_forall. reflexivity. Qed.

Lemma returned_delete (h : History.t) (ids : list string) :
  match ids with
  | [] => Returned h
  | _ :: _ => Returned (with_db h (delete ids (db h)).2)
  end = Returned (with_db h (delete ids (db h)).2).
Proof. destruct ids; [now rewrite delete_nil, with_db_same | reflexivity]. Qed.

Lemma enforce_count_spec (h : History.t) :
  wf (db h) ->
  enforce_count h
  = Returned (with_db h (delete (row_id <$> count_victims h) (db h)).2).
Proof.
  intros [Hrows _]. unfold enforce_count, count_victims.
  change {| limit := 50; offset := 0; isPinned := None; isDeleted := Some false;
            orderDirection := DESC |} with not_deleted.
  destruct (maxItems h <? count not_deleted (db h)).
  - destruct (query_rows (oldest (count not_deleted (db h) - maxItems h)) (db h) Hrows)
      as (items & E & HF).
    unfold oldest in E. rewrite E. rewrite (items_ids _ _ HF).
    apply returned_delete.
  - cbn [fmap list_fmap]. now rewrite delete_nil, with_db_same.
Qed.

Lemma enforce_retention_spec (now : Z) (h : History.t) :
  wf (db h) ->
  enforce_retention now h
  = Returned (with_db h (delete (row_id <$> retention_victims now h) (db h)).2).
Proof.
  intros [Hrows _]. unfold enforce_retention, retention_victims.
  destruct (0 <? retentionDays h).
  - destruct (query_rows (oldest 10000) (db h) Hrows) as (items & E & HF).
    unfold oldest in E. rewrite E.
    rewrite (items_filter_ids (fun t => t <? now - retentionDays h * 24 * 60 * 60 * 1000)
               _ _ HF).
    apply returned_delete.
  - cbn [fmap list_fmap]. now rewrite delete_nil, with_db_same.
Qed.

Lemma after_count_wf (h : History.t) : wf (db h) -> wf (db (after_count h)).
Proof. intros Hwf. eapply wf_sublist; [apply delete_sublist | exact Hwf]. Qed.

Lemma enforceStorageLimits_spec (now : Z) (h : History.t) :
  wf (db h) ->
  enforceStorageLimits now h
  = with_db (after_count h)
      (delete (row_id <$> retention_victims now (after_count h))
         (db (after_count h))).2.
Proof.
  intros Hwf. unfold enforceStorageLimits.
  rewrite (enforce_count_spec h Hwf). fold (after_count h).
  now rewrite (enforce_retention_spec now _ (after_count_wf h Hwf)).
Qed.

Lemma count_victims_elem (h : History.t) (r : Row) :
  r ∈ count_victims h -> r ∈ db h /\ evictable r = true.
Proof.
  unfold count_victims. destruct (_ <? _); [|now intros ?%elem_of_nil].
  apply select_elem.
Qed.

Lemma retention_victims_elem (now : Z) (h : History.t) (r : Row) :
  r ∈ retention_victims now h ->
  r ∈ db h /\ evictable r = true /\ row_timestamp r < cutoff now h.
Proof.
  unfold retention_victims. destruct (_ <? _); [|now intros ?%elem_of_nil].
  intros [Hr Ht]%elem_of_filter. apply select_elem in Hr as [Hin Hsel].
  repeat split; [exact Hin | exact Hsel | now apply Z.ltb_lt].
Qed.

Lemma pinned_not_evictable (r : Row) : pinned r = true -> evictable r = false.
Proof.
  unfold pinned, evictable, unpinned, int_is.
  destruct (col "is_pinned" r) as [|n| |]; try discriminate.
  intros E%Z.eqb_eq. now subst.
Qed.

(** Neither pass deletes a pinned row, whatever the counts. *)
Lemma pinned_survive (now : Z) (h : History.t) (r : Row) :
  wf (db h) -> r ∈ db h -> pinned r = true ->
  r ∈ db (enforceStorageLimits now h).
Proof.
  intros Hwf Hin Hp. rewrite (enforceStorageLimits_spec now h Hwf).
  apply pinned_not_evictable in Hp.
  assert (H1 : r ∈ db (after_count h)).
  { unfold after_count. cbn [db with_db].
    apply (delete_rows_elem _ _ _ Hwf).
    - intros v Hv. now apply count_victims_elem in Hv.
    - split; [exact Hin |]. intros Hv%count_victims_elem. destruct Hv. congruence. }
  cbn [db with_db]. apply (delete_rows_elem _ _ _ (after_count_wf h Hwf)).
  - intros v Hv. now apply retention_victims_elem in Hv.
  - split; [exact H1 |]. intros Hv%retention_victims_elem.
    destruct Hv as (_ & ? & _). congruence.
Qed.


(** ** The claims on eviction and retention *)

Lemma evictable_live (d : table) :
  Forall (fun r => unpinned r = true) (List.filter live d) ->
  List.filter evictable d = List.filter live d.
Proof.
  intros Hall. apply List.filter_ext_in. intros r Hr.
  unfold evictable. destruct (live r) eqn:El; [|apply Bool.andb_false_r].
  rewrite Forall_forall in Hall. rewrite Hall; [reflexivity |].
  apply elem_of_filter. split; [now apply list_elem_of_In | exact El].
Qed.

(** C6 (count limit), as amended.  With a limit of [N] and [N + 5]
    live rows, all unpinned and with timestamps increasing in insertion
    order, none of them past the retention cutoff (or retention off):
    after [enforceStorageLimits] the live rows are the former ones
    without the first five, so exactly [N] remain; the rows removed are
    exactly those five, each older than every row kept.  And in any
    store no pinned row is ever removed by enforcement. *)
Theorem count_limit_evicts_oldest (h : History.t) (now N : Z) :
  wf (db h) -> maxItems h = N -> 0 <= N ->
  Z.of_nat (length (List.filter live (db h))) = N + 5 ->
  Forall (fun r => unpinned r = true) (List.filter live (db h)) ->
  increasing (List.filter live (db h)) ->
  (retentionDays h <= 0
   \/ Forall (fun r => cutoff now h <= row_timestamp r) (List.filter live (db h))) ->
  let h' := enforceStorageLimits now h in
  let oldest_five := take 5 (List.filter live (db h)) in
  List.filter live (db h') = drop 5 (List.filter live (db h))
  /\ Z.of_nat (length (List.filter live (db h'))) = N
  /\ (forall r, r ∈ oldest_five -> r ∉ db h')
  /\ (forall r, r ∈ db h -> r ∉ oldest_five -> r ∈ db h')
  /\ (forall r r', r ∈ oldest_five -> r' ∈ List.filter live (db h') ->
        row_timestamp r < row_timestamp r')
  /\ (forall now0 h0 p, wf (db h0) -> p ∈ db h0 -> pinned p = true ->
        p ∈ db (enforceStorageLimits now0 h0)).
Proof.
  intros Hwf HN HN0 Hlen Hunp Hinc Hfresh h' oldest_five.
  set (L := List.filter live (db h)) in *.
  assert (HLsub : L `sublist_of` db h) by apply filter_sublist.
  destruct (wf_sublist _ _ HLsub Hwf) as [HLrows HLkey].
  (* the count pass deletes the first five live rows *)
  assert (Hvict : count_victims h = take 5 L).
  { unfold count_victims.
    change (count not_deleted (db h)) with (Z.of_nat (length L)).
    rewrite Hlen, HN. destruct (Z.ltb_spec N (N + 5)); [|lia].
    replace (N + 5 - N) with 5 by lia.
    unfold select, oldest. cbn [limit offset isPinned isDeleted orderDirection].
    change (List.filter _ (db h)) with (List.filter evictable (db h)).
    rewrite (evictable_live _ Hunp). fold L.
    rewrite (order_by_timestamp_increasing _ Hinc). reflexivity. }
  assert (Hdb1 : db (after_count h)
                 = List.filter (fun r => negb (listed (row_id <$> take 5 L) r)) (db h)).
  { unfold after_count. cbn [db with_db]. now rewrite Hvict. }
  assert (Hlive1 : List.filter live (db (after_count h)) = drop 5 L).
  { rewrite Hdb1, filter_filter_comm. fold L.
    apply filter_drop_prefix; assumption. }
  (* the retention pass deletes nothing *)
  assert (Hret : retention_victims now (after_count h) = []).
  { unfold retention_victims. destruct (Z.ltb_spec 0 (retentionDays (after_count h)));
      [|reflexivity].
    destruct Hfresh as [Hoff|Hfresh]; [cbn in *; lia |].
    apply filter_none, Forall_forall. intros r Hr.
    apply select_elem in Hr as [Hin Hsel].
    apply Z.ltb_ge. rewrite Forall_forall in Hfresh.
    change (cutoff now (after_count h)) with (cutoff now h). apply Hfresh.
    eapply elem_of_sublist; [|apply (sublist_drop L 5)].
    rewrite <- Hlive1. apply elem_of_filter. split; [exact Hin |].
    change (selected (oldest 10000) r) with (evictable r) in Hsel.
    unfold evictable in Hsel. now apply andb_prop in Hsel. }
  assert (Hh' : db h' = db (after_count h)).
  { subst h'. rewrite (enforceStorageLimits_spec now h Hwf), Hret.
    cbn [db with_db fmap list_fmap]. apply delete_nil. }
  assert (Hfive : forall v, v ∈ take 5 L -> v ∈ db h).
  { intros v Hv. eapply elem_of_sublist; [|exact HLsub].
    eapply elem_of_sublist; [exact Hv | apply sublist_take]. }
  assert (Helem : forall r, r ∈ db h' <-> r ∈ db h /\ r ∉ take 5 L).
  { intros r. rewrite Hh'. unfold after_count. cbn [db with_db]. rewrite Hvict.
    apply (delete_rows_elem _ _ _ Hwf Hfive). }
  split; [now rewrite Hh' |]. split.
  { rewrite Hh', Hlive1, length_drop. lia. }
  split; [intros r Hr Hin; apply Helem in Hin; tauto |].
  split; [intros r Hr Hno; apply Helem; tauto |].
  split.
  - intros r r' Hr Hr'. rewrite Hh', Hlive1 in Hr'.
    unfold increasing in Hinc. rewrite <- (take_drop 5 L) in Hinc.
    eapply (StronglySorted_app_1_elem_of _ _ _ _ _ Hinc); eassumption.
  - intros now0 h0 p. apply pinned_survive.
Qed.

(** ** How many evictable rows the count pass leaves *)

Lemma filter_perm {A} (f : A -> bool) (l k : list A) :
  l ≡ₚ k -> List.filter f l ≡ₚ List.filter f k.
Proof.
  induction 1 as [|x l k _ IH|x y l|l k m _ IH1 _ IH2]; cbn [List.filter].
  - reflexivity.
  - destruct (f x); [now constructor | exact IH].
  - destruct (f x), (f y); try reflexivity. apply Permutation_swap.
  - etransitivity; eassumption.
Qed.

Lemma evictable_le_live (d : table) :
  (length (List.filter evictable d) <= length (List.filter live d))%nat.
Proof.
  induction d as [|r d IH]; [reflexivity |].
  cbn [List.filter]. unfold evictable at 1.
  destruct (live r); [destruct (unpinned r) |rewrite Bool.andb_false_r];
    cbn [andb length]; lia.
Qed.

(** After the count pass at most [maxItems] evictable rows are left. *)
Lemma after_count_evictable (h : History.t) :
  wf (db h) ->
  Z.of_nat (length (List.filter evictable (db (after_count h))))
  <= Z.max 0 (maxItems h).
Proof.
  intros Hwf. pose proof (evictable_le_live (db h)) as Hle.
  unfold after_count, count_victims. cbn [db with_db].
  change (count not_deleted (db h)) with (Z.of_nat (length (List.filter live (db h)))).
  set (total := Z.of_nat (length (List.filter live (db h)))) in *.
  destruct (Z.ltb_spec (maxItems h) total) as [Hover|Hunder].
  - unfold select, oldest. cbn [limit offset isPinned isDeleted orderDirection].
    change (List.filter _ (db h)) with (List.filter evictable (db h)).
    set (E := List.filter evictable (db h)) in *.
    set (S := order_by_timestamp ASC E).
    assert (HSE : S ≡ₚ E) by apply order_by_timestamp_perm.
    unfold sql_limit. destruct (Z.ltb_spec (total - maxItems h) 0); [lia |].
    change (Z.to_nat 0) with 0%nat. rewrite drop_0.
    set (k := Z.to_nat (total - maxItems h)).
    unfold delete. cbn [snd]. rewrite filter_filter_comm. fold E.
    assert (HEsub : E `sublist_of` db h) by apply filter_sublist.
    destruct (wf_sublist _ _ HEsub Hwf) as [HErows HEkey].
    assert (HSrows : Forall (fun r => wf_row r = true) S) by now rewrite HSE.
    assert (HSkey : NoDup (row_id <$> S)) by now rewrite HSE.
    rewrite (Permutation_length
               (filter_perm (fun r => negb (listed (row_id <$> take k S) r)) _ _
                  (symmetry HSE))).
    rewrite (filter_drop_prefix k S HSrows HSkey), length_drop.
    rewrite (Permutation_length HSE). subst k. lia.
  - cbn [fmap list_fmap]. rewrite delete_nil. lia.
Qed.

(** The values that [validateUpdates] lets through satisfy what the
    retention statement asks of the settings. *)
Lemma validated_settings (maxHistoryItems retentionDays : Z) :
  Preferences.validate_maxHistoryItems maxHistoryItems <= 10000
  /\ 0 < Preferences.validate_retentionDays retentionDays.
Proof.
  unfold Preferences.validate_maxHistoryItems, Preferences.validate_retentionDays. lia.
Qed.

(** C7 (retention), as amended.  When a retention period is set
    ([retentionDays > 0]) and the retention query can return every
    candidate (its [limit] is 10000: the configured maximum is at most
    10000, or the store holds at most 10000 unpinned live rows), every
    unpinned live row older than the cutoff is gone after
    [enforceStorageLimits], whatever the counts; and a pinned row
    stays, whatever its age. *)
Theorem retention_removes_expired (h : History.t) (now : Z) (r : Row) :
  wf (db h) -> 0 < retentionDays h ->
  (maxItems h <= 10000
   \/ Z.of_nat (length (List.filter evictable (db h))) <= 10000) ->
  r ∈ db h -> unpinned r = true -> live r = true ->
  row_timestamp r < cutoff now h ->
  (row_id r ∉ (row_id <$> db (enforceStorageLimits now h)))
  /\ (forall p, p ∈ db h -> pinned p = true ->
        p ∈ db (enforceStorageLimits now h)).
Proof.
  intros Hwf Hdays Hcap Hin Hunp Hlive Hold.
  split; [|intros p; now apply pinned_survive].
  rewrite (enforceStorageLimits_spec now h Hwf). cbn [db with_db].
  set (h1 := after_count h).
  pose proof (after_count_wf h Hwf) as Hwf1. fold h1 in Hwf1.
  assert (Hsub1 : db h1 `sublist_of` db h) by apply delete_sublist.
  intros Hid. apply list_elem_of_fmap in Hid as (r2 & E & Hr2).
  apply (delete_rows_elem _ _ _ Hwf1) in Hr2 as [Hr2 Hno];
    [|intros v Hv; now apply retention_victims_elem in Hv].
  assert (r = r2) as <-.
  { destruct Hwf as [_ Hkey]. eapply NoDup_fmap_eq; eauto.
    eapply elem_of_sublist; eassumption. }
  apply Hno. unfold retention_victims.
  change (retentionDays h1) with (retentionDays h).
  destruct (Z.ltb_spec 0 (retentionDays h)); [|lia].
  apply elem_of_filter. split; [|now apply Z.ltb_lt].
  unfold select, oldest. cbn [limit offset isPinned isDeleted orderDirection].
  change (List.filter _ (db h1)) with (List.filter evictable (db h1)).
  unfold sql_limit. change (10000 <? 0) with false. cbv iota.
  change (Z.to_nat 0) with 0%nat. rewrite drop_0, take_ge.
  - rewrite order_by_timestamp_perm.
    apply elem_of_filter. split; [exact Hr2 |].
    unfold evictable. now rewrite Hunp, Hlive.
  - rewrite (Permutation_length (order_by_timestamp_perm _ _)).
    destruct Hcap as [Hmax|Hcap].
    + pose proof (after_count_evictable h Hwf) as Hbound. fold h1 in Hbound. lia.
    + pose proof (sublist_length _ _ (sublist_filter_mono evictable _ _ Hsub1)). lia.
Qed.


(** Closed facts about a concrete store are settled by evaluation. *)
Ltac by_evaluation := apply (bool_decide_unpack _); vm_compute; exact I.

Lemma six_rows_wf : wf six_rows.
Proof. split; by_evaluation. Qed.

Lemma count_limit_evicts_oldest_witness :
  row_id <$> List.filter live (db six_over_one) = ["a"; "b"; "c"; "d"; "e"; "f"]
  /\ List.filter live (db (enforceStorageLimits 7 six_over_one))
     = drop 5 (List.filter live (db six_over_one))
  /\ Z.of_nat (length (List.filter live (db (enforceStorageLimits 7 six_over_one)))) = 1.
Proof.
  split; [vm_compute; reflexivity |].
  destruct (count_limit_evicts_oldest six_over_one 7 1) as (Hlive & Hlen & _).
  - exact six_rows_wf.
  - reflexivity.
  - lia.
  - vm_compute. reflexivity.
  - by_evaluation.
  - by_evaluation.
  - right. by_evaluation.
  - split; [exact Hlive | exact Hlen].
Defined.

(** The same six rows, visited thirty-one days later: the count pass
    removes five of them and the retention pass removes the sixth, so
    none remains where the limit is one. *)
Lemma count_limit_with_expired_rows :
  wf (db six_over_one)
  /\ Z.of_nat (length (List.filter live (db six_over_one))) = maxItems six_over_one + 5
  /\ Forall (fun r => unpinned r = true) (List.filter live (db six_over_one))
  /\ increasing (List.filter live (db six_over_one))
  /\ List.filter live (db (enforceStorageLimits (31 * 24 * 60 * 60 * 1000) six_over_one))
     = [].
Proof.
  split; [exact six_rows_wf |].
  split; [vm_compute; reflexivity |].
  split; [by_evaluation |]. split; [by_evaluation |].
  vm_compute. reflexivity.
Qed.

Lemma retention_removes_expired_witness :
  row_id (text_row "a" 5)
    ∉ (row_id <$> db (enforceStorageLimits (31 * 24 * 60 * 60 * 1000) retention_thirty)).
Proof.
  refine (proj1 (retention_removes_expired retention_thirty
                   (31 * 24 * 60 * 60 * 1000) (text_row "a" 5) _ _ _ _ _ _ _)).
  - split; by_evaluation.
  - reflexivity.
  - left. vm_compute. discriminate.
  - unfold retention_thirty. cbn [db]. apply list_elem_of_here.
  - vm_compute. reflexivity.
  - vm_compute. reflexivity.
  - vm_compute. reflexivity.
Defined.

(** With [retentionDays = 0] the retention pass is skipped: a row far
    older than the present stays, unpinned and live as it is. *)
Lemma retention_off_keeps_expired :
  unpinned (text_row "a" 5) = true
  /\ live (text_row "a" 5) = true
  /\ row_timestamp (text_row "a" 5) < cutoff 1000000 retention_off
  /\ row_id <$> db (enforceStorageLimits 1000000 retention_off) = ["a"].
Proof. repeat (split; [vm_compute; reflexivity |]). vm_compute. reflexivity. Qed.

(** ** The claim on blob cleanup *)

Lemma find_none_existsb {A} (f : A -> bool) (l : list A) :
  existsb f l = false -> List.find f l = None.
Proof.
  induction l as [|x l IH]; [reflexivity |].
  cbn [existsb List.find]. destruct (f x); [discriminate | exact IH].
Qed.

(** What [deleteItems] does do: no row with a listed id is left. *)
Lemma deleteItems_removes_rows (ids : list string) (h : History.t) (id : string) :
  id ∈ ids -> getById id (db (deleteItems ids h).2) = Returned None.
Proof.
  intros Hin. unfold deleteItems, getById. cbn [snd db with_db].
  now rewrite (find_none_existsb _ _ (delete_removes ids (db h) id Hin)).
Qed.

(** C4 (blob cleanup).  An image is captured: its two files are
    written and a row that records their paths is added.  Then
    [deleteItems] removes the row.  [deleteItems] takes and returns the
    coordinator alone, the disk is not among its arguments: the two
    files are where the capture left them. *)
Theorem deleteItems_leaves_image_files :
  col "image_path" <$> db Blob.captured_image = [SText "/data/images/img-1.webp"]
  /\ col "thumbnail_path" <$> db Blob.captured_image
     = [SText "/data/thumbnails/img-1.jpg"]
  /\ (deleteItems ["img-1"] Blob.captured_image).1 = 1
  /\ db (deleteItems ["img-1"] Blob.captured_image).2 = []
  /\ Blob.saved_capture.2 !! "/data/images/img-1.webp" = Some Blob.png_bytes
  /\ Blob.saved_capture.2 !! "/data/thumbnails/img-1.jpg" = Some (take 4 Blob.png_bytes).
Proof. repeat (split; [vm_compute; reflexivity |]). vm_compute. reflexivity. Qed.

End EnforcementFacts.

(* ===================================================================== *)
(** * database.js: what the statements return                             *)
(* ===================================================================== *)

Module QueryFacts.
Import Js Database Store DatabaseFacts HistoryFacts EnforcementFacts.

(** ** Reading back what [insert] wrote *)

Lemma as_text_opt_text (o : option string) : as_text (opt_text o) = o.
Proof. now destruct o. Qed.

Lemma as_int_opt_int (o : option Z) : as_int (opt_int o) = o.
Proof. now destruct o. Qed.

Lemma as_blob_opt_blob (o : option Buffer) : as_blob (opt_blob o) = o.
Proof. now destruct o. Qed.

Lemma as_text_text_or_null (o : option string) :
  as_text (text_or_null o) = Persisted.path o.
Proof. unfold text_or_null, Persisted.path. destruct (truthy_ostr o); now destruct o. Qed.

Lemma int_is_of_bool (b : bool) : int_is 1 (of_bool b) = b.
Proof. now destruct b. Qed.

Lemma rowToItem_row_of_item (item : DbItem.t) :
  rowToItem (row_of_item item) = Returned (Persisted.row_item item).
Proof.
  assert (E : forall fp, fp = DbItem.filePaths item ->
    {| DbItem.id := row_id (row_of_item item);
       DbItem.type := default EmptyString (as_text (col "type" (row_of_item item)));
       DbItem.timestamp := row_timestamp (row_of_item item);
       DbItem.isPinned := int_is 1 (col "is_pinned" (row_of_item item));
       DbItem.isDeleted := int_is 1 (col "is_deleted" (row_of_item item));
       DbItem.contentHash := row_hash (row_of_item item);
       DbItem.plainText := as_text (col "plain_text" (row_of_item item));
       DbItem.richText := as_text (col "rich_text" (row_of_item item));
       DbItem.imageData := as_blob (col "image_data" (row_of_item item));
       DbItem.thumbnailData := as_blob (col "thumbnail_data" (row_of_item item));
       DbItem.imagePath := as_text (col "image_path" (row_of_item item));
       DbItem.thumbnailPath := as_text (col "thumbnail_path" (row_of_item item));
       DbItem.filePaths := fp;
       DbItem.colorValue := as_text (col "color_value" (row_of_item item));
       DbItem.sourceApplication :=
         as_text (col "source_application" (row_of_item item));
       DbItem.fileSize := as_int (col "file_size" (row_of_item item));
       DbItem.fileCount := as_int (col "file_count" (row_of_item item));
       DbItem.fileTypes := as_text (col "file_types" (row_of_item item));
       DbItem.isAllImages := default 0 (as_int (col "is_all_images" (row_of_item item)));
       DbItem.thumbnails := None |} = Persisted.row_item item).
  { intros fp ->. unfold row_id, row_timestamp, row_hash, Persisted.row_item.
    change (col "id" (row_of_item item)) with (SText (DbItem.id item)).
    change (col "type" (row_of_item item)) with (SText (DbItem.type item)).
    change (col "timestamp" (row_of_item item)) with (SInt (DbItem.timestamp item)).
    change (col "is_pinned" (row_of_item item)) with (of_bool (DbItem.isPinned item)).
    change (col "is_deleted" (row_of_item item)) with (of_bool (DbItem.isDeleted item)).
    change (col "content_hash" (row_of_item item)) with (SText (DbItem.contentHash item)).
    change (col "plain_text" (row_of_item item)) with (opt_text (DbItem.plainText item)).
    change (col "rich_text" (row_of_item item)) with (opt_text (DbItem.richText item)).
    change (col "image_data" (row_of_item item)) with (opt_blob (DbItem.imageData item)).
    change (col "thumbnail_data" (row_of_item item))
      with (opt_blob (DbItem.thumbnailData item)).
    change (col "image_path" (row_of_item item))
      with (text_or_null (DbItem.imagePath item)).
    change (col "thumbnail_path" (row_of_item item))
      with (text_or_null (DbItem.thumbnailPath item)).
    change (col "color_value" (row_of_item item)) with (opt_text (DbItem.colorValue item)).
    change (col "source_application" (row_of_item item))
      with (opt_text (DbItem.sourceApplication item)).
    change (col "file_size" (row_of_item item)) with (opt_int (DbItem.fileSize item)).
    change (col "file_count" (row_of_item item)) with (opt_int (DbItem.fileCount item)).
    change (col "file_types" (row_of_item item)) with (opt_text (DbItem.fileTypes item)).
    change (col "is_all_images" (row_of_item item)) with (SInt (DbItem.isAllImages item)).
    rewrite !as_text_opt_text, !as_int_opt_int, !as_blob_opt_blob,
      !as_text_text_or_null, !int_is_of_bool.
    reflexivity. }
  unfold rowToItem. rewrite row_of_item_file_paths.
  destruct (DbItem.filePaths item) as [l|] eqn:Efp.
  - rewrite JsFacts.JSON_stringify_truthy, JsFacts.JSON_parse_stringify.
    f_equal. now apply E.
  - f_equal. now apply E.
Qed.

Lemma find_app_none {A} (f : A -> bool) (l k : list A) :
  existsb f l = false -> List.find f (app l k) = List.find f k.
Proof.
  induction l as [|x l IH]; [reflexivity |].
  cbn [existsb app List.find]. destruct (f x); [discriminate | exact IH].
Qed.

(** X1 (insert, then getById).  [insert] refuses an id that is taken and
    leaves the table as it is; otherwise it appends one row, and [getById]
    of the new id returns what was inserted, the paths read through [x ||
    null] and [thumbnails] (which has no column) gone. *)
Theorem insert_then_getById (item : DbItem.t) (d : table) :
  if existsb (has_id (DbItem.id item)) d
  then insert item d
       = (Threw "Insert failed: UNIQUE constraint failed: clipboard_items.id", d)
  else insert item d = (Returned true, app d [row_of_item item])
       /\ getById (DbItem.id item) (insert item d).2
          = Returned (Some (Persisted.row_item item)).
Proof.
  unfold insert. destruct (existsb (has_id (DbItem.id item)) d) eqn:E; [reflexivity |].
  split; [reflexivity |]. cbn [snd]. unfold getById.
  rewrite (find_app_none _ _ _ E). cbn [List.find].
  assert (Hid : has_id (DbItem.id item) (row_of_item item) = true).
  { apply has_id_spec. reflexivity. }
  rewrite Hid, rowToItem_row_of_item. reflexivity.
Qed.

(** ** Pages of a query *)

Lemma map_outcome_Forall2 {A B} (f : A -> outcome B) (l : list A) (ys : list B) :
  map_outcome f l = Returned ys <-> Forall2 (fun x y => f x = Returned y) l ys.
Proof.
  revert ys. induction l as [|x l IH]; intros ys; cbn [map_outcome].
  - split; [intros [= <-]; constructor | now inversion 1].
  - destruct (f x) as [y|m] eqn:Ex.
    + destruct (map_outcome f l) as [zs|m] eqn:El.
      * split.
        -- intros [= <-]. constructor; [exact Ex | now apply IH].
        -- inversion 1 as [|? y' ? zs' Hy Hzs]; subst.
           apply IH in Hzs. congruence.
      * split; [discriminate |].
        inversion 1 as [|? y' ? zs' Hy Hzs]; subst. apply IH in Hzs. discriminate.
    + split; [discriminate |]. inversion 1; congruence.
Qed.

Lemma query_returned (o : options) (d : table) (items : list DbItem.t) :
  query o d = Returned items <->
  Forall2 (fun r item => rowToItem r = Returned item) (select o d) items.
Proof.
  rewrite <- map_outcome_Forall2. unfold query.
  destruct (map_outcome rowToItem (select o d)); split; congruence.
Qed.

Lemma take_plus {A} (n m : nat) (l : list A) :
  take (n + m) l = app (take n l) (take m (drop n l)).
Proof.
  revert l. induction n as [|n IH]; intros l; [reflexivity |].
  destruct l as [|x l]; [now destruct m |].
  cbn [Nat.add take drop app]. now rewrite IH.
Qed.

Lemma select_pages (o : options) (a b k : Z) (d : table) :
  0 <= a -> 0 <= b -> 0 <= k ->
  select (Persisted.page o (a + b) k) d
  = app (select (Persisted.page o a k) d) (select (Persisted.page o b (k + a)) d).
Proof.
  intros Ha Hb Hk. unfold select, Persisted.page, sql_limit, selected.
  cbn [limit offset isPinned isDeleted orderDirection].
  destruct (Z.ltb_spec (a + b) 0); [lia |].
  destruct (Z.ltb_spec a 0); [lia |]. destruct (Z.ltb_spec b 0); [lia |].
  rewrite !Z2Nat.inj_add by lia. rewrite take_plus, drop_drop. reflexivity.
Qed.

(** X2 (consecutive pages).  Two consecutive pages of a listing make up
    the page of their joint size: nothing is skipped and nothing is
    repeated between a page and the next. *)
Theorem query_pages (o : options) (a b k : Z) (d : table) :
  0 <= a -> 0 <= b -> 0 <= k ->
  Forall (fun r => wf_row r = true) d ->
  exists p1 p2,
    query (Persisted.page o a k) d = Returned p1
    /\ query (Persisted.page o b (k + a)) d = Returned p2
    /\ query (Persisted.page o (a + b) k) d = Returned (app p1 p2).
Proof.
  intros Ha Hb Hk Hwf.
  destruct (query_rows (Persisted.page o a k) d Hwf) as (p1 & E1 & F1).
  destruct (query_rows (Persisted.page o b (k + a)) d Hwf) as (p2 & E2 & F2).
  exists p1, p2. split; [exact E1 |]. split; [exact E2 |].
  apply query_returned. rewrite select_pages by assumption.
  now apply Forall2_app.
Qed.

Lemma query_pages_witness :
  exists p1 p2,
    query (Persisted.page defaults 2 1) six_rows = Returned p1
    /\ query (Persisted.page defaults 3 3) six_rows = Returned p2
    /\ query (Persisted.page defaults 5 1) six_rows = Returned (app p1 p2)
    /\ DbItem.id <$> p1 = ["e"; "d"] /\ DbItem.id <$> p2 = ["c"; "b"; "a"].
Proof.
  destruct (query_pages defaults 2 3 1 six_rows) as (p1 & p2 & E1 & E2 & E3);
    [lia | lia | lia | apply six_rows_wf |].
  exists p1, p2. repeat (split; [assumption |]).
  assert (H1 : DbItem.id <$> p1 = row_id <$> select (Persisted.page defaults 2 1) six_rows)
    by (apply items_ids, query_returned, E1).
  assert (H2 : DbItem.id <$> p2 = row_id <$> select (Persisted.page defaults 3 3) six_rows)
    by (apply items_ids, query_returned, E2).
  rewrite H1, H2. split; vm_compute; reflexivity.
Defined.
(** ** Order, filters and size of a listing *)

Lemma before_total (dir : direction) (x y : Row) :
  before dir x y = false -> before dir y x = true.
Proof. destruct dir; cbn [before]; intros H%Z.leb_gt; apply Z.leb_le; lia. Qed.

Lemma before_trans (dir : direction) (x y z : Row) :
  before dir x y = true -> before dir y z = true -> before dir x z = true.
Proof.
  destruct dir; cbn [before]; intros H1%Z.leb_le H2%Z.leb_le; apply Z.leb_le; lia.
Qed.

Lemma place_sorted (dir : direction) (x : Row) (l : list Row) :
  StronglySorted (Persisted.comes_before dir) l -> StronglySorted (Persisted.comes_before dir) (place dir x l).
Proof.
  induction 1 as [|y l Hl IH Hy]; cbn [place].
  - repeat constructor.
  - destruct (before dir x y) eqn:E.
    + constructor; [now constructor |]. constructor; [exact E |].
      eapply Forall_impl; [exact Hy |]. intros z Hz. eapply before_trans; eassumption.
    + constructor; [exact IH |].
      rewrite (place_perm dir x l). constructor; [|exact Hy].
      now apply before_total.
Qed.

Lemma order_by_timestamp_sorted (dir : direction) (l : list Row) :
  StronglySorted (Persisted.comes_before dir) (order_by_timestamp dir l).
Proof.
  unfold order_by_timestamp. induction l as [|x l IH]; [constructor |].
  cbn [foldr]. now apply place_sorted.
Qed.

Lemma sorted_sublist {A} (R : A -> A -> Prop) (l k : list A) :
  l `sublist_of` k -> StronglySorted R k -> StronglySorted R l.
Proof.
  induction 1 as [|x l k Hsub IH|x l k Hsub IH]; intros Hk.
  - constructor.
  - inversion Hk as [|? ? Hk' Hx]; subst. constructor; [now apply IH |].
    eapply sublist_Forall; eassumption.
  - inversion Hk; subst. now apply IH.
Qed.

Lemma select_sorted (o : options) (d : table) :
  StronglySorted (Persisted.comes_before (orderDirection o)) (select o d).
Proof.
  unfold select.
  eapply sorted_sublist; [apply sql_limit_sublist |].
  eapply sorted_sublist; [apply sublist_drop |].
  apply order_by_timestamp_sorted.
Qed.

Lemma sorted_items (dir : direction) (rows : list Row) (items : list DbItem.t) :
  Forall2 (fun r item => rowToItem r = Returned item) rows items ->
  StronglySorted (Persisted.comes_before dir) rows -> Persisted.ordered dir items.
Proof.
  unfold Persisted.ordered.
  induction 1 as [|r item rows items Hr HF IH]; intros Hs; [constructor |].
  inversion Hs as [|? ? Hs' Hall]; subst. constructor; [now apply IH |].
  apply rowToItem_fields in Hr as [_ Hts].
  clear IH Hs Hs'. induction HF as [|r' item' rows items Hr' _ IH]; [constructor |].
  inversion Hall as [|? ? Hb Hall']; subst. constructor; [|now apply IH].
  apply rowToItem_fields in Hr' as [_ Hts']. rewrite Hts, Hts'.
  unfold Persisted.comes_before in Hb. destruct dir; cbn [before] in Hb; now apply Z.leb_le.
Qed.

Lemma rowToItem_flags (r : Row) (item : DbItem.t) :
  rowToItem r = Returned item ->
  DbItem.isPinned item = int_is 1 (col "is_pinned" r)
  /\ DbItem.isDeleted item = int_is 1 (col "is_deleted" r).
Proof.
  unfold rowToItem. destruct (col "file_paths" r) as [| |s|];
    try (intros [= <-]; split; reflexivity).
  destruct (truthy_str s); [|intros [= <-]; split; reflexivity].
  destruct (JSON_parse s); [intros [= <-]; split; reflexivity | discriminate].
Qed.

Lemma flag_ok_agrees (want : option bool) (v : SqlValue) :
  flag_ok want v = true -> Persisted.agrees want (int_is 1 v).
Proof.
  intros Hok b ->. cbn [flag_ok] in Hok. unfold int_is in *.
  destruct v as [|n| |]; try discriminate.
  destruct b; apply Z.eqb_eq in Hok; now subst.
Qed.

(** X3 (order and filters of a listing).  The items of a listing come in
    the order asked for (newest first by default), each is read from a row
    of the table, and each agrees with the two filters of the query: under
    [isDeleted: false] no trashed item is returned, under [isPinned: true]
    only pinned ones. *)
Theorem query_ordered_and_filtered (o : options) (d : table) (items : list DbItem.t) :
  query o d = Returned items ->
  Persisted.ordered (orderDirection o) items
  /\ Forall (fun item =>
       Persisted.agrees (isPinned o) (DbItem.isPinned item)
       /\ Persisted.agrees (isDeleted o) (DbItem.isDeleted item)
       /\ exists r, r ∈ d /\ rowToItem r = Returned item) items.
Proof.
  intros HF%query_returned. split.
  - eapply sorted_items; [exact HF | apply select_sorted].
  - assert (Hrows : Forall (fun r => r ∈ d /\ selected o r = true) (select o d)).
    { apply Forall_forall. intros r Hr. now apply select_elem. }
    induction HF as [|r item rows items Hr _ IH]; [constructor |].
    inversion Hrows as [|? ? [Hin Hsel] Hrows']; subst.
    constructor; [|now apply IH].
    apply rowToItem_flags in Hr as Hflags. destruct Hflags as [-> ->].
    unfold selected in Hsel. apply andb_prop in Hsel as [Hp Hd].
    split; [now apply flag_ok_agrees |]. split; [now apply flag_ok_agrees |].
    now exists r.
Qed.

Lemma query_ordered_and_filtered_witness :
  exists items,
    query not_deleted six_rows = Returned items
    /\ DbItem.timestamp <$> items = [6; 5; 4; 3; 2; 1]
    /\ Persisted.ordered DESC items.
Proof.
  destruct (query_rows not_deleted six_rows) as (items & E & HF);
    [apply six_rows_wf |].
  exists items. split; [exact E |]. split.
  - assert (Hts : DbItem.timestamp <$> items
                  = row_timestamp <$> select not_deleted six_rows).
    { clear E. induction HF as [|r item rows its Hr _ IH]; [reflexivity |].
      rewrite !fmap_cons, IH. f_equal. now apply rowToItem_fields in Hr. }
    rewrite Hts. vm_compute. reflexivity.
  - exact (proj1 (query_ordered_and_filtered not_deleted six_rows items E)).
Defined.

Lemma select_length (o : options) (d : table) :
  0 <= limit o -> 0 <= offset o ->
  Z.of_nat (length (select o d)) = Z.min (limit o) (Z.max 0 (count o d - offset o)).
Proof.
  intros Hl Ho. unfold select, sql_limit, count.
  destruct (Z.ltb_spec (limit o) 0); [lia |].
  rewrite length_take, length_drop.
  rewrite (Permutation_length (order_by_timestamp_perm _ _)). lia.
Qed.

(** X4 (size of a page).  A page holds [limit] items, or what is left of
    the rows that pass the filters after [offset] of them when that is
    less: [count] tells how many pages a listing has. *)
Theorem query_page_size (o : options) (d : table) (items : list DbItem.t) :
  0 <= limit o -> 0 <= offset o ->
  query o d = Returned items ->
  Z.of_nat (length items) = Z.min (limit o) (Z.max 0 (count o d - offset o)).
Proof.
  intros Hl Ho HF%query_returned.
  rewrite <- (select_length o d Hl Ho). f_equal. symmetry.
  eapply Forall2_length, HF.
Qed.

Lemma query_page_size_witness :
  exists items,
    query (Persisted.page not_deleted 4 3) six_rows = Returned items
    /\ count (Persisted.page not_deleted 4 3) six_rows = 6
    /\ Z.of_nat (length items) = 3.
Proof.
  destruct (query_rows (Persisted.page not_deleted 4 3) six_rows) as (items & E & _);
    [apply six_rows_wf |].
  exists items. split; [exact E |]. split; [vm_compute; reflexivity |].
  rewrite (query_page_size (Persisted.page not_deleted 4 3) six_rows items);
    [vm_compute; reflexivity | cbn; lia | cbn; lia | exact E].
Defined.
(** ** What [update] can and cannot change *)

Lemma update_length (id : string) (updates : list (string * value)) (d : table) :
  length (update id updates d).2 = length d.
Proof. rewrite update_rows. apply length_fmap. Qed.

Lemma assignments_nonempty (updates : list (string * value)) :
  assignments updates <> [] <->
  exists kv, kv ∈ updates /\ allowed (camelToSnake kv.1) = true.
Proof.
  induction updates as [|[key v] updates IH]; cbn [assignments].
  - split; [congruence | intros (kv & Hin%elem_of_nil & _); contradiction].
  - destruct (allowed (camelToSnake key)) eqn:E.
    + split; [|discriminate]. intros _. exists (key, v).
      split; [apply list_elem_of_here | exact E].
    + rewrite IH. split.
      * intros (kv & Hin & Hkv). exists kv. split; [now apply list_elem_of_further | exact Hkv].
      * intros (kv & Hin & Hkv). apply elem_of_cons in Hin as [->|Hin].
        -- cbn [fst] in Hkv. congruence.
        -- now exists kv.
Qed.

(** X5 (what update leaves alone).  Whatever keys it is handed, [update]
    keeps the number and the order of the rows, leaves every column
    outside the whitelist as it was in every row (so [id], [type],
    [timestamp], [content_hash] and the two paths never change), leaves
    the rows with another id untouched, and answers true exactly when it
    kept a key and a row carries the id. *)
Theorem update_changes_only_whitelisted (id : string)
    (updates : list (string * value)) (d : table) :
  length (update id updates d).2 = length d
  /\ (forall c, allowed c = false -> col c <$> (update id updates d).2 = col c <$> d)
  /\ (forall i r, d !! i = Some r -> has_id id r = false ->
        (update id updates d).2 !! i = Some r)
  /\ ((update id updates d).1 = true <->
      (exists kv, kv ∈ updates /\ allowed (camelToSnake kv.1) = true)
      /\ exists r, r ∈ d /\ has_id id r = true).
Proof.
  split; [apply update_length |].
  split; [intros c; apply update_keeps |].
  split.
  - intros i r Hi Hid. rewrite update_rows. unfold table in *.
    rewrite list_lookup_fmap, Hi.
    cbn [fmap option_fmap option_map]. now rewrite Hid.
  - rewrite update_returns, Bool.andb_true_iff, Bool.negb_true_iff,
      bool_decide_eq_false, assignments_nonempty, List.existsb_exists.
    split; intros [Hk (r & Hr & Hid)]; (split; [exact Hk |]);
      exists r; (split; [now apply list_elem_of_In | exact Hid]).
Qed.

(** ** [camelToSnake] *)

Lemma to_lower_not_upper (c : ascii) : is_upper c = true -> is_upper (to_lower c) = false.
Proof.
  destruct c as [[] [] [] [] [] [] [] []]; vm_compute; intros H; congruence.
Qed.

Lemma underscore_not_upper : is_upper "_"%char = false.
Proof. reflexivity. Qed.

Lemma camelToSnake_no_upper (s : string) :
  Persisted.no_upper (camelToSnake s) = true.
Proof.
  induction s as [|c s IH]; [reflexivity |].
  cbn [camelToSnake]. destruct (is_upper c) eqn:E; cbn [Persisted.no_upper].
  - now rewrite underscore_not_upper, (to_lower_not_upper c E), IH.
  - now rewrite E, IH.
Qed.

Lemma camelToSnake_fixed (s : string) :
  Persisted.no_upper s = true -> camelToSnake s = s.
Proof.
  induction s as [|c s IH]; [reflexivity |].
  cbn [Persisted.no_upper camelToSnake]. intros [Hc Hs]%andb_prop.
  apply Bool.negb_true_iff in Hc. rewrite Hc. f_equal. now apply IH.
Qed.

(** X6 (camelToSnake).  The result of [camelToSnake] has no upper-case
    letter, and a text without upper-case letters is returned as it is; so
    the function is idempotent, and [update] takes a key in camelCase and
    the same key in snake_case for the same column. *)
Theorem camelToSnake_idempotent (s : string) :
  Persisted.no_upper (camelToSnake s) = true
  /\ camelToSnake (camelToSnake s) = camelToSnake s
  /\ forall id v d, update id [(s, v)] d = update id [(camelToSnake s, v)] d.
Proof.
  pose proof (camelToSnake_no_upper s) as Hno.
  pose proof (camelToSnake_fixed _ Hno) as Hfix.
  split; [exact Hno |]. split; [exact Hfix |].
  intros id v d. unfold update. cbn [assignments]. now rewrite Hfix.
Qed.

(** ** [delete] *)

(** X7 (delete).  [delete] answers with the number of rows it removed,
    keeps the other rows in their order, and has nothing left to remove
    when it is run again with the same ids (or with none). *)
Theorem delete_counts_removed_rows (ids : list string) (d : table) :
  (delete ids d).1 = Z.of_nat (length d) - Z.of_nat (length (delete ids d).2)
  /\ (delete ids d).2 `sublist_of` d
  /\ delete ids (delete ids d).2 = (0, (delete ids d).2)
  /\ delete [] d = (0, d).
Proof.
  assert (Hsplit : forall (f : Row -> bool) (l : list Row),
            (length (List.filter f l)
             + length (List.filter (fun r => negb (f r)) l))%nat = length l).
  { intros f l. induction l as [|x l IH]; [reflexivity |].
    cbn [List.filter]. destruct (f x); cbn [negb length]; lia. }
  assert (Hnone : forall l, List.filter (listed ids) (List.filter (fun r => negb (listed ids r)) l) = []).
  { intros l. apply filter_none, Forall_forall. intros r Hr.
    apply elem_of_filter in Hr as [_ Hr]. now apply Bool.negb_true_iff in Hr. }
  split; [|split; [apply delete_sublist |split]].
  - unfold delete. cbn [fst snd]. pose proof (Hsplit (listed ids) d). lia.
  - unfold delete. cbn [fst snd]. rewrite Hnone. cbn [length]. f_equal.
    apply filter_all, Forall_forall. intros r Hr. now apply elem_of_filter in Hr.
  - unfold delete. f_equal.
    + rewrite filter_none; [reflexivity | apply Forall_forall; reflexivity].
    + apply filter_all, Forall_forall. reflexivity.
Qed.

(** ** [existsByHash] *)



End QueryFacts.

(* ===================================================================== *)
(** * historyManager.js: reading, the trash and the pin                    *)
(* ===================================================================== *)

Module LifecycleFacts.
Import Js Database Store History DatabaseFacts HistoryFacts EnforcementFacts.

(** ** An item written by [addItem] and read by [getItemById] *)

Lemma fromDatabase_row_item (item : ClipboardItem.t) (uuid : string) (now : Z) :
  ClipboardItem.id item <> EmptyString ->
  ClipboardItem.timestamp item <> 0 ->
  ClipboardItem.contentHash item <> EmptyString ->
  ClipboardItem.fromDatabase (Persisted.row_item (ClipboardItem.toDatabase item)) uuid now
  = Returned (Persisted.item item).
Proof.
  intros Hid Hts Hh.
  assert (Hflag : ((if ClipboardItem.isAllImages item then 1 else 0) =? 1)
                  = ClipboardItem.isAllImages item)
    by (destruct (ClipboardItem.isAllImages item); reflexivity).
  unfold ClipboardItem.fromDatabase, Persisted.row_item, ClipboardItem.toDatabase.
  cbn [DbItem.id DbItem.type DbItem.timestamp DbItem.isPinned DbItem.isDeleted
       DbItem.contentHash DbItem.plainText DbItem.richText DbItem.imageData
       DbItem.thumbnailData DbItem.imagePath DbItem.thumbnailPath
       DbItem.filePaths DbItem.colorValue DbItem.sourceApplication
       DbItem.fileSize DbItem.fileCount DbItem.fileTypes DbItem.isAllImages
       DbItem.thumbnails].
  assert (Hbuild : forall ft, ft = ClipboardItem.fileTypes item ->
    ClipboardItem.new
      {| ClipboardItem.i_id := Some (ClipboardItem.id item);
         ClipboardItem.i_type := ClipboardItem.type item;
         ClipboardItem.i_timestamp := Some (ClipboardItem.timestamp item);
         ClipboardItem.i_isPinned := ClipboardItem.isPinned item;
         ClipboardItem.i_isDeleted := ClipboardItem.isDeleted item;
         ClipboardItem.i_contentHash := Some (ClipboardItem.contentHash item);
         ClipboardItem.i_plainText := ClipboardItem.plainText item;
         ClipboardItem.i_richText := ClipboardItem.richText item;
         ClipboardItem.i_imageData := ClipboardItem.imageData item;
         ClipboardItem.i_imageThumbnail := ClipboardItem.imageThumbnail item;
         ClipboardItem.i_imagePath := Persisted.path (ClipboardItem.imagePath item);
         ClipboardItem.i_thumbnailPath := Persisted.path (ClipboardItem.thumbnailPath item);
         ClipboardItem.i_filePaths := ClipboardItem.filePaths item;
         ClipboardItem.i_colorValue := ClipboardItem.colorValue item;
         ClipboardItem.i_sourceApplication := ClipboardItem.sourceApplication item;
         ClipboardItem.i_fileSize := ClipboardItem.fileSize item;
         ClipboardItem.i_fileCount := ClipboardItem.fileCount item;
         ClipboardItem.i_fileTypes := ft;
         ClipboardItem.i_isAllImages :=
           (if ClipboardItem.isAllImages item then 1 else 0) =? 1;
         ClipboardItem.i_thumbnails := None |} uuid now = Persisted.item item).
  { intros ft ->. unfold ClipboardItem.new. ClipboardItemFacts.init_fields.
    rewrite (ClipboardItemFacts.or_str_keeps _ _ Hid),
      (ClipboardItemFacts.or_num_keeps _ _ Hts),
      (ClipboardItemFacts.or_str_keeps _ _ Hh), Hflag.
    reflexivity. }
  destruct (ClipboardItem.fileTypes item) as [l|] eqn:Eft.
  - cbv beta iota.
    change (truthy_ostr (Some (JSON_stringify l))) with true.
    change (default EmptyString (Some (JSON_stringify l))) with (JSON_stringify l).
    rewrite JsFacts.JSON_parse_stringify. cbv iota.
    f_equal. apply Hbuild. reflexivity.
  - cbv beta iota. cbn [truthy_ostr]. f_equal. apply Hbuild. reflexivity.
Qed.

Lemma find_by_id (d : table) (r : Row) :
  wf d -> r ∈ d -> List.find (has_id (row_id r)) d = Some r.
Proof.
  intros [Hrows Hkey] Hin.
  destruct (List.find (has_id (row_id r)) d) as [r'|] eqn:E.
  - apply find_some_elem in E as [Hin' Hid]. rewrite Forall_forall in Hrows.
    apply (has_id_row_id _ _ (Hrows r' Hin')) in Hid.
    f_equal. eapply NoDup_fmap_eq; eauto.
  - exfalso. apply find_none_filter in E.
    assert (H : r ∈ List.filter (has_id (row_id r)) d).
    { apply elem_of_filter. split; [exact Hin |].
      rewrite Forall_forall in Hrows. now apply has_id_row_id; [apply Hrows |]. }
    rewrite E in H. now apply elem_of_nil in H.
Qed.

Lemma wf_insert (item : DbItem.t) (d : table) :
  wf d -> existsb (has_id (DbItem.id item)) d = false -> wf (app d [row_of_item item]).
Proof.
  intros [Hrows Hkey] Ek. split.
  - apply Forall_app. split; [exact Hrows |].
    constructor; [apply row_of_item_wf | constructor].
  - rewrite fmap_app. apply NoDup_app. repeat split; [exact Hkey | | apply NoDup_singleton].
    intros x Hx Hx'. apply list_elem_of_fmap in Hx as (r & -> & Hr).
    apply list_elem_of_fmap in Hx' as (r' & Hx' & Hr').
    apply list_elem_of_singleton in Hr' as ->.
    apply Bool.not_true_iff_false in Ek. apply Ek.
    apply List.existsb_exists. exists r. split; [now apply list_elem_of_In |].
    rewrite Forall_forall in Hrows.
    apply (has_id_row_id _ _ (Hrows r Hr)). rewrite Hx'. reflexivity.
Qed.

(** A row that neither pass selects stays. *)
Lemma survives (now : Z) (h : History.t) (r : Row) :
  wf (db h) -> r ∈ db h ->
  r ∉ count_victims h -> r ∉ retention_victims now (after_count h) ->
  r ∈ db (enforceStorageLimits now h).
Proof.
  intros Hwf Hin Hc Hr. rewrite (enforceStorageLimits_spec now h Hwf).
  assert (H1 : r ∈ db (after_count h)).
  { unfold after_count. cbn [db with_db].
    apply (delete_rows_elem _ _ _ Hwf).
    - intros v Hv. now apply count_victims_elem in Hv.
    - now split. }
  cbn [db with_db]. apply (delete_rows_elem _ _ _ (after_count_wf h Hwf)).
  - intros v Hv. now apply retention_victims_elem in Hv.
  - now split.
Qed.

(** X9 (addItem, then getItemById).  An item that [addItem] stores can be
    read back by its id: the item returned by [getItemById] is the one
    that was added, except that [thumbnails] is null and an empty path has
    become null. The hypotheses say that the item is new (its id and its
    hash are not in use) and that enforcement has no reason to evict it at
    once: the store is below its limit and the item is not older than the
    retention cutoff. *)
Theorem addItem_then_getItemById (item : ClipboardItem.t) (now : Z) (h : History.t)
    (uuid' : string) (now' : Z) :
  wf (db h) ->
  ClipboardItem.id item <> EmptyString ->
  ClipboardItem.timestamp item <> 0 ->
  ClipboardItem.contentHash item <> EmptyString ->
  existsb (has_id (ClipboardItem.id item)) (db h) = false ->
  truthy_ostr (existsByHash (ClipboardItem.contentHash item) (db h)) = false ->
  count not_deleted (db h) < maxItems h ->
  (retentionDays h <= 0 \/ cutoff now h <= ClipboardItem.timestamp item) ->
  (addItem item now h).1 = Returned (Some (ClipboardItem.id item))
  /\ getItemById (ClipboardItem.id item) uuid' now' (addItem item now h).2
     = Returned (Some (Persisted.item item)).
Proof.
  intros Hwf Hid Hts Hh Hnew Hhash Hcount Hfresh.
  set (row := row_of_item (ClipboardItem.toDatabase item)).
  set (h0 := with_db h (app (db h) [row])).
  assert (Eadd : addItem item now h
                 = (Returned (Some (ClipboardItem.id item)), enforceStorageLimits now h0)).
  { unfold addItem. rewrite Hhash. unfold insert.
    change (DbItem.id (ClipboardItem.toDatabase item)) with (ClipboardItem.id item).
    rewrite Hnew. reflexivity. }
  rewrite Eadd. cbn [fst snd]. split; [reflexivity |].
  assert (Hwf0 : wf (db h0)) by now apply wf_insert.
  assert (Hrow : row ∈ db h0).
  { unfold h0. cbn [db with_db]. apply elem_of_app. right. apply list_elem_of_here. }
  assert (Hin : row ∈ db (enforceStorageLimits now h0)).
  { apply survives; [exact Hwf0 | exact Hrow | |].
    - unfold count_victims.
      assert (Hle : count not_deleted (db h0) <= count not_deleted (db h) + 1).
      { unfold count, h0. cbn [db with_db]. rewrite List.filter_app, length_app.
        pose proof (List.filter_length_le (selected not_deleted) [row]).
        cbn [length] in *. lia. }
      change (maxItems h0) with (maxItems h).
      destruct (Z.ltb_spec (maxItems h) (count not_deleted (db h0))); [lia |].
      apply not_elem_of_nil.
    - intros Hv. destruct Hfresh as [Hoff|Hfresh].
      + revert Hv. unfold retention_victims.
        change (retentionDays (after_count h0)) with (retentionDays h).
        destruct (Z.ltb_spec 0 (retentionDays h)); [lia |]. apply not_elem_of_nil.
      + apply retention_victims_elem in Hv as (_ & _ & Hold).
        change (cutoff now (after_count h0)) with (cutoff now h) in Hold.
        change (row_timestamp row) with (ClipboardItem.timestamp item) in Hold.
        lia. }
  assert (Hwf' : wf (db (enforceStorageLimits now h0))).
  { eapply wf_sublist; [apply enforceStorageLimits_sublist | exact Hwf0]. }
  unfold getItemById, getById.
  change (ClipboardItem.id item) with (row_id row) at 1.
  rewrite (find_by_id _ _ Hwf' Hin).
  unfold row. rewrite QueryFacts.rowToItem_row_of_item.
  now rewrite fromDatabase_row_item.
Qed.

Lemma addItem_then_getItemById_witness :
  getItemById "id-1" "unused" 1 (addItem (hello "id-1" 1000) 1000 (History.new [])).2
  = Returned (Some (Persisted.item (hello "id-1" 1000))).
Proof.
  refine (proj2 (addItem_then_getItemById (hello "id-1" 1000) 1000 (History.new [])
                   "unused" 1 _ _ _ _ _ _ _ _)).
  - split; constructor.
  - vm_compute. discriminate.
  - vm_compute. discriminate.
  - vm_compute. discriminate.
  - reflexivity.
  - reflexivity.
  - vm_compute. reflexivity.
  - right. vm_compute. discriminate.
Defined.

(** ** The trash *)

Lemma has_id_insert (id c : string) (v : SqlValue) (r : Row) :
  c <> "id" -> has_id id (<[c := v]> r) = has_id id r.
Proof. intros Hc. unfold has_id. now rewrite col_insert_ne. Qed.

Lemma listed_insert (ids : list string) (c : string) (v : SqlValue) (r : Row) :
  c <> "id" -> listed ids (<[c := v]> r) = listed ids r.
Proof.
  intros Hc. unfold listed. induction ids as [|id ids IH]; [reflexivity |].
  cbn [existsb]. now rewrite has_id_insert, IH.
Qed.

Lemma existsb_flag_rows (id' c : string) (flag : bool) (id : string) (d : table) :
  c <> "id" -> existsb (has_id id') (flag_rows c flag id d) = existsb (has_id id') d.
Proof.
  intros Hc. unfold flag_rows. induction d as [|r d IH]; [reflexivity |].
  rewrite fmap_cons. cbn [existsb]. rewrite IH. f_equal.
  destruct (has_id id r); [now apply has_id_insert | reflexivity].
Qed.

Lemma with_deleted_cons (flag : bool) (id : string) (ids : list string) (d : table) :
  Persisted.with_deleted flag ids (flag_rows "is_deleted" flag id d)
  = Persisted.with_deleted flag (id :: ids) d.
Proof.
  unfold Persisted.with_deleted, flag_rows. rewrite <- list_fmap_compose.
  apply list_fmap_ext. intros _ r _. cbn [compose listed existsb].
  fold (listed ids r).
  destruct (has_id id r) eqn:E; cbn [orb].
  - rewrite listed_insert by discriminate.
    destruct (listed ids r); [apply insert_insert_eq | reflexivity].
  - reflexivity.
Qed.

Lemma naming_flag_rows (ids : list string) (c : string) (flag : bool) (id : string)
    (d : table) :
  c <> "id" -> Persisted.naming ids (flag_rows c flag id d) = Persisted.naming ids d.
Proof.
  intros Hc. unfold Persisted.naming. apply List.filter_ext. intros id'.
  now apply existsb_flag_rows.
Qed.

Lemma set_deleted_spec (flag : bool) (ids : list string) :
  forall (n : Z) (h : History.t),
    foldl (fun acc id =>
             let r := update id [("isDeleted", JBool flag)] (db acc.2) in
             (if r.1 then acc.1 + 1 else acc.1, with_db acc.2 r.2))
          (n, h) ids
    = (n + Z.of_nat (length (Persisted.naming ids (db h))),
       with_db h (Persisted.with_deleted flag ids (db h))).
Proof.
  induction ids as [|id ids IH]; intros n h.
  - cbn [foldl Persisted.naming List.filter length]. f_equal; [lia |].
    unfold Persisted.with_deleted. cbn [listed existsb].
    rewrite list_fmap_id. now rewrite with_db_same.
  - cbn [foldl]. cbn [fst snd]. rewrite update_isDeleted. cbn [fst snd].
    rewrite IH. cbn [db with_db].
    rewrite with_deleted_cons, naming_flag_rows by discriminate.
    f_equal.
    unfold Persisted.naming. cbn [List.filter].
    destruct (existsb (has_id id) (db h)); cbn [length]; lia.
Qed.

Lemma with_deleted_elem (flag : bool) (ids : list string) (d : table) (r' : Row) :
  r' ∈ Persisted.with_deleted flag ids d ->
  exists r, r ∈ d /\ r' = (if listed ids r then <["is_deleted" := of_bool flag]> r else r).
Proof.
  unfold Persisted.with_deleted. intros (r & -> & Hr)%list_elem_of_fmap. now exists r.
Qed.

Lemma moveToTrash_spec (ids : list string) (h : History.t) :
  moveToTrash ids h
  = (Z.of_nat (length (Persisted.naming ids (db h))),
     with_db h (Persisted.with_deleted true ids (db h))).
Proof. unfold moveToTrash, set_deleted. rewrite set_deleted_spec. f_equal. Qed.

(** X10 (moveToTrash).  [moveToTrash] answers with the number of listed
    ids that name a row (an id listed twice counts twice) and sets
    [is_deleted] to 1 in exactly the rows named; no row is removed, and
    every other column, the pinned flag included, is as it was. *)
Theorem moveToTrash_marks_named_rows (ids : list string) (h : History.t) :
  moveToTrash ids h
  = (Z.of_nat (length (Persisted.naming ids (db h))),
     with_db h (Persisted.with_deleted true ids (db h)))
  /\ length (db (moveToTrash ids h).2) = length (db h)
  /\ (forall r', r' ∈ db (moveToTrash ids h).2 ->
        listed ids r' = true -> Persisted.trashed r' = true)
  /\ (forall c, c <> "is_deleted" ->
        col c <$> db (moveToTrash ids h).2 = col c <$> db h).
Proof.
  split; [apply moveToTrash_spec |]. rewrite moveToTrash_spec. cbn [snd db with_db].
  split; [apply length_fmap |]. split.
  - intros r' (r & Hr & ->)%with_deleted_elem.
    destruct (listed ids r) eqn:El; [|congruence].
    intros _. unfold Persisted.trashed. now rewrite col_insert_eq.
  - intros c Hc. unfold Persisted.with_deleted. rewrite <- list_fmap_compose.
    apply list_fmap_ext. intros _ r _. cbn [compose].
    destruct (listed ids r); [|reflexivity]. apply col_insert_ne. congruence.
Qed.

Lemma with_deleted_undo (ids : list string) (d : table) :
  Forall (fun r => listed ids r = true -> live r = true) d ->
  Persisted.with_deleted false ids (Persisted.with_deleted true ids d) = d.
Proof.
  intros Hlive. unfold Persisted.with_deleted.
  induction Hlive as [|r d Hr _ IH]; [reflexivity |].
  rewrite !fmap_cons, IH. f_equal.
  destruct (listed ids r) eqn:El; [|now rewrite El].
  rewrite listed_insert, El by discriminate. rewrite insert_insert_eq.
  apply insert_id. specialize (Hr eq_refl). unfold live, int_is, col in Hr.
  change (of_bool false) with (SInt 0).
  destruct (r !! "is_deleted") as [[|n| |]|]; cbn in Hr; try discriminate.
  apply Z.eqb_eq in Hr. now subst.
Qed.

Lemma naming_with_deleted (flag : bool) (ids ids' : list string) (d : table) :
  Persisted.naming ids' (Persisted.with_deleted flag ids d) = Persisted.naming ids' d.
Proof.
  unfold Persisted.naming. apply List.filter_ext. intros id.
  unfold Persisted.with_deleted. induction d as [|r d IH]; [reflexivity |].
  rewrite fmap_cons. cbn [existsb]. rewrite IH. f_equal.
  destruct (listed ids r); [now apply has_id_insert | reflexivity].
Qed.

(** X11 (restore after trash).  Restoring the ids that were just moved to
    the trash gives back the store as it was, provided the rows they name
    were live. *)
Theorem restoreFromTrash_undoes_moveToTrash (ids : list string) (h : History.t) :
  Forall (fun r => listed ids r = true -> live r = true) (db h) ->
  (restoreFromTrash ids (moveToTrash ids h).2).2 = h
  /\ (restoreFromTrash ids (moveToTrash ids h).2).1 = (moveToTrash ids h).1.
Proof.
  intros Hlive. unfold restoreFromTrash, moveToTrash, set_deleted.
  rewrite !set_deleted_spec. cbn [fst snd db with_db].
  rewrite naming_with_deleted, (with_deleted_undo ids (db h) Hlive).
  split; [now destruct h | reflexivity].
Qed.

Lemma restoreFromTrash_undoes_moveToTrash_witness :
  (restoreFromTrash ["id-1"; "nobody"] (moveToTrash ["id-1"; "nobody"] one_hello).2).2
  = one_hello
  /\ (moveToTrash ["id-1"; "nobody"] one_hello).1 = 1.
Proof.
  split; [|vm_compute; reflexivity].
  apply (restoreFromTrash_undoes_moveToTrash ["id-1"; "nobody"] one_hello).
  by_evaluation.
Defined.

(** ** Listings of the coordinator *)

Lemma map_outcome_from_Forall2 {A B} (f : nat -> A -> outcome B) (l : list A) :
  forall (i : nat) (ys : list B),
    map_outcome_from i f l = Returned ys ->
    Forall2 (fun x y => exists j, f j x = Returned y) l ys.
Proof.
  induction l as [|x l IH]; intros i ys; cbn [map_outcome_from].
  - intros [= <-]. constructor.
  - destruct (f i x) as [y|] eqn:Ex; [|discriminate].
    destruct (map_outcome_from (S i) f l) as [zs|] eqn:El; [|discriminate].
    intros [= <-]. constructor; [now exists i | now apply (IH (S i))].
Qed.

Lemma fromDatabase_fields (d : DbItem.t) (uuid : string) (now : Z) (it : ClipboardItem.t) :
  ClipboardItem.fromDatabase d uuid now = Returned it ->
  ClipboardItem.id it = or_str (Some (DbItem.id d)) uuid
  /\ ClipboardItem.isPinned it = DbItem.isPinned d
  /\ ClipboardItem.isDeleted it = DbItem.isDeleted d.
Proof.
  unfold ClipboardItem.fromDatabase.
  destruct (truthy_ostr (DbItem.fileTypes d)).
  - destruct (JSON_parse _); [|discriminate]. intros [= <-]. repeat split.
  - intros [= <-]. repeat split.
Qed.

(** X12 (listing after trash).  After [moveToTrash(ids)], a listing with
    the default filter holds no item with a listed id, and no item marked
    deleted. *)
Theorem getItems_hides_trash (ids : list string) (o : get_options)
    (uuid : nat -> string) (now : nat -> Z) (h : History.t)
    (items : list ClipboardItem.t) :
  wf (db h) -> ids_nonempty (db h) ->
  g_isDeleted o = None ->
  getItems o uuid now (moveToTrash ids h).2 = Returned items ->
  Forall (fun it => ClipboardItem.isDeleted it = false /\ ClipboardItem.id it ∉ ids)
         items.
Proof.
  intros [Hrows Hkey] Hne Hdef Hget.
  unfold getItems in Hget. rewrite Hdef in Hget. cbn [default] in Hget.
  set (q := {| limit := default 50 (g_limit o); offset := default 0 (g_offset o);
               isPinned := g_isPinned o; isDeleted := Some false;
               orderDirection := DESC |}) in Hget.
  destruct (query q (db (moveToTrash ids h).2)) as [ditems|] eqn:Eq; [|discriminate].
  apply QueryFacts.query_returned in Eq.
  apply map_outcome_from_Forall2 in Hget.
  assert (Hsel : Forall (fun r' => r' ∈ db (moveToTrash ids h).2 /\ selected q r' = true)
                        (select q (db (moveToTrash ids h).2))).
  { apply Forall_forall. intros r' Hr'. now apply select_elem. }
  revert items Hget.
  induction Eq as [|r' d rows ditems Hd _ IH]; intros items Hget.
  - inversion Hget. constructor.
  - inversion Hget as [|? it ? its (j & Hit) Hits]; subst.
    inversion Hsel as [|? ? [Hin Hq] Hsel']; subst.
    constructor; [|now apply IH].
    apply fromDatabase_fields in Hit as (Eid & _ & Edel).
    apply QueryFacts.rowToItem_flags in Hd as Hflags. destruct Hflags as [_ Hdel].
    apply rowToItem_fields in Hd as [Hdid _].
    unfold selected, q in Hq. cbn [isPinned isDeleted flag_ok] in Hq.
    apply andb_prop in Hq as [_ Hlive].
    assert (Hnot1 : int_is 1 (col "is_deleted" r') = false).
    { unfold int_is in *. destruct (col "is_deleted" r'); try discriminate.
      apply Z.eqb_eq in Hlive. now subst. }
    split; [congruence |].
    rewrite moveToTrash_spec in Hin. cbn [snd db with_db] in Hin.
    apply with_deleted_elem in Hin as (r & Hr & Er').
    rewrite Forall_forall in Hrows. unfold ids_nonempty in Hne. rewrite Forall_forall in Hne.
    destruct (listed ids r) eqn:El.
    + exfalso. subst r'. rewrite col_insert_eq in Hnot1. discriminate.
    + subst r'. rewrite Eid, Hdid.
      rewrite (ClipboardItemFacts.or_str_keeps _ _ (Hne r Hr)).
      intros Hin. apply (listed_spec ids r (Hrows r Hr)) in Hin. congruence.
Qed.

Lemma getItems_hides_trash_witness :
  exists items,
    getItems no_options (fun _ => "unused") (fun _ => 1)
      (moveToTrash ["id-1"] Persisted.hello_world).2 = Returned items
    /\ ClipboardItem.id <$> items = ["id-2"]
    /\ Forall (fun it => ClipboardItem.isDeleted it = false
                         /\ ClipboardItem.id it ∉ ["id-1"]) items.
Proof.
  eexists. split; [vm_compute; reflexivity |]. split; [reflexivity |].
  apply (getItems_hides_trash ["id-1"] no_options (fun _ => "unused") (fun _ => 1)
           Persisted.hello_world).
  - split; by_evaluation.
  - by_evaluation.
  - reflexivity.
  - vm_compute. reflexivity.
Defined.

(** ** [togglePin] *)

Lemma find_flag_rows (c : string) (flag : bool) (id : string) (d : table) :
  c <> "id" ->
  List.find (has_id id) (flag_rows c flag id d)
  = (fun r => <[c := of_bool flag]> r) <$> List.find (has_id id) d.
Proof.
  intros Hc. unfold flag_rows. induction d as [|r d IH]; [reflexivity |].
  rewrite fmap_cons. cbn [List.find].
  destruct (has_id id r) eqn:E.
  - now rewrite has_id_insert, E by exact Hc.
  - rewrite E. exact IH.
Qed.

Lemma rowToItem_fileTypes (r : Row) (d : DbItem.t) :
  rowToItem r = Returned d -> DbItem.fileTypes d = as_text (col "file_types" r).
Proof.
  unfold rowToItem. destruct (col "file_paths" r) as [| |s|];
    try (intros [= <-]; reflexivity).
  destruct (truthy_str s); [|intros [= <-]; reflexivity].
  destruct (JSON_parse s); [intros [= <-]; reflexivity | discriminate].
Qed.

Lemma rowToItem_pinned (flag : bool) (r : Row) (d : DbItem.t) :
  rowToItem r = Returned d ->
  exists d', rowToItem (<["is_pinned" := of_bool flag]> r) = Returned d'
    /\ DbItem.isPinned d' = flag
    /\ DbItem.fileTypes d' = DbItem.fileTypes d.
Proof.
  intros Ed.
  assert (Hread : readable (<["is_pinned" := of_bool flag]> r) = true).
  { assert (Hr : readable r = true) by (unfold readable; now rewrite Ed).
    rewrite readable_spec in *. now rewrite col_insert_ne by discriminate. }
  unfold readable in Hread.
  destruct (rowToItem (<["is_pinned" := of_bool flag]> r)) as [d'|] eqn:Ed';
    [|discriminate].
  exists d'. split; [reflexivity |]. split.
  - apply QueryFacts.rowToItem_flags in Ed' as [-> _].
    rewrite col_insert_eq. apply QueryFacts.int_is_of_bool.
  - rewrite (rowToItem_fileTypes _ _ Ed'), (rowToItem_fileTypes _ _ Ed).
    now rewrite col_insert_ne by discriminate.
Qed.

Lemma fromDatabase_same_fileTypes (d d' : DbItem.t) (u u' : string) (n n' : Z)
    (it : ClipboardItem.t) :
  DbItem.fileTypes d' = DbItem.fileTypes d ->
  ClipboardItem.fromDatabase d u n = Returned it ->
  exists it', ClipboardItem.fromDatabase d' u' n' = Returned it'
    /\ ClipboardItem.isPinned it' = DbItem.isPinned d'.
Proof.
  intros E. unfold ClipboardItem.fromDatabase. rewrite E.
  destruct (truthy_ostr (DbItem.fileTypes d)).
  - destruct (JSON_parse _); [|discriminate]. intros _. eexists. split; reflexivity.
  - intros _. eexists. split; reflexivity.
Qed.

Lemma flag_rows_twice (c : string) (f g : bool) (id : string) (d : table) :
  c <> "id" ->
  flag_rows c g id (flag_rows c f id d) = flag_rows c g id d.
Proof.
  intros Hc. unfold flag_rows. rewrite <- list_fmap_compose.
  apply list_fmap_ext. intros _ r _. cbn [compose].
  destruct (has_id id r) eqn:E; [|now rewrite E].
  rewrite has_id_insert, E by exact Hc. apply insert_insert_eq.
Qed.

Lemma togglePin_found (id uuid : string) (now : Z) (h : History.t) (r : Row)
    (it : ClipboardItem.t) :
  List.find (has_id id) (db h) = Some r ->
  getItemById id uuid now h = Returned (Some it) ->
  ClipboardItem.isPinned it = pinned r
  /\ togglePin id uuid now h
     = (Returned true,
        with_db h (flag_rows "is_pinned" (negb (pinned r)) id (db h))).
Proof.
  intros Hfind Hget.
  assert (Hex : existsb (has_id id) (db h) = true).
  { apply List.existsb_exists. apply List.find_some in Hfind. now exists r. }
  assert (Hp : ClipboardItem.isPinned it = pinned r).
  { unfold getItemById, getById in Hget. rewrite Hfind in Hget.
    destruct (rowToItem r) as [d|] eqn:Ed; [|discriminate].
    destruct (ClipboardItem.fromDatabase d uuid now) as [it'|] eqn:Eit; [|discriminate].
    injection Hget as <-.
    apply fromDatabase_fields in Eit as (_ & -> & _).
    now apply QueryFacts.rowToItem_flags in Ed as [-> _]. }
  split; [exact Hp |].
  unfold togglePin. rewrite Hget, Hp.
  destruct (pinned r); unfold pinItem, unpinItem; rewrite update_isPinned;
    cbn [fst snd negb]; now rewrite Hex.
Qed.

(** X13 (togglePin).  [togglePin] of an id that names no row answers false
    and changes nothing. When it answers true it has flipped the pinned
    flag of the row with that id and touched nothing else, and a second
    call answers true again and puts the flag back: every row is pinned,
    or not, as it was before the two calls. *)
Theorem togglePin_flips (id uuid : string) (now : Z) (h : History.t) :
  wf (db h) ->
  (existsb (has_id id) (db h) = false -> togglePin id uuid now h = (Returned false, h))
  /\ forall h1, togglePin id uuid now h = (Returned true, h1) ->
       exists r h2,
         r ∈ db h /\ row_id r = id
         /\ db h1 = flag_rows "is_pinned" (negb (pinned r)) id (db h)
         /\ togglePin id uuid now h1 = (Returned true, h2)
         /\ pinned <$> db h2 = pinned <$> db h.
Proof.
  intros Hwf. split.
  - intros Hno. unfold togglePin, getItemById, getById.
    now rewrite (find_none_existsb _ _ Hno).
  - intros h1 Htoggle.
    destruct (List.find (has_id id) (db h)) as [r|] eqn:Hfind.
    2:{ unfold togglePin, getItemById, getById in Htoggle.
        rewrite Hfind in Htoggle. discriminate. }
    pose proof (find_some_elem _ _ _ Hfind) as [Hin Hid].
    destruct Hwf as [Hrows Hkey]. pose proof Hrows as Hrows'.
    rewrite Forall_forall in Hrows'.
    apply (has_id_row_id _ _ (Hrows' r Hin)) in Hid as Hrid.
    destruct (getItemById id uuid now h) as [[it|]|] eqn:Hget;
      try (unfold togglePin in Htoggle; rewrite Hget in Htoggle; discriminate).
    destruct (togglePin_found _ _ _ _ _ _ Hfind Hget) as [Hp E1].
    rewrite E1 in Htoggle. injection Htoggle as <-.
    set (r1 := <["is_pinned" := of_bool (negb (pinned r))]> r).
    assert (Hfind1 : List.find (has_id id)
                       (flag_rows "is_pinned" (negb (pinned r)) id (db h)) = Some r1).
    { rewrite find_flag_rows by discriminate. now rewrite Hfind. }
    assert (Hget1 : exists it1,
               getItemById id uuid now
                 (with_db h (flag_rows "is_pinned" (negb (pinned r)) id (db h)))
               = Returned (Some it1)).
    { unfold getItemById, getById in Hget |- *. cbn [db with_db].
      rewrite Hfind1. unfold r1. rewrite Hfind in Hget.
      destruct (rowToItem r) as [d|] eqn:Ed; [|discriminate].
      destruct (rowToItem_pinned (negb (pinned r)) r d Ed) as (d' & -> & _ & Eft).
      destruct (ClipboardItem.fromDatabase d uuid now) as [it0|] eqn:Eit; [|discriminate].
      destruct (fromDatabase_same_fileTypes d d' uuid uuid now now it0 Eft Eit)
        as (it1 & -> & _).
      now exists it1. }
    destruct Hget1 as (it1 & Hget1).
    destruct (togglePin_found id uuid now
                (with_db h (flag_rows "is_pinned" (negb (pinned r)) id (db h)))
                r1 it1 Hfind1 Hget1) as [_ E2].
    exists r. eexists. split; [exact Hin |]. split; [exact Hrid |].
    split; [reflexivity |]. split; [exact E2 |].
    cbn [db with_db]. rewrite flag_rows_twice by discriminate.
    assert (Hp1 : pinned r1 = negb (pinned r)).
    { unfold r1, pinned. rewrite col_insert_eq. apply QueryFacts.int_is_of_bool. }
    rewrite Hp1, Bool.negb_involutive.
    unfold flag_rows. rewrite <- list_fmap_compose.
    apply Forall_fmap_ext_1, Forall_forall. intros x Hx. cbn [compose].
    destruct (has_id id x) eqn:Ex; [|reflexivity].
    apply (has_id_row_id _ _ (Hrows' x Hx)) in Ex.
    assert (x = r) as -> by (eapply NoDup_fmap_eq; eauto; congruence).
    unfold pinned at 1. rewrite col_insert_eq. apply QueryFacts.int_is_of_bool.
Qed.

Lemma togglePin_flips_witness :
  exists h1 h2,
    togglePin "id-2" "unused" 1 Persisted.hello_world = (Returned true, h1)
    /\ pinned <$> db h1 = [false; true]
    /\ togglePin "id-2" "unused" 1 h1 = (Returned true, h2)
    /\ pinned <$> db h2 = [false; false].
Proof.
  assert (Hwf : wf (db Persisted.hello_world)) by (split; by_evaluation).
  destruct (togglePin "id-2" "unused" 1 Persisted.hello_world) as [res h1] eqn:E.
  assert (Hres : res = Returned true).
  { change res with (res, h1).1. rewrite <- E. vm_compute. reflexivity. }
  subst res.
  destruct (proj2 (togglePin_flips "id-2" "unused" 1 Persisted.hello_world Hwf) h1 E)
    as (r & h2 & _ & _ & _ & E2 & Hback).
  exists h1, h2. split; [reflexivity |].
  assert (Hh1 : h1 = (togglePin "id-2" "unused" 1 Persisted.hello_world).2)
    by now rewrite E.
  split; [rewrite Hh1; vm_compute; reflexivity |].
  split; [exact E2 |]. rewrite Hback. vm_compute. reflexivity.
Defined.

(** ** Emptying the trash and clearing the history *)

Lemma select_all (o : options) (d : table) :
  offset o = 0 -> 0 <= limit o -> count o d <= limit o ->
  select o d ≡ₚ List.filter (selected o) d.
Proof.
  intros Ho Hl Hc. unfold select, sql_limit. rewrite Ho.
  destruct (Z.ltb_spec (limit o) 0); [lia |].
  change (Z.to_nat 0) with 0%nat. rewrite drop_0, take_ge.
  - apply order_by_timestamp_perm.
  - rewrite (Permutation_length (order_by_timestamp_perm _ _)). unfold count in Hc. lia.
Qed.

Lemma listed_selected (o : options) (d : table) (r : Row) :
  wf d -> offset o = 0 -> 0 <= limit o -> count o d <= limit o ->
  r ∈ d -> listed (row_id <$> select o d) r = selected o r.
Proof.
  intros [Hrows Hkey] Ho Hl Hc Hin.
  rewrite Forall_forall in Hrows.
  destruct (selected o r) eqn:Es.
  - apply (listed_spec _ _ (Hrows r Hin)). apply list_elem_of_fmap_2.
    rewrite (select_all o d Ho Hl Hc). now apply elem_of_filter.
  - apply Bool.not_true_iff_false. intros Hl'.
    apply (listed_spec _ _ (Hrows r Hin)) in Hl'.
    apply list_elem_of_fmap in Hl' as (v & E & Hv).
    apply select_elem in Hv as [Hv Hs].
    assert (r = v) as -> by (eapply NoDup_fmap_eq; eauto). congruence.
Qed.

Lemma delete_selected_spec (o : options) (h : History.t) :
  wf (db h) -> offset o = 0 -> 0 <= limit o -> count o (db h) <= limit o ->
  delete_selected o h
  = (Returned (count o (db h)),
     with_db h (List.filter (fun r => negb (selected o r)) (db h))).
Proof.
  intros Hwf Ho Hl Hc. unfold delete_selected.
  destruct (query_rows o (db h) (proj1 Hwf)) as (items & E & HF). rewrite E.
  rewrite (items_ids _ _ HF).
  assert (Hkeep : List.filter (fun r => negb (listed (row_id <$> select o (db h)) r)) (db h)
                  = List.filter (fun r => negb (selected o r)) (db h)).
  { apply List.filter_ext_in. intros r Hr%list_elem_of_In.
    now rewrite (listed_selected o (db h) r Hwf Ho Hl Hc Hr). }
  assert (Hgone : List.filter (listed (row_id <$> select o (db h))) (db h)
                  = List.filter (selected o) (db h)).
  { apply List.filter_ext_in. intros r Hr%list_elem_of_In.
    now rewrite (listed_selected o (db h) r Hwf Ho Hl Hc Hr). }
  destruct (row_id <$> select o (db h)) as [|id ids] eqn:Eids.
  - assert (Hnone : List.filter (selected o) (db h) = []).
    { rewrite <- Hgone. apply filter_none, Forall_forall. reflexivity. }
    unfold count. rewrite Hnone. cbn [length]. f_equal.
    rewrite <- (with_db_same h) at 1. f_equal.
    symmetry. rewrite <- Hkeep. apply filter_all, Forall_forall. reflexivity.
  - unfold delete. cbn [fst snd]. rewrite Hkeep, Hgone. reflexivity.
Qed.

(** X14 (emptyTrash).  [emptyTrash] removes the rows of the trash and no
    other row, and answers with their number, as long as the trash holds
    no more rows than the query behind it asks for (10000). *)
Theorem emptyTrash_removes_exactly_the_trash (h : History.t) :
  wf (db h) ->
  Z.of_nat (length (List.filter Persisted.trashed (db h))) <= 10000 ->
  emptyTrash h
  = (Returned (Z.of_nat (length (List.filter Persisted.trashed (db h)))),
     with_db h (List.filter (fun r => negb (Persisted.trashed r)) (db h))).
Proof.
  intros Hwf Hc. unfold emptyTrash.
  rewrite delete_selected_spec; [reflexivity | exact Hwf | reflexivity | cbn; lia | exact Hc].
Qed.

Lemma emptyTrash_removes_exactly_the_trash_witness :
  (emptyTrash (moveToTrash ["id-1"] Persisted.hello_world).2).1 = Returned 1
  /\ row_id <$> db (emptyTrash (moveToTrash ["id-1"] Persisted.hello_world).2).2
     = ["id-2"].
Proof.
  rewrite (emptyTrash_removes_exactly_the_trash
             (moveToTrash ["id-1"] Persisted.hello_world).2).
  - split; vm_compute; reflexivity.
  - split; by_evaluation.
  - vm_compute. discriminate.
Defined.

(** X15 (clearAllHistory).  [clearAllHistory] removes the rows that are
    neither pinned nor in the trash, and no other row: what is pinned and
    what is in the trash stays. It answers with the number of rows
    removed. (As long as there are no more such rows than the query behind
    it asks for.) *)
Theorem clearAllHistory_keeps_pinned_and_trash (h : History.t) :
  wf (db h) ->
  Z.of_nat (length (List.filter evictable (db h))) <= 10000 ->
  clearAllHistory h
  = (Returned (Z.of_nat (length (List.filter evictable (db h)))),
     with_db h (List.filter (fun r => negb (evictable r)) (db h)))
  /\ forall r, r ∈ db h -> pinned r = true \/ live r = false ->
       r ∈ db (clearAllHistory h).2.
Proof.
  intros Hwf Hc.
  assert (E : clearAllHistory h
              = (Returned (Z.of_nat (length (List.filter evictable (db h)))),
                 with_db h (List.filter (fun r => negb (evictable r)) (db h)))).
  { unfold clearAllHistory.
    rewrite delete_selected_spec;
      [reflexivity | exact Hwf | reflexivity | cbn; lia | exact Hc]. }
  split; [exact E |]. rewrite E. cbn [snd db with_db].
  intros r Hin Hr. apply elem_of_filter. split; [exact Hin |].
  apply Bool.negb_true_iff. destruct Hr as [Hp|Hd].
  - now apply pinned_not_evictable.
  - unfold evictable. rewrite Hd. apply Bool.andb_false_r.
Qed.

Lemma clearAllHistory_keeps_pinned_and_trash_witness :
  (clearAllHistory (pinItem "id-2" Persisted.hello_world).2).1 = Returned 1
  /\ row_id <$> db (clearAllHistory (pinItem "id-2" Persisted.hello_world).2).2
     = ["id-2"].
Proof.
  destruct (clearAllHistory_keeps_pinned_and_trash
              (pinItem "id-2" Persisted.hello_world).2) as [E _].
  - split; by_evaluation.
  - vm_compute. discriminate.
  - rewrite E. split; vm_compute; reflexivity.
Defined.


(** ** What enforcement leaves alone, and when it is done *)

(** X16 (enforcement and the trash).  Neither pass of
    [enforceStorageLimits] touches the trash: a row that is not live
    stays, whatever the limits and its age. The pass only removes rows, it
    keeps the order of the others and does not change the two settings. *)
Theorem enforcement_spares_the_trash (now : Z) (h : History.t) :
  wf (db h) ->
  db (enforceStorageLimits now h) `sublist_of` db h
  /\ maxItems (enforceStorageLimits now h) = maxItems h
  /\ retentionDays (enforceStorageLimits now h) = retentionDays h
  /\ forall r, r ∈ db h -> live r = false -> r ∈ db (enforceStorageLimits now h).
Proof.
  intros Hwf. split; [apply enforceStorageLimits_sublist |].
  rewrite (enforceStorageLimits_with_db now h) at 1 2.
  split; [reflexivity |]. split; [reflexivity |].
  intros r Hin Hdead.
  assert (Hno : evictable r = false).
  { unfold evictable. rewrite Hdead. apply Bool.andb_false_r. }
  apply survives; [exact Hwf | exact Hin | |].
  - intros Hv%count_victims_elem. destruct Hv. congruence.
  - intros Hv%retention_victims_elem. destruct Hv as (_ & ? & _). congruence.
Qed.

Lemma enforcement_spares_the_trash_witness :
  Forall (fun r => live r = false ->
                   r ∈ db (enforceStorageLimits (31 * 24 * 60 * 60 * 1000)
                             (moveToTrash ["id-1"] Persisted.hello_world).2))
         (db (moveToTrash ["id-1"] Persisted.hello_world).2)
  /\ row_id <$> db (enforceStorageLimits (31 * 24 * 60 * 60 * 1000)
                      (moveToTrash ["id-1"] Persisted.hello_world).2)
     = ["id-1"].
Proof.
  split; [|vm_compute; reflexivity].
  apply Forall_forall. intros r Hr Hd.
  apply (enforcement_spares_the_trash (31 * 24 * 60 * 60 * 1000)
           (moveToTrash ["id-1"] Persisted.hello_world).2);
    [split; by_evaluation | exact Hr | exact Hd].
Defined.
Lemma filter_partition_length {A} (f : A -> bool) (l : list A) :
  (length (List.filter f l) + length (List.filter (fun x => negb (f x)) l))%nat
  = length l.
Proof.
  induction l as [|x l IH]; [reflexivity |].
  cbn [List.filter]. destruct (f x); cbn [negb length]; lia.
Qed.

(** Deleting [n] live rows of the table lowers the number of live rows
    by [n]. *)
Lemma delete_live_rows (victims : list Row) (d : table) :
  wf d -> NoDup victims ->
  (forall v, v ∈ victims -> v ∈ d /\ live v = true) ->
  (length (List.filter live (delete (row_id <$> victims) d).2) + length victims)%nat
  = length (List.filter live d).
Proof.
  intros Hwf Hnd Hv. pose proof Hwf as [Hrows Hkey].
  set (ids := row_id <$> victims).
  assert (Hgone : List.filter (listed ids) d ≡ₚ victims).
  { apply NoDup_Permutation; [| exact Hnd |].
    - eapply sublist_NoDup; [|apply filter_sublist]. eapply NoDup_fmap_1, Hkey.
    - intros r. rewrite elem_of_filter. split.
      + intros [Hin Hl]. rewrite Forall_forall in Hrows.
        apply (listed_spec _ _ (Hrows r Hin)) in Hl.
        apply list_elem_of_fmap in Hl as (v & E & Hv').
        assert (r = v) as -> by (eapply NoDup_fmap_eq; eauto; now apply Hv).
        exact Hv'.
      + intros Hr. destruct (Hv r Hr) as [Hin _]. split; [exact Hin |].
        rewrite Forall_forall in Hrows.
        apply (listed_spec _ _ (Hrows r Hin)). now apply list_elem_of_fmap_2. }
  unfold delete. cbn [snd]. fold ids.
  rewrite <- (Permutation_length Hgone).
  rewrite (filter_filter_comm live).
  assert (Hall : List.filter (listed ids) d = List.filter (listed ids) (List.filter live d)).
  { rewrite (filter_filter_comm (listed ids)). symmetry. apply filter_all.
    apply Forall_forall. intros r Hr. apply Hv. now rewrite <- Hgone. }
  rewrite Hall. rewrite Nat.add_comm. apply filter_partition_length.
Qed.

Lemma live_sublist (l d : table) :
  l `sublist_of` d -> (length (List.filter live l) <= length (List.filter live d))%nat.
Proof. intros Hsub. apply sublist_length, sublist_filter_mono, Hsub. Qed.

(** An expired row that the retention query reaches is selected. *)
Lemma expired_is_victim (now : Z) (h : History.t) (r : Row) :
  0 < retentionDays h ->
  Z.of_nat (length (List.filter evictable (db h))) <= 10000 ->
  r ∈ db h -> evictable r = true -> row_timestamp r < cutoff now h ->
  r ∈ retention_victims now h.
Proof.
  intros Hdays Hcap Hin Hev Hold. unfold retention_victims.
  destruct (Z.ltb_spec 0 (retentionDays h)); [|lia].
  apply elem_of_filter. split; [|now apply Z.ltb_lt].
  unfold select, oldest. cbn [limit offset isPinned isDeleted orderDirection].
  change (List.filter _ (db h)) with (List.filter evictable (db h)).
  unfold sql_limit. change (10000 <? 0) with false. cbv iota.
  change (Z.to_nat 0) with 0%nat. rewrite drop_0, take_ge.
  - rewrite order_by_timestamp_perm. now apply elem_of_filter.
  - rewrite (Permutation_length (order_by_timestamp_perm _ _)). lia.
Qed.

(** After the count pass the store is within its limit, or it has no
    row left that the pass may remove. *)
Lemma after_count_settled (h : History.t) :
  wf (db h) ->
  count not_deleted (db (after_count h)) <= maxItems h
  \/ List.filter evictable (db (after_count h)) = [].
Proof.
  intros Hwf. unfold after_count at 1 2. unfold count_victims.
  change (count not_deleted (db h)) with (Z.of_nat (length (List.filter live (db h)))).
  set (total := Z.of_nat (length (List.filter live (db h)))).
  destruct (Z.ltb_spec (maxItems h) total) as [Hover|Hunder].
  2:{ left. cbn [fmap list_fmap db with_db]. rewrite delete_nil. exact Hunder. }
  set (k := total - maxItems h).
  set (E := List.filter evictable (db h)).
  set (S := order_by_timestamp ASC E).
  assert (HSE : S ≡ₚ E) by apply order_by_timestamp_perm.
  assert (Hsel : select (oldest k) (db h) = take (Z.to_nat k) S).
  { unfold select, oldest, sql_limit.
    cbn [limit offset isPinned isDeleted orderDirection].
    destruct (Z.ltb_spec k 0); [unfold k in *; lia |].
    change (Z.to_nat 0) with 0%nat. now rewrite drop_0. }
  rewrite Hsel. cbn [db with_db].
  assert (HEsub : E `sublist_of` db h) by apply filter_sublist.
  assert (HEnd : NoDup E).
  { eapply sublist_NoDup; [|exact HEsub]. eapply NoDup_fmap_1, Hwf. }
  assert (HSnd : NoDup S) by now rewrite HSE.
  assert (HSin : forall v, v ∈ S -> v ∈ db h /\ evictable v = true).
  { intros v Hv. rewrite HSE in Hv. now apply elem_of_filter in Hv. }
  destruct (Nat.le_gt_cases (length S) (Z.to_nat k)) as [Hall|Hsome].
  - right. rewrite take_ge by exact Hall.
    apply filter_none, Forall_forall. intros r Hr.
    apply (delete_rows_elem _ _ _ Hwf) in Hr as [Hin Hno];
      [|intros v Hv; now apply HSin].
    apply Bool.not_true_iff_false. intros Hev. apply Hno.
    rewrite HSE. now apply elem_of_filter.
  - left.
    pose proof (delete_live_rows (take (Z.to_nat k) S) (db h) Hwf) as Hlen.
    unfold count.
    change (List.filter (selected not_deleted)) with (List.filter live).
    rewrite length_take in Hlen.
    assert (Hlen' : (length (List.filter live
                        (delete (row_id <$> take (Z.to_nat k) S) (db h)).2)
                     + Z.to_nat k)%nat = length (List.filter live (db h))).
    { rewrite <- Hlen; [lia | |].
      - eapply sublist_NoDup; [exact HSnd | apply sublist_take].
      - intros v Hv. assert (Hv' : v ∈ S)
          by (eapply elem_of_sublist; [exact Hv | apply sublist_take]).
        destruct (HSin v Hv') as [Hin Hev]. split; [exact Hin |].
        unfold evictable in Hev. now apply andb_prop in Hev. }
    unfold total, k in *. lia.
Qed.

(** X17 (enforcement run twice).  Enforcement finishes its work in one
    run: a second run at the same time removes nothing more. (The
    hypothesis is the one under which the retention query reaches every
    candidate.) *)
Theorem enforceStorageLimits_idempotent (now : Z) (h : History.t) :
  wf (db h) ->
  (maxItems h <= 10000 \/ Z.of_nat (length (List.filter evictable (db h))) <= 10000) ->
  enforceStorageLimits now (enforceStorageLimits now h) = enforceStorageLimits now h.
Proof.
  intros Hwf Hcap.
  set (h1 := after_count h).
  set (h2 := enforceStorageLimits now h).
  pose proof (after_count_wf h Hwf) as Hwf1. fold h1 in Hwf1.
  assert (Hsub1 : db h1 `sublist_of` db h) by apply delete_sublist.
  assert (Eh2 : h2 = with_db h1 (delete (row_id <$> retention_victims now h1) (db h1)).2)
    by apply (enforceStorageLimits_spec now h Hwf).
  assert (Hsub2 : db h2 `sublist_of` db h1).
  { rewrite Eh2. cbn [db with_db]. apply delete_sublist. }
  assert (Hwf2 : wf (db h2)) by (eapply wf_sublist; eassumption).
  assert (Hm2 : maxItems h2 = maxItems h) by now rewrite Eh2.
  assert (Hr2 : retentionDays h2 = retentionDays h) by now rewrite Eh2.
  assert (Hcap1 : Z.of_nat (length (List.filter evictable (db h1))) <= 10000).
  { destruct Hcap as [Hmax|Hcap].
    - pose proof (after_count_evictable h Hwf) as Hbound. fold h1 in Hbound. lia.
    - pose proof (sublist_length _ _ (sublist_filter_mono evictable _ _ Hsub1)). lia. }
  (* the count pass has nothing to do *)
  assert (Hc : count_victims h2 = []).
  { unfold count_victims. rewrite Hm2.
    destruct (Z.ltb_spec (maxItems h) (count not_deleted (db h2))) as [Hover|];
      [|reflexivity].
    destruct (after_count_settled h Hwf) as [Hin|Hnone]; fold h1 in Hin || fold h1 in Hnone.
    - exfalso. pose proof (live_sublist _ _ Hsub2) as Hle.
      unfold count in *.
      change (List.filter (selected not_deleted)) with (List.filter live) in *. lia.
    - destruct (select _ (db h2)) as [|r rows] eqn:Es; [reflexivity |]. exfalso.
      assert (Hr : r ∈ select (oldest (count not_deleted (db h2) - maxItems h)) (db h2))
        by (rewrite Es; apply list_elem_of_here).
      apply select_elem in Hr as [Hin Hev].
      assert (Hin1 : r ∈ List.filter evictable (db h1)).
      { apply elem_of_filter. split; [|exact Hev].
        eapply elem_of_sublist; eassumption. }
      rewrite Hnone in Hin1. now apply elem_of_nil in Hin1. }
  assert (Eac : after_count h2 = h2).
  { unfold after_count. rewrite Hc. cbn [fmap list_fmap].
    now rewrite delete_nil, with_db_same. }
  (* neither has the retention pass *)
  assert (Hr : retention_victims now h2 = []).
  { destruct (retention_victims now h2) as [|r rows] eqn:Ev; [reflexivity |]. exfalso.
    assert (Hv : r ∈ retention_victims now h2) by (rewrite Ev; apply list_elem_of_here).
    pose proof Hv as Hv'. unfold retention_victims in Hv'.
    destruct (Z.ltb_spec 0 (retentionDays h2)) as [Hdays|];
      [|now apply elem_of_nil in Hv'].
    apply retention_victims_elem in Hv as (Hin & Hev & Hold).
    rewrite Eh2 in Hin. cbn [db with_db] in Hin.
    apply (delete_rows_elem _ _ _ Hwf1) in Hin as [Hin Hno];
      [|intros v Hv; now apply retention_victims_elem in Hv].
    apply Hno. apply expired_is_victim; try assumption.
    - change (retentionDays h1) with (retentionDays h). lia.
    - change (cutoff now h1) with (cutoff now h).
      unfold cutoff in *. rewrite Hr2 in Hold. exact Hold. }
  rewrite (enforceStorageLimits_spec now h2 Hwf2), Eac, Hr.
  cbn [fmap list_fmap]. now rewrite delete_nil, with_db_same.
Qed.

Lemma enforceStorageLimits_idempotent_witness :
  row_id <$> db (enforceStorageLimits 7 six_over_one) = ["f"]
  /\ enforceStorageLimits 7 (enforceStorageLimits 7 six_over_one)
     = enforceStorageLimits 7 six_over_one.
Proof.
  split; [vm_compute; reflexivity |].
  apply enforceStorageLimits_idempotent; [apply six_rows_wf |].
  left. vm_compute. discriminate.
Defined.

End LifecycleFacts.

(* ===================================================================== *)
(** * clipboardItem.js: clones, validity, factories and display            *)
(* ===================================================================== *)

Module ItemFacts.
Import Js ClipboardItemType ClipboardItem ClipboardItemFacts.

(** ** [clone] *)

(** X18 (clone).  A clone keeps fourteen properties of the item and loses
    six: the two paths of a stored image, [fileCount], [fileTypes],
    [isAllImages] and [thumbnails] are back at their defaults. *)
Theorem clone_drops_six_properties (this : t) (uuid : string) (now : Z) :
  id this <> EmptyString -> timestamp this <> 0 -> contentHash this <> EmptyString ->
  clone this uuid now
  = {| id := id this;
       type := type this;
       timestamp := timestamp this;
       isPinned := isPinned this;
       isDeleted := isDeleted this;
       contentHash := contentHash this;
       plainText := plainText this;
       richText := richText this;
       imageData := imageData this;
       imageThumbnail := imageThumbnail this;
       imagePath := None;
       thumbnailPath := None;
       filePaths := filePaths this;
       colorValue := colorValue this;
       sourceApplication := sourceApplication this;
       fileSize := fileSize this;
       fileCount := None;
       fileTypes := None;
       isAllImages := false;
       thumbnails := None |}.
Proof.
  intros Hid Hts Hh. unfold clone, new. init_fields.
  now rewrite (or_str_keeps _ _ Hid), (or_num_keeps _ _ Hts), (or_str_keeps _ _ Hh).
Qed.

Lemma clone_drops_six_properties_witness :
  imagePath (Blob.image_item
               {| ImageStorage.id := "img-1";
                  ImageStorage.imagePath := "/data/images/img-1.webp";
                  ImageStorage.thumbnailPath := "/data/thumbnails/img-1.jpg";
                  ImageStorage.fileSize := 6 |} "hash" None "unused" 1000)
  = Some "/data/images/img-1.webp"
  /\ imagePath (clone (Blob.image_item
               {| ImageStorage.id := "img-1";
                  ImageStorage.imagePath := "/data/images/img-1.webp";
                  ImageStorage.thumbnailPath := "/data/thumbnails/img-1.jpg";
                  ImageStorage.fileSize := 6 |} "hash" None "unused" 1000) "unused" 1)
     = None.
Proof.
  split; [reflexivity |].
  rewrite clone_drops_six_properties; [reflexivity | discriminate ..].
Defined.

(** ** [isValid] *)

(** X19 (isValid).  What [isValid] accepts. An item made from a text is
    valid. The item that the clipboard monitor builds for an image saved
    to the Blob Store keeps the paths and no bytes, and [isValid] rejects
    it, as it rejects every item of a type outside the six. *)
Theorem isValid_by_type :
  (forall text rich uuid now,
      uuid <> EmptyString -> now <> 0 -> isValid (fromText text rich uuid now) = true)
  /\ (forall saved hash app uuid now,
        isValid (Blob.image_item saved hash app uuid now) = false)
  /\ (forall this, type this ∉ supported -> isValid this = false).
Proof.
  split; [|split].
  - intros text rich uuid now Hu Hn. unfold isValid, fromText, new. init_fields.
    cbn [id type timestamp plainText or_str or_num].
    apply JsFacts.truthy_str_spec in Hu. rewrite Hu.
    destruct (Z.eqb_spec now 0); [contradiction |].
    now destruct (truthy_ostr rich).
  - intros saved hash app uuid now. unfold isValid, Blob.image_item, new. init_fields.
    cbn [id type timestamp imageData].
    now destruct (_ || _ || _)%bool.
  - intros this Hno. unfold isValid.
    destruct (_ || _ || _)%bool; [reflexivity |].
    repeat match goal with
      | |- context [String.eqb (type this) ?ty] =>
          destruct (String.eqb_spec (type this) ty) as [E|_];
          [exfalso; apply Hno; rewrite E; unfold supported; set_solver |]
      end.
    reflexivity.
Qed.

(** ** The factories *)

(** X20 (the factories).  [fromImage] and [fromFiles] refuse what is not a
    buffer and what is not a non-empty array. An item made by one of the
    four factories has the type of the factory, passes [isValid], and
    carries as [contentHash] the digest that [_generateContentHash]
    computes from the finished item: the two hashing routines agree on it. *)
Theorem factories_hash_like_the_instance (uuid : string) (now : Z) :
  uuid <> EmptyString -> now <> 0 ->
  (forall v thumb, (forall b, v <> JBuf b) ->
      fromImage v thumb uuid now = Threw "Image data must be a Buffer")
  /\ (forall v, (forall p ps, v <> JArr (p :: ps)) ->
        fromFiles v uuid now = Threw "File paths must be a non-empty array")
  /\ (forall text rich,
        let it := fromText text rich uuid now in
        isValid it = true /\ contentHash it = _generateContentHash it)
  /\ (forall b thumb, exists it,
        fromImage (JBuf b) thumb uuid now = Returned it
        /\ type it = IMAGE /\ imageData it = Some b
        /\ isValid it = true /\ contentHash it = _generateContentHash it)
  /\ (forall p ps, exists it,
        fromFiles (JArr (p :: ps)) uuid now = Returned it
        /\ type it = FILE /\ filePaths it = Some (p :: ps)
        /\ isValid it = true /\ contentHash it = _generateContentHash it)
  /\ (forall s,
        let it := fromColor (Some s) uuid now in
        type it = COLOR /\ isValid it = true
        /\ contentHash it = _generateContentHash it).
Proof.
  intros Hu Hn. apply JsFacts.truthy_str_spec in Hu.
  assert (Hnz : (now =? 0) = false) by now apply Z.eqb_neq.
  split; [intros [| | | |b|] thumb Hv; try reflexivity; now destruct (Hv b) |].
  split; [intros [| | | | |[|p ps]] Hv; try reflexivity; now destruct (Hv p ps) |].
  split; [|split; [|split]].
  - intros text rich it. split.
    + unfold it, isValid, fromText, new. init_fields.
      cbn [id type timestamp plainText or_str or_num]. rewrite Hu, Hnz.
      now destruct (truthy_ostr rich).
    + unfold it. rewrite fromText_contentHash.
      rewrite hash_of_text.
      * f_equal. unfold fromText, new. init_fields. cbn [plainText String_].
        now destruct text.
      * unfold fromText, new. init_fields. cbn [type].
        destruct (truthy_ostr rich); [now right | now left].
  - intros b thumb. eexists. split; [reflexivity |].
    split; [reflexivity |]. split; [reflexivity |]. split.
    + unfold isValid, new. init_fields.
      cbn [id type timestamp imageData or_str or_num]. now rewrite Hu, Hnz.
    + unfold new, generateHash. init_fields. cbn [contentHash].
      rewrite (or_str_keeps _ _ (sha256_hex_nonempty _)).
      now rewrite hash_of_image.
  - intros p ps. eexists. split; [reflexivity |].
    split; [reflexivity |]. split; [reflexivity |]. split.
    + unfold isValid, new. init_fields.
      cbn [id type timestamp filePaths or_str or_num]. now rewrite Hu, Hnz.
    + unfold new, generateHash. init_fields. cbn [contentHash].
      rewrite (or_str_keeps _ _ (sha256_hex_nonempty _)).
      rewrite hash_of_files; [reflexivity | now left].
  - intros s it. split; [reflexivity |]. split.
    + unfold it, isValid, fromColor, new. init_fields.
      cbn [id type timestamp colorValue or_str or_num]. now rewrite Hu, Hnz.
    + unfold it, fromColor, new, generateHash. init_fields. cbn [contentHash String_].
      rewrite (or_str_keeps _ _ (sha256_hex_nonempty _)).
      rewrite hash_of_color by reflexivity. cbn [colorValue].
      destruct s; reflexivity.
Qed.

Lemma factories_hash_like_the_instance_witness :
  exists it,
    fromFiles (JArr ["/path/to/file1.txt"; "/path/to/file2.txt"]) "0b5c" 1700000000000
    = Returned it
    /\ isValid it = true /\ contentHash it = _generateContentHash it.
Proof.
  destruct (factories_hash_like_the_instance "0b5c" 1700000000000)
    as (_ & _ & _ & _ & Hfiles & _); [discriminate | lia |].
  destruct (Hfiles "/path/to/file1.txt" ["/path/to/file2.txt"])
    as (it & E & _ & _ & Hv & Hh).
  now exists it.
Defined.

(** ** Relative times *)

Lemma nested_floors (d : Z) :
  d / 1000 / 60 = d / 60000
  /\ d / 1000 / 60 / 60 = d / 3600000
  /\ d / 1000 / 60 / 60 / 24 = d / 86400000.
Proof.
  assert (E1 : d / 1000 / 60 = d / 60000) by (rewrite Z.div_div by lia; reflexivity).
  assert (E2 : d / 60000 / 60 = d / 3600000) by (rewrite Z.div_div by lia; reflexivity).
  assert (E3 : d / 3600000 / 24 = d / 86400000) by (rewrite Z.div_div by lia; reflexivity).
  now rewrite E1, E2, E3.
Qed.

Lemma floor_below (d k n : Z) : 0 < k -> (d / k <? n) = (d <? n * k).
Proof.
  intros Hk. destruct (Z.ltb_spec (d / k) n) as [H|H], (Z.ltb_spec d (n * k)) as [H'|H'];
    try reflexivity; exfalso.
  - apply (Z.div_le_mono _ _ k Hk) in H'. rewrite Z.div_mul in H' by lia. lia.
  - rewrite Z.mul_comm in H'. apply (Z.div_lt_upper_bound d k n Hk) in H'. lia.
Qed.

(** X21 (relative time).  The thresholds of [getRelativeTime], and of
    [formatTimestamp] in the sidebar, in milliseconds: below one minute
    both say "Just now"; then come the minutes (1 to 59), the hours (1 to
    23) and the days, whose number is the elapsed time divided, and
    rounded down, by the length of the unit. After seven days
    [getRelativeTime] prints the date, while the sidebar goes on counting
    days. *)
Theorem relative_time_thresholds (toLocaleDateString : Z -> string) (this : t) (now : Z) :
  let d := now - timestamp this in
  getRelativeTime toLocaleDateString this now
  = (if d <? 60000 then "Just now"
     else if d <? 3600000
     then pretty (d / 60000) +:+ " minute" +:+ plural (d / 60000) +:+ " ago"
     else if d <? 86400000
     then pretty (d / 3600000) +:+ " hour" +:+ plural (d / 3600000) +:+ " ago"
     else if d <? 604800000
     then pretty (d / 86400000) +:+ " day" +:+ plural (d / 86400000) +:+ " ago"
     else toLocaleDateString (timestamp this))
  /\ Renderer.formatTimestamp (timestamp this) now
     = (if d <? 60000 then "Just now"
        else if d <? 3600000 then pretty (d / 60000) +:+ "m ago"
        else if d <? 86400000 then pretty (d / 3600000) +:+ "h ago"
        else pretty (d / 86400000) +:+ "d ago")
  /\ (60000 <= d < 3600000 -> 1 <= d / 60000 <= 59)
  /\ (3600000 <= d < 86400000 -> 1 <= d / 3600000 <= 23)
  /\ (86400000 <= d < 604800000 -> 1 <= d / 86400000 <= 6).
Proof.
  intros d. unfold getRelativeTime, Renderer.formatTimestamp. fold d. cbv zeta.
  destruct (nested_floors d) as (-> & -> & ->).
  rewrite (floor_below d 1000 60), (floor_below d 60000 60),
    (floor_below d 3600000 24), (floor_below d 86400000 7) by lia.
  change (60 * 1000) with 60000. change (60 * 60000) with 3600000.
  change (24 * 3600000) with 86400000. change (7 * 86400000) with 604800000.
  split; [reflexivity |]. split; [reflexivity |].
  repeat split; intros; (apply Z.div_le_lower_bound || apply Zlt_succ_le, Z.div_lt_upper_bound);
    lia.
Qed.

Example relative_time_examples :
  getRelativeTime (fun _ => "a date") (fromText "x" None "id" 1000) (1000 + 59999)
  = "Just now"
  /\ getRelativeTime (fun _ => "a date") (fromText "x" None "id" 1000) (1000 + 119999)
     = "1 minute ago"
  /\ getRelativeTime (fun _ => "a date") (fromText "x" None "id" 1000) (1000 + 7200000)
     = "2 hours ago"
  /\ getRelativeTime (fun _ => "a date") (fromText "x" None "id" 1000) (1000 + 604800000)
     = "a date"
  /\ Renderer.formatTimestamp 1000 (1000 + 604800000) = "7d ago"
  /\ Renderer.formatTimestamp 2000 1000 = "Just now".
Proof. repeat (split; [vm_compute; reflexivity |]). vm_compute. reflexivity. Qed.

(** ** [_getFileName] *)

Lemma split_nonempty (sep : ascii) (s : string) : split sep s <> [].
Proof.
  destruct s as [|c s]; cbn [split]; [discriminate |].
  destruct (Ascii.eqb c sep); [discriminate |].
  destruct (split sep s); discriminate.
Qed.

Lemma includes_slash (c : ascii) (s : string) :
  includes "/" (String c s) = Ascii.eqb c "/" || includes "/" s.
Proof.
  cbn [includes String.prefix].
  destruct (ascii_dec "/" c) as [<-|Hne].
  - now destruct s.
  - destruct (Ascii.eqb_spec c "/"); [congruence | reflexivity].
Qed.

Lemma split_no_separator (s : string) :
  includes "/" s = false -> split "/" s = [s].
Proof.
  induction s as [|c s IH]; [reflexivity |].
  rewrite includes_slash. intros [Hc Hs]%Bool.orb_false_elim.
  cbn [split]. now rewrite Hc, (IH Hs).
Qed.

Lemma split_append (a b : string) :
  split "/" (a +:+ "/" +:+ b) = app (split "/" a) (split "/" b).
Proof.
  induction a as [|c a IH].
  - reflexivity.
  - rewrite JsFacts.append_cons. cbn [split]. rewrite IH.
    destruct (Ascii.eqb c "/"); [reflexivity |].
    destruct (split "/" a) as [|p ps] eqn:E; [now apply split_nonempty in E |].
    reflexivity.
Qed.

Lemma getFileName_pieces (a b : string) :
  _getFileName (a +:+ "/" +:+ b) = or_str (last (split "/" b)) (a +:+ "/" +:+ b).
Proof.
  unfold _getFileName. rewrite split_append.
  destruct (split "/" b) as [|p ps] eqn:E; [now apply split_nonempty in E |].
  rewrite last_app_cons. 
  destruct (JsFacts.append_nonempty a "/" b) as (x & y & Ep).
  change (a +:+ "/" +:+ b) with (a +:+ String "/" b). rewrite Ep. reflexivity.
Qed.

(** X22 (file name of a path).  [_getFileName] returns what follows the
    last slash of the path: a name without slash, when the path has no
    slash, is returned as it is, and [dir/name] gives [name]. A path that
    ends in a slash is returned whole, slashes included, its last piece
    being empty. *)
Theorem getFileName_last_piece :
  (forall name, includes "/" name = false -> _getFileName name = name)
  /\ (forall dir name,
        includes "/" name = false -> name <> EmptyString ->
        _getFileName (dir +:+ "/" +:+ name) = name)
  /\ (forall dir, _getFileName (dir +:+ "/") = dir +:+ "/").
Proof.
  split; [|split].
  - intros name Hno. unfold _getFileName.
    destruct name as [|c name]; [reflexivity |]. cbn [truthy_str negb].
    rewrite (split_no_separator _ Hno). reflexivity.
  - intros dir name Hno Hne.
    rewrite getFileName_pieces, (split_no_separator _ Hno).
    now apply or_str_keeps.
  - intros dir. change (dir +:+ "/") with (dir +:+ "/" +:+ EmptyString).
    rewrite getFileName_pieces. reflexivity.
Qed.

Example getFileName_examples :
  _getFileName "/path/to/file1.txt" = "file1.txt"
  /\ _getFileName "notes.md" = "notes.md"
  /\ _getFileName "/Users/me/Documents/" = "/Users/me/Documents/"
  /\ _getFileName EmptyString = EmptyString.
Proof. repeat split. Qed.

(** ** [matchesSearch] *)

Lemma prefix_refl (s : string) : String.prefix s s = true.
Proof.
  induction s as [|c s IH]; [reflexivity |].
  cbn [String.prefix]. destruct (ascii_dec c c); [exact IH | contradiction].
Qed.

Lemma includes_refl (s : string) : includes s s = true.
Proof. destruct s; cbn [includes]; now rewrite prefix_refl. Qed.

(** X23 (matchesSearch).  The empty query matches every item. A query that
    is not empty never matches an image (nor an item of an unknown type),
    whatever the item holds; it matches a text item whose text it is, and
    a file item one of whose paths it is. *)
Theorem matchesSearch_edge_cases (toLowerCase : string -> string) :
  (forall this, matchesSearch toLowerCase this EmptyString = true)
  /\ (forall this q, q <> EmptyString ->
        type this = IMAGE \/ type this ∉ supported ->
        matchesSearch toLowerCase this q = false)
  /\ (forall this q, q <> EmptyString ->
        type this = TEXT \/ type this = RICH_TEXT ->
        plainText this = Some q -> matchesSearch toLowerCase this q = true)
  /\ (forall this q l, q <> EmptyString ->
        type this = FILE \/ type this = MULTI_FILE ->
        filePaths this = Some l -> q ∈ l -> matchesSearch toLowerCase this q = true).
Proof.
  split; [reflexivity |]. split; [|split].
  - intros this q Hq%JsFacts.truthy_str_spec Hty. unfold matchesSearch. rewrite Hq.
    cbn [negb]. destruct Hty as [E|Hno]; [now rewrite E |].
    repeat match goal with
      | |- context [String.eqb (type this) ?ty] =>
          destruct (String.eqb_spec (type this) ty) as [E|_];
          [exfalso; apply Hno; rewrite E; unfold supported; set_solver |]
      end.
    reflexivity.
  - intros this q Hq%JsFacts.truthy_str_spec Hty Hp. unfold matchesSearch.
    rewrite Hq, Hp, Hq, includes_refl. cbn [negb andb].
    now destruct Hty as [-> | ->].
  - intros this q l Hq%JsFacts.truthy_str_spec Hty Hl Hin. unfold matchesSearch.
    rewrite Hq, Hl. cbn [negb].
    assert (Hex : existsb (fun path => includes (toLowerCase q) (toLowerCase path)) l = true).
    { apply List.existsb_exists. exists q.
      split; [now apply list_elem_of_In | apply includes_refl]. }
    rewrite Hex. now destruct Hty as [-> | ->].
Qed.

End ItemFacts.

(* ===================================================================== *)
(** * imageStorageManager.js: the thumbnail of a saved image             *)
(* ===================================================================== *)

Module BlobFacts.
Import Js ImageStorage Blob JsFacts ImageStorageFacts.

Section Thumbnails.
Context `{Sharp}.

(** X24 (thumbnail round trip).  The thumbnail, unlike the full image, is
    found again: save and read agree on [<id>.jpg]. After [saveImage]
    returned an id that passes the check of the read path, [readThumbnail]
    gives the bytes the encoder produced; [deleteImage] answers true and
    removes the thumbnail, after which [readThumbnail] gives null. *)
Theorem thumbnail_saved_read_deleted (m : t) (buf : Buffer) (id0 : value)
    (uuid : string) (fs fs' : FS) (r : saved) :
  saveImage m buf id0 uuid fs = (Returned r, fs') ->
  rejects (JStr (id r)) = false ->
  readThumbnail m (JStr (id r)) fs' = Returned (jpeg_thumbnail buf)
  /\ is_Some (jpeg_thumbnail buf)
  /\ (deleteImage m (JStr (id r)) fs').1 = Returned true
  /\ readThumbnail m (JStr (id r)) (deleteImage m (JStr (id r)) fs').2 = Returned None.
Proof.
  intros Hsave Hok.
  destruct (saveImage_returned _ _ _ _ _ _ _ Hsave)
    as (c & th & Hc & Hth & Hid & Himg & Hthumb & ->).
  assert (Hpath : getThumbnailPath m (JStr (id r)) = thumbnailPath r)
    by now rewrite Hthumb.
  unfold readThumbnail, deleteImage. rewrite Hok, Hpath.
  split; [now rewrite lookup_insert_eq, Hth |].
  split; [rewrite Hth; eauto |]. split; [reflexivity |].
  cbn [snd String_]. rewrite <- Hthumb. now rewrite lookup_delete_eq.
Qed.

End Thumbnails.

Lemma thumbnail_saved_read_deleted_witness :
  readThumbnail data_root (JStr "img-1") saved_capture.2 = Returned (Some (take 4 png_bytes))
  /\ readThumbnail data_root (JStr "img-1")
       (deleteImage data_root (JStr "img-1") saved_capture.2).2 = Returned None.
Proof.
  destruct (@thumbnail_saved_read_deleted plain_sharp data_root png_bytes JNull "img-1" ∅
              saved_capture.2
              {| id := "img-1"; imagePath := "/data/images/img-1.webp";
                 thumbnailPath := "/data/thumbnails/img-1.jpg"; fileSize := 6 |}
              eq_refl eq_refl)
    as (Hread & _ & _ & Hgone).
  split; [exact Hread | exact Hgone].
Defined.

End BlobFacts.

(* ===================================================================== *)
(** * preferencesManager.js and permissionManager.js                     *)
(* ===================================================================== *)

Module PreferencesFacts.
Import Js PreferencesManager.

(** ** [validateUpdates] *)

Lemma clamp_ranged (N : string -> option Z) (lo hi : Z) (v : pvalue) (hp : heap) :
  lo <= hi -> ranged lo hi (clamp N lo hi v hp).
Proof.
  intros Hle. unfold clamp. destruct (to_number N v hp) as [n|]; [|now left].
  right. exists (Z.max lo (Z.min hi n)). split; [reflexivity | lia].
Qed.

Lemma validate_entry_meets (N : string -> option Z) (m : t) (key : string)
    (v v' : pvalue) (hp hp' : heap) :
  validate_entry N m key v hp = (Some v', hp') -> meets key v'.
Proof.
  unfold validate_entry, meets.
  destruct (negb (known key m)); [discriminate |].
  repeat match goal with
    | |- context [String.eqb key ?k] => destruct (String.eqb key k)
    end;
    try (intros [= <- _]; first [ apply clamp_ranged; lia | exact I ]).
  - intros [= <- _]. unfold one_of. destruct v as [| | | |s|]; try now right.
    destruct (existsb _ _) eqn:E; [|now right].
    cbn [existsb] in E. repeat (apply Bool.orb_prop in E as [E|E]);
      try discriminate; apply String.eqb_eq in E; subst; auto.
  - intros [= <- _]. unfold one_of. destruct v as [| | | |s|]; try now left.
    destruct (existsb _ _) eqn:E; [|now left].
    cbn [existsb] in E. repeat (apply Bool.orb_prop in E as [E|E]);
      try discriminate; apply String.eqb_eq in E; subst; auto.
  - destruct v; intros [= <- _]; eauto.
  - destruct v as [| | | |s|]; try discriminate.
    destruct (truthy_str s) eqn:E; [|discriminate]. intros [= <- _].
    exists s. split; [reflexivity | now destruct s].
Qed.

Lemma validate_fold_meets (N : string -> option Z) (m : t)
    (updates : list (string * pvalue)) :
  forall acc : gmap string pvalue * heap,
    (forall k v, acc.1 !! k = Some v -> meets k v) ->
    forall k v,
      (foldl (fun acc kv =>
                let r := validate_entry N m kv.1 kv.2 acc.2 in
                (match r.1 with
                 | Some v => <[kv.1 := v]> acc.1
                 | None => acc.1
                 end, r.2)) acc updates).1 !! k = Some v ->
      meets k v.
Proof.
  induction updates as [|[key val] updates IH]; intros acc Hacc; [exact Hacc |].
  cbn [foldl]. apply IH. cbn [fst snd].
  destruct (validate_entry N m key val acc.2) as [[v'|] hp'] eqn:E; cbn [fst snd];
    [|exact Hacc].
  intros k v. rewrite lookup_insert. case_decide as Hk.
  - intros [= <-]. subst k. eapply validate_entry_meets, E.
  - apply Hacc.
Qed.

Lemma known_default (m : t) (key : string) :
  defaults m = defaults (new None) -> key ∈ defaults_literal.*1 ->
  known key m = true.
Proof.
  intros Hd Hk. unfold known. apply Bool.orb_true_iff. left.
  apply bool_decide_eq_true. rewrite Hd.
  apply list_elem_of_fmap in Hk as [[k v] [-> Hk]].
  unfold defaults_literal in Hk.
  repeat (apply elem_of_cons in Hk as [[= -> ->]|Hk]);
    try (now apply elem_of_nil in Hk); now vm_compute; eauto.
Qed.

Lemma validate_entry_assigns (N : string -> option Z) (m : t) (key : string)
    (v : pvalue) (hp : heap) :
  defaults m = defaults (new None) -> key ∈ defaults_literal.*1 ->
  key <> "globalHotkey" ->
  is_Some (validate_entry N m key v hp).1.
Proof.
  intros Hd Hk Hne. unfold validate_entry.
  rewrite (known_default m key Hd Hk). cbn [negb].
  apply list_elem_of_fmap in Hk as [[k w] [-> Hk]].
  unfold defaults_literal in Hk.
  repeat (apply elem_of_cons in Hk as [[= -> ->]|Hk]);
    try (now apply elem_of_nil in Hk); try (now cbn; eauto);
    try contradiction.
  cbn. destruct v; cbn; eauto.
Qed.

Lemma validate_fold_assigns (N : string -> option Z) (m : t) (key : string)
    (updates : list (string * pvalue)) :
  (forall v hp, is_Some (validate_entry N m key v hp).1) ->
  forall acc : gmap string pvalue * heap,
    is_Some (acc.1 !! key) \/ key ∈ updates.*1 ->
    is_Some ((foldl (fun acc kv =>
                let r := validate_entry N m kv.1 kv.2 acc.2 in
                (match r.1 with
                 | Some v => <[kv.1 := v]> acc.1
                 | None => acc.1
                 end, r.2)) acc updates).1 !! key).
Proof.
  intros Hassign. induction updates as [|[k val] updates IH]; intros acc Hacc.
  - destruct Hacc as [Hacc|Hacc]; [exact Hacc | now apply elem_of_nil in Hacc].
  - cbn [foldl]. apply IH. cbn [fst snd].
    destruct (decide (k = key)) as [->|Hk].
    + left. destruct (Hassign val acc.2) as [v' Hv']. rewrite Hv'.
      rewrite lookup_insert. case_decide; [eauto | contradiction].
    + destruct Hacc as [Hacc|Hacc].
      * left. destruct (validate_entry N m k val acc.2).1; [|exact Hacc].
        rewrite lookup_insert_ne by exact Hk. exact Hacc.
      * right. cbn [fmap list_fmap fst] in Hacc.
        apply elem_of_cons in Hacc as [Hacc|Hacc]; [congruence | exact Hacc].
Qed.

Lemma validate_fold_unknown (N : string -> option Z) (m : t) (key : string)
    (updates : list (string * pvalue)) :
  known key m = false ->
  forall acc : gmap string pvalue * heap,
    acc.1 !! key = None ->
    (foldl (fun acc kv =>
                let r := validate_entry N m kv.1 kv.2 acc.2 in
                (match r.1 with
                 | Some v => <[kv.1 := v]> acc.1
                 | None => acc.1
                 end, r.2)) acc updates).1 !! key = None.
Proof.
  intros Hunk. induction updates as [|[k val] updates IH]; intros acc Hacc;
    [exact Hacc |].
  cbn [foldl]. apply IH. cbn [fst snd].
  destruct (decide (k = key)) as [->|Hk].
  - unfold validate_entry. rewrite Hunk. exact Hacc.
  - destruct (validate_entry N m k val acc.2).1; [|exact Hacc].
    rewrite lookup_insert_ne by exact Hk. exact Hacc.
Qed.

Lemma new_meets (k : string) (v : pvalue) :
  get k (new None) = Some v -> meets k v.
Proof.
  unfold get, new. cbn [preferences]. intros Hk.
  apply elem_of_list_to_map_2 in Hk. unfold defaults_literal in Hk.
  repeat (apply elem_of_cons in Hk as [[= -> ->]|Hk]);
    try (now apply elem_of_nil in Hk);
    try exact I;
    try (right; eexists; split; [reflexivity | lia]).
  - exists "Command+L". split; [reflexivity | discriminate].
  - now right.
  - now exists 0%nat.
  - now left.
Qed.

(** X25 (validation of preferences).  Whatever [update] is handed, the
    preferences it leaves obey the rules of [validateUpdates]: every
    preference of the defaults that the update names, the hotkey apart,
    ends with a value that meets the rule of its key (a width within 300
    and 800 or [NaN], a position that is left or right, ...); every value
    that differs from before meets its rule; and a key that is not a key
    of the defaults changes nothing. *)
Theorem update_validates (N : string -> option Z)
    (updates : list (string * pvalue)) (m : t) :
  defaults m = defaults (new None) ->
  let m' := (update N updates m).2 in
  (forall key, key ∈ updates.*1 -> key ∈ defaults_literal.*1 ->
     key <> "globalHotkey" ->
     exists v, get key m' = Some v /\ meets key v)
  /\ (forall key v, get key m' = Some v -> get key m = Some v \/ meets key v)
  /\ (forall key, known key m = false -> get key m' = get key m).
Proof.
  intros Hd m'. unfold m', update, get, validateUpdates. cbn [snd preferences].
  assert (Hmeets : forall k v,
    (foldl (fun acc kv =>
                let r := validate_entry N m kv.1 kv.2 acc.2 in
                (match r.1 with
                 | Some v => <[kv.1 := v]> acc.1
                 | None => acc.1
                 end, r.2)) ((∅ : gmap string pvalue), arrays m) updates).1 !! k
    = Some v -> meets k v).
  { apply validate_fold_meets. intros k v. cbn [fst]. now rewrite lookup_empty. }
  split; [|split].
  - intros key Hin Hkey Hne.
    destruct (validate_fold_assigns N m key updates) with (acc := (∅ : gmap string pvalue, arrays m))
      as [v Hv].
    + intros v hp. now apply validate_entry_assigns.
    + now right.
    + exists v. split; [|now apply Hmeets].
      apply lookup_union_Some_raw. now left.
  - intros key v Hv. apply lookup_union_Some_raw in Hv as [Hv|[_ Hv]].
    + right. now apply Hmeets.
    + now left.
  - intros key Hunk. apply lookup_union_r.
    apply validate_fold_unknown; [exact Hunk | apply lookup_empty].
Qed.

Lemma update_validates_witness :
  let m' := (update Number_on_examples
               [("sidebarWidth", PStr "500"); ("theme", PStr "blue");
                ("maxHistoryItems", PNum 5); ("colour", PStr "red")]
               (new None)).2 in
  get "sidebarWidth" m' = Some (PNum 500)
  /\ get "theme" m' = Some (PStr "system")
  /\ get "maxHistoryItems" m' = Some (PNum 100)
  /\ get "colour" m' = None
  /\ (forall key v, get key m' = Some v -> meets key v).
Proof.
  intros m'.
  repeat (split; [vm_compute; reflexivity |]).
  intros key v Hv.
  destruct (update_validates Number_on_examples
              [("sidebarWidth", PStr "500"); ("theme", PStr "blue");
               ("maxHistoryItems", PNum 5); ("colour", PStr "red")]
              (new None) eq_refl) as (_ & Hkeep & _).
  destruct (Hkeep key v Hv) as [Hold|Hnew]; [|exact Hnew].
  now apply new_meets.
Defined.

(** ** The exclusion list *)

Lemma update_exclusions (N : string -> option Z) (m : t) (a : nat) :
  defaults m = defaults (new None) ->
  (update N [("excludedApplications", PArr a)] m).2
  = {| defaults := defaults m;
       preferences := <["excludedApplications" := PArr a]> (preferences m);
       arrays := arrays m |}.
Proof.
  intros Hd. unfold update, validateUpdates. cbn [foldl fst snd].
  unfold validate_entry. rewrite known_default; [| exact Hd | now vm_compute; set_solver].
  cbn. f_equal. rewrite <- insert_union_l. f_equal. apply (left_id_L ∅ (∪)).
Qed.

Lemma excluded_inv (m : t) (l : list string) :
  excluded m = Some l ->
  exists a, preferences m !! "excludedApplications" = Some (PArr a)
            /\ arrays m !! a = Some l.
Proof.
  unfold excluded.
  destruct (preferences m !! "excludedApplications") as [[| | | | |a]|];
    try discriminate.
  intros Ha. now exists a.
Qed.

Lemma isApplicationExcluded_spec (appName : string) (m : t) (l : list string) :
  excluded m = Some l ->
  isApplicationExcluded appName m = Returned (existsb (String.eqb appName) l).
Proof.
  intros (a & Hp & Ha)%excluded_inv. unfold isApplicationExcluded.
  now rewrite Hp, Ha.
Qed.

Lemma addExcludedApplication_spec (N : string -> option Z) (appName : string)
    (m : t) (a : nat) (l : list string) :
  defaults m = defaults (new None) ->
  preferences m !! "excludedApplications" = Some (PArr a) ->
  arrays m !! a = Some l ->
  addExcludedApplication N appName m
  = (Returned tt,
     if existsb (String.eqb appName) l then m
     else {| defaults := defaults m; preferences := preferences m;
             arrays := <[a := app l [appName]]> (arrays m) |}).
Proof.
  intros Hd Hp Ha. unfold addExcludedApplication. rewrite Hp, Ha.
  change (default [] (Some l)) with l.
  destruct (existsb (String.eqb appName) l); [reflexivity |].
  f_equal. rewrite update_exclusions by exact Hd. cbn [defaults preferences arrays].
  f_equal. now apply insert_id.
Qed.

Lemma removeExcludedApplication_spec (N : string -> option Z) (appName : string)
    (m : t) (a : nat) (l : list string) :
  defaults m = defaults (new None) ->
  preferences m !! "excludedApplications" = Some (PArr a) ->
  arrays m !! a = Some l ->
  removeExcludedApplication N appName m
  = (Returned tt,
     {| defaults := defaults m;
        preferences :=
          <["excludedApplications" := PArr (length (arrays m))]> (preferences m);
        arrays :=
          app (arrays m)
              [List.filter (fun name => negb (String.eqb name appName)) l] |}).
Proof.
  intros Hd Hp Ha. unfold removeExcludedApplication. rewrite Hp, Ha.
  change (default [] (Some l)) with l. cbn [alloc fst snd]. f_equal.
  now rewrite update_exclusions by exact Hd.
Qed.

Lemma existsb_eqb_elem (s : string) (l : list string) :
  existsb (String.eqb s) l = true <-> s ∈ l.
Proof.
  rewrite existsb_exists. split.
  - intros (x & Hx & ->%String.eqb_eq). now apply list_elem_of_In.
  - intros Hs. exists s. split; [now apply list_elem_of_In | apply String.eqb_refl].
Qed.

Lemma existsb_removed (appName other : string) (l : list string) :
  existsb (String.eqb other)
          (List.filter (fun name => negb (String.eqb name appName)) l)
  = existsb (String.eqb other) l && negb (String.eqb other appName).
Proof.
  induction l as [|x l IH]; [reflexivity |]. cbn [List.filter existsb].
  destruct (String.eqb_spec x appName) as [->|Hx]; cbn [negb existsb].
  - rewrite IH. destruct (String.eqb_spec other appName) as [->|Ho];
      cbn [negb orb]; [now rewrite !Bool.andb_false_r | reflexivity].
  - rewrite IH. destruct (String.eqb_spec other x) as [->|Ho]; cbn [orb]; [|reflexivity].
    destruct (String.eqb_spec x appName); [contradiction |].
    cbn [negb]. now rewrite Bool.andb_true_r.
Qed.

Lemma existsb_pushed (appName other : string) (l : list string) :
  existsb (String.eqb other) (app l [appName])
  = existsb (String.eqb other) l || String.eqb other appName.
Proof.
  rewrite existsb_app. cbn [existsb]. now rewrite Bool.orb_false_r.
Qed.

(** X26 (exclusion list).  The exclusion list behaves as a set of names.
    After [addExcludedApplication(app)] the list is the old one with [app]
    at its end, unless it was there already; [app] is excluded; and a
    second call changes nothing. After [removeExcludedApplication(app)]
    the list is the old one without [app]; [app] is not excluded and the
    other names are excluded exactly as they were before. *)
Theorem exclusion_list_add_remove (N : string -> option Z) (appName : string)
    (m : t) (l : list string) :
  defaults m = defaults (new None) ->
  excluded m = Some l ->
  let m1 := (addExcludedApplication N appName m).2 in
  let m2 := (removeExcludedApplication N appName m1).2 in
  excluded m1 = Some (if existsb (String.eqb appName) l then l else app l [appName])
  /\ isApplicationExcluded appName m1 = Returned true
  /\ addExcludedApplication N appName m1 = (Returned tt, m1)
  /\ excluded m2
     = Some (List.filter (fun name => negb (String.eqb name appName)) l)
  /\ isApplicationExcluded appName m2 = Returned false
  /\ (forall other, other <> appName ->
        isApplicationExcluded other m2 = isApplicationExcluded other m).
Proof.
  intros Hd Hl m1 m2. pose proof Hl as (a & Hp & Ha)%excluded_inv.
  assert (Hlt : (a < length (arrays m))%nat) by (eapply lookup_lt_Some, Ha).
  set (l1 := if existsb (String.eqb appName) l then l else app l [appName]).
  assert (H1 : excluded m1 = Some l1
               /\ defaults m1 = defaults (new None)
               /\ preferences m1 !! "excludedApplications" = Some (PArr a)
               /\ arrays m1 !! a = Some l1).
  { unfold m1, l1, excluded.
    rewrite (addExcludedApplication_spec N appName m a l Hd Hp Ha). cbn [snd].
    destruct (existsb (String.eqb appName) l); cbn [defaults preferences arrays].
    - rewrite Hp. auto.
    - rewrite Hp. unfold heap in *. rewrite list_lookup_insert_eq by exact Hlt. auto. }
  destruct H1 as (Hl1 & Hd1 & Hp1 & Ha1).
  assert (Hin1 : existsb (String.eqb appName) l1 = true).
  { unfold l1. destruct (existsb (String.eqb appName) l) eqn:E; [exact E |].
    rewrite existsb_pushed, String.eqb_refl. apply Bool.orb_true_r. }
  assert (Hl2 : excluded m2
                = Some (List.filter (fun name => negb (String.eqb name appName)) l1)).
  { unfold m2, excluded.
    rewrite (removeExcludedApplication_spec N appName m1 a l1 Hd1 Hp1 Ha1).
    cbn [snd preferences arrays]. rewrite lookup_insert_eq.
    unfold heap in *. now rewrite lookup_app_r, Nat.sub_diag by lia. }
  assert (Hsame : List.filter (fun name => negb (String.eqb name appName)) l1
                  = List.filter (fun name => negb (String.eqb name appName)) l).
  { unfold l1. destruct (existsb (String.eqb appName) l); [reflexivity |].
    rewrite List.filter_app. cbn [List.filter]. rewrite String.eqb_refl.
    cbn [negb]. apply app_nil_r. }
  split; [exact Hl1 |]. split.
  { rewrite (isApplicationExcluded_spec appName m1 l1 Hl1). now rewrite Hin1. }
  split.
  { rewrite (addExcludedApplication_spec N appName m1 a l1 Hd1 Hp1 Ha1).
    now rewrite Hin1. }
  split; [now rewrite Hl2, Hsame |]. split.
  - rewrite (isApplicationExcluded_spec appName m2 _ Hl2).
    rewrite existsb_removed, String.eqb_refl. cbn [negb].
    now rewrite Bool.andb_false_r.
  - intros other Hne.
    rewrite (isApplicationExcluded_spec other m2 _ Hl2), Hsame.
    rewrite (isApplicationExcluded_spec other m l Hl).
    rewrite existsb_removed. destruct (String.eqb_spec other appName);
      [contradiction |]. cbn [negb]. now rewrite Bool.andb_true_r.
Qed.

Lemma exclusion_list_add_remove_witness :
  defaults (new None) = defaults (new None)
  /\ excluded (new None) = Some []
  /\ excluded (addExcludedApplication Number_on_examples "Safari" (new None)).2
     = Some ["Safari"]
  /\ isApplicationExcluded "Safari"
       (addExcludedApplication Number_on_examples "Safari" (new None)).2
     = Returned true.
Proof.
  split; [reflexivity |]. split; [reflexivity |].
  destruct (exclusion_list_add_remove Number_on_examples "Safari" (new None) []
              eq_refl eq_refl) as (H1 & H2 & _).
  split; [exact H1 | exact H2].
Defined.

(** ** [resetToDefaults] and the array of the defaults *)

Lemma new_default_exclusions :
  defaults (new None) !! "excludedApplications" = Some (PArr 0).
Proof. vm_compute. reflexivity. Qed.

(** X27 (reset and the shared array).  [resetToDefaults] after
    [addExcludedApplication(app)]. When the preferences hold the very
    array of the defaults (as they do when no preferences file was read),
    [push] has changed the defaults too, and after the reset the list
    still ends with [app]; when they hold an array of their own, the reset
    gives the list of the defaults as it was. *)
Theorem resetToDefaults_after_add (N : string -> option Z) (appName : string)
    (m : t) (a : nat) (l : list string) :
  defaults m = defaults (new None) ->
  preferences m !! "excludedApplications" = Some (PArr a) ->
  arrays m !! a = Some l ->
  excluded (resetToDefaults (addExcludedApplication N appName m).2).2
  = if decide (a = 0%nat)
    then Some (if existsb (String.eqb appName) l then l else app l [appName])
    else arrays m !! 0%nat.
Proof.
  intros Hd Hp Ha.
  assert (Hlt : (a < length (arrays m))%nat) by (eapply lookup_lt_Some, Ha).
  rewrite (addExcludedApplication_spec N appName m a l Hd Hp Ha). cbn [snd].
  unfold resetToDefaults, excluded. cbn [snd preferences].
  destruct (existsb (String.eqb appName) l); cbn [defaults arrays];
    rewrite Hd, new_default_exclusions.
  - case_decide as E; [now subst a | reflexivity].
  - case_decide as E.
    + subst a. unfold heap in *. now rewrite list_lookup_insert_eq by exact Hlt.
    + unfold heap in *. now rewrite list_lookup_insert_ne by exact E.
Qed.

Lemma resetToDefaults_after_add_witness :
  excluded (resetToDefaults
              (addExcludedApplication Number_on_examples "Safari" (new None)).2).2
  = Some ["Safari"]
  /\ excluded (resetToDefaults
       (addExcludedApplication Number_on_examples "Safari"
          (new (Some [("excludedApplications", JsArr ["Notes"])]))).2).2
     = Some [].
Proof.
  split.
  - exact (resetToDefaults_after_add Number_on_examples "Safari" (new None)
             0%nat [] eq_refl eq_refl eq_refl).
  - exact (resetToDefaults_after_add Number_on_examples "Safari"
             (new (Some [("excludedApplications", JsArr ["Notes"])]))
             1%nat ["Notes"] eq_refl eq_refl eq_refl).
Defined.

(** ** The dismissed notification *)

Lemma new_defaults (loaded : option (list (string * json))) :
  defaults (new loaded) = defaults (new None).
Proof. now destruct loaded. Qed.

Lemma dismissed_unknown (m : t) :
  defaults m = defaults (new None) ->
  known "fullDiskAccessNotificationDismissed" m = false.
Proof. intros Hd. unfold known. rewrite Hd. vm_compute. reflexivity. Qed.

(** X28 (dismissed notification).  "Don't Show Again" is never recorded:
    the key that the action writes is not a key of the defaults, so
    [update] drops it and the manager is left exactly as it was, whatever
    was loaded and whatever updates came before. With no preferences file
    the notification is therefore due again whenever the permission is
    missing. *)
Theorem dismissal_is_not_recorded (N : string -> option Z)
    (loaded : option (list (string * json)))
    (updates : list (string * pvalue)) (hasPermission : bool) :
  let m := (update N updates (new loaded)).2 in
  let m0 := (update N updates (new None)).2 in
  dontShowAgain N m = (true, m)
  /\ shouldShowPermissionNotification hasPermission (dontShowAgain N m0).2
     = negb hasPermission.
Proof.
  intros m m0.
  assert (Hsame : forall x : t, defaults x = defaults (new None) ->
            dontShowAgain N x = (true, x)).
  { intros x Hx. unfold dontShowAgain, update, validateUpdates.
    cbn [foldl fst snd]. unfold validate_entry.
    rewrite (dismissed_unknown x Hx). cbn [negb fst snd].
    rewrite (left_id_L ∅ (∪)). now destruct x. }
  split.
  - apply Hsame. unfold m, update. cbn [snd defaults]. apply new_defaults.
  - rewrite Hsame by reflexivity. unfold shouldShowPermissionNotification.
    unfold get, m0, update, validateUpdates. cbn [snd preferences].
    rewrite lookup_union_r.
    + reflexivity.
    + apply validate_fold_unknown; [now apply dismissed_unknown | apply lookup_empty].
Qed.

End PreferencesFacts.

(* ===================================================================== *)
(** * main.js: what the migrations do to the table and the disk          *)
(* ===================================================================== *)

Module MigrationFacts.
Import Js Database ImageStorage Blob Main DatabaseFacts.

Lemma has_id_cleared (id : string) (row : Row) :
  has_id id (cleared row) = has_id id row.
Proof.
  unfold has_id, cleared, col. now rewrite !lookup_insert_ne by discriminate.
Qed.

Lemma cleared_twice (row : Row) : cleared (cleared row) = cleared row.
Proof.
  apply map_eq. intros k. unfold cleared.
  destruct (decide (k = "thumbnail_data")) as [->|Hk];
    [now rewrite !lookup_insert_eq |].
  rewrite !(lookup_insert_ne _ "thumbnail_data") by congruence.
  destruct (decide (k = "image_data")) as [->|Hk'];
    [now rewrite !lookup_insert_eq |].
  now rewrite !lookup_insert_ne by congruence.
Qed.

Lemma col_cleared (c : string) (row : Row) :
  c <> "image_data" -> c <> "thumbnail_data" -> col c (cleared row) = col c row.
Proof.
  intros H1 H2. unfold cleared, col. now rewrite !lookup_insert_ne by congruence.
Qed.

Lemma clear_step (done : list string) (id : string) (db : table) :
  (fun row => if has_id id row then cleared row else row)
    <$> ((fun row => if listed done row then cleared row else row) <$> db)
  = (fun row => if listed (app done [id]) row then cleared row else row) <$> db.
Proof.
  rewrite <- list_fmap_compose. apply list_fmap_ext. intros _ row _. cbn.
  unfold listed. rewrite existsb_app. cbn [existsb]. rewrite Bool.orb_false_r.
  destruct (existsb (fun id0 => has_id id0 row) done); cbn [orb].
  - rewrite has_id_cleared. destruct (has_id id row);
      [now rewrite cleared_twice | reflexivity].
  - reflexivity.
Qed.

Section WithSharp.
Context `{Sharp}.
Variable storage : ImageStorage.t.

Lemma startup_update (id : string) (r : saved) (db : table) :
  update id (startup_updates r) db = (false, db).
Proof. reflexivity. Qed.

Lemma background_update (id : string) (r : saved) (db : table) :
  update id (background_updates r) db
  = (existsb (has_id id) db,
     (fun row => if has_id id row then cleared row else row) <$> db).
Proof. reflexivity. Qed.

(** [saveImage] on the picture of an item *)
Lemma saveImage_cases (item : DbItem.t) (buf : Buffer) (uuid : string) (fs : FS) :
  DbItem.imageData item = Some buf ->
  let r := saveImage storage buf (JStr (DbItem.id item)) uuid fs in
  (forall p, is_Some (fs !! p) -> is_Some (r.2 !! p))
  /\ if encodable item
     then (exists s, r.1 = Returned s)
          /\ is_Some (r.2 !! saved_path storage item uuid)
     else exists e, r.1 = Threw e.
Proof.
  intros Hbuf r. unfold r, saveImage, encodable, saved_path. rewrite Hbuf.
  change (truthy (JStr (DbItem.id item))) with (truthy_str (DbItem.id item)).
  change (String_ (JStr (DbItem.id item))) with (DbItem.id item).
  set (imageId := if truthy_str (DbItem.id item) then DbItem.id item else uuid).
  destruct (webp buf) as [w|]; cbn [snd fst].
  - destruct (jpeg_thumbnail buf) as [j|]; cbn [snd fst].
    + split.
      * intros p Hp.
        destruct (decide (path_join (thumbnailsPath storage) (imageId +:+ ".jpg") = p))
          as [<-|Hne]; [rewrite lookup_insert_eq; eauto |].
        rewrite lookup_insert_ne by exact Hne.
        destruct (decide (path_join (imagesPath storage) (imageId +:+ ".webp") = p))
          as [<-|Hne']; [rewrite lookup_insert_eq; eauto |].
        now rewrite lookup_insert_ne by exact Hne'.
      * rewrite !bool_decide_eq_true_2 by eauto. cbn [andb]. split; [eauto |].
        destruct (decide (path_join (thumbnailsPath storage) (imageId +:+ ".jpg")
                          = path_join (imagesPath storage) (imageId +:+ ".webp")))
          as [->|Hne]; [rewrite lookup_insert_eq; eauto |].
        rewrite lookup_insert_ne by exact Hne. rewrite lookup_insert_eq. eauto.
    + split.
      * intros p Hp.
        destruct (decide (path_join (imagesPath storage) (imageId +:+ ".webp") = p))
          as [<-|Hne']; [rewrite lookup_insert_eq; eauto |].
        now rewrite lookup_insert_ne by exact Hne'.
      * rewrite (bool_decide_eq_false_2 (is_Some None)) by (intros [? ?]; discriminate).
        rewrite Bool.andb_false_r. eauto.
  - split; [auto |].
    rewrite (bool_decide_eq_false_2 (is_Some None)) by (intros [? ?]; discriminate).
    cbn [andb]. eauto.
Qed.

Lemma migrate_files (updates : saved -> list (string * value)) (item : DbItem.t)
    (uuid : string) (st : table * FS) (p : string) :
  is_Some (st.2 !! p) -> is_Some ((migrate storage updates item uuid st).2 !! p).
Proof.
  intros Hp. unfold migrate. destruct (DbItem.imageData item) as [buf|] eqn:E;
    [|exact Hp].
  destruct (saveImage_cases item buf uuid st.2 E) as [Hkeep _].
  destruct (saveImage storage buf (JStr (DbItem.id item)) uuid st.2) as [[s|e] fs'];
    cbn [snd] in *; now apply Hkeep.
Qed.

Lemma migrate_all_files (updates : saved -> list (string * value))
    (items : list DbItem.t) (uuid : nat -> string) (p : string) :
  forall (i : nat) (st : table * FS),
    is_Some (st.2 !! p) ->
    is_Some ((migrate_all storage updates i items uuid st).2 !! p).
Proof.
  induction items as [|item items IH]; intros i st Hp; [exact Hp |].
  cbn [migrate_all]. apply IH. now apply migrate_files.
Qed.

Lemma migrate_all_saved (updates : saved -> list (string * value))
    (items : list DbItem.t) (uuid : nat -> string) :
  forall (i : nat) (st : table * FS) (k : nat) (item : DbItem.t),
    items !! k = Some item -> encodable item = true ->
    is_Some ((migrate_all storage updates i items uuid st).2
               !! saved_path storage item (uuid (i + k)%nat)).
Proof.
  induction items as [|x items IH]; intros i st k item Hk Henc; [discriminate |].
  cbn [migrate_all]. destruct k as [|k].
  - injection Hk as ->. rewrite Nat.add_0_r. apply migrate_all_files.
    unfold migrate. destruct (DbItem.imageData item) as [buf|] eqn:E.
    + destruct (saveImage_cases item buf (uuid i) st.2 E) as [_ Hsave].
      rewrite Henc in Hsave. destruct Hsave as [[s Hs] Hfile].
      destruct (saveImage storage buf (JStr (DbItem.id item)) (uuid i) st.2)
        as [[s'|e] fs']; cbn [fst snd] in *; [exact Hfile | discriminate].
    + unfold encodable in Henc. now rewrite E in Henc.
  - replace (i + S k)%nat with (S i + k)%nat by lia. now apply IH.
Qed.

Lemma migrate_all_startup (items : list DbItem.t) (uuid : nat -> string) :
  forall (i : nat) (st : table * FS),
    (migrate_all storage startup_updates i items uuid st).1 = st.1.
Proof.
  induction items as [|item items IH]; intros i st; [reflexivity |].
  cbn [migrate_all]. rewrite IH. unfold migrate.
  destruct (DbItem.imageData item) as [buf|]; [|reflexivity].
  now destruct (saveImage storage buf (JStr (DbItem.id item)) (uuid i) st.2)
    as [[s|e] fs'].
Qed.

Lemma migrate_all_background (db : table) (items : list DbItem.t)
    (uuid : nat -> string) :
  forall (i : nat) (done : list string) (fs : FS),
    (migrate_all storage background_updates i items uuid
       ((fun row => if listed done row then cleared row else row) <$> db, fs)).1
    = (fun row =>
         if listed (app done (DbItem.id <$> List.filter encodable items)) row
         then cleared row else row) <$> db.
Proof.
  induction items as [|item items IH]; intros i done fs.
  - cbn [migrate_all List.filter fmap list_fmap fst]. now rewrite app_nil_r.
  - cbn [migrate_all List.filter]. unfold migrate at 1. cbn [fst snd].
    destruct (DbItem.imageData item) as [buf|] eqn:E.
    + destruct (saveImage_cases item buf (uuid i) fs E) as [_ Hsave].
      destruct (encodable item) eqn:Henc.
      * destruct Hsave as [[s Hs] _].
        destruct (saveImage storage buf (JStr (DbItem.id item)) (uuid i) fs)
          as [[s'|e] fs']; cbn [fst] in Hs; [|discriminate].
        rewrite background_update. cbn [snd]. rewrite clear_step, IH.
        cbn [fmap list_fmap]. now rewrite <- app_assoc.
      * destruct Hsave as [e He].
        destruct (saveImage storage buf (JStr (DbItem.id item)) (uuid i) fs)
          as [[s'|e'] fs']; cbn [fst] in He; [discriminate |].
        apply IH.
    + unfold encodable at 1. rewrite E. apply IH.
Qed.

Lemma none_listed (db : table) :
  (fun row => if listed [] row then cleared row else row) <$> db = db.
Proof.
  induction db as [|row db IH]; [reflexivity |].
  rewrite fmap_cons, IH. reflexivity.
Qed.

(** X29 (migration at startup).  The migration of startup records nothing.
    Every picture that a row holds is written to the image directory, but
    the two keys of the update are not among the columns that [update]
    writes, so the table afterwards is the table before; no file that was
    there is lost. *)
Theorem startup_migration_leaves_the_table (uuid : nat -> string) (db : table)
    (fs : FS) :
  let r := migrateBlobImagesToFiles storage uuid db fs in
  r.1 = db
  /\ (forall p, is_Some (fs !! p) -> is_Some (r.2 !! p))
  /\ (forall items k item,
        query startup_query db = Returned items ->
        List.filter holds_blob items !! k = Some item ->
        encodable item = true ->
        is_Some (r.2 !! saved_path storage item (uuid k))).
Proof.
  intros r. unfold r, migrateBlobImagesToFiles.
  destruct (query startup_query db) as [items|e].
  - split; [apply migrate_all_startup |]. split.
    + intros p Hp. now apply migrate_all_files.
    + intros items' k item [= <-] Hk Henc.
      now apply (migrate_all_saved startup_updates _ uuid 0 (db, fs) k item).
  - split; [reflexivity |]. split; [auto | discriminate].
Qed.

(** X30 (background migration).  One run of the background migration. Of
    the ten newest rows, those of type image that hold their picture and
    that [sharp] can encode are migrated: the picture is written to the
    image directory and, in every row with the id of a migrated item,
    [image_data] and [thumbnail_data] become NULL. Nothing else changes:
    the paths of the update are dropped by [update], so no row records
    where its picture went. *)
Theorem background_migration_clears_rows (uuid : nat -> string) (db : table)
    (fs : FS) :
  let r := backgroundMigration storage uuid db fs in
  (forall c, c <> "image_data" -> c <> "thumbnail_data" ->
     col c <$> r.1 = col c <$> db)
  /\ (forall p, is_Some (fs !! p) -> is_Some (r.2 !! p))
  /\ match query background_query db with
     | Threw _ => r = (db, fs)
     | Returned items =>
         let migrated :=
           DbItem.id <$> List.filter encodable (List.filter is_blob_image items) in
         r.1 = (fun row => if listed migrated row then cleared row else row) <$> db
         /\ (forall k item,
               List.filter is_blob_image items !! k = Some item ->
               encodable item = true ->
               is_Some (r.2 !! saved_path storage item (uuid k)))
     end.
Proof.
  intros r. unfold r, backgroundMigration.
  destruct (query background_query db) as [items|e].
  - assert (Htable :
      (migrate_all storage background_updates 0 (List.filter is_blob_image items)
         uuid (db, fs)).1
      = (fun row =>
           if listed (DbItem.id <$> List.filter encodable
                                      (List.filter is_blob_image items)) row
           then cleared row else row) <$> db).
    { pose proof (migrate_all_background db (List.filter is_blob_image items)
                    uuid 0 [] fs) as Hb.
      rewrite none_listed in Hb. exact Hb. }
    split; [|split; [|split]].
    + intros c H1 H2. rewrite Htable, <- list_fmap_compose.
      apply list_fmap_ext. intros _ row _. cbn.
      destruct (listed _ row); [now apply col_cleared | reflexivity].
    + intros p Hp. now apply migrate_all_files.
    + exact Htable.
    + intros k item Hk Henc.
      now apply (migrate_all_saved background_updates _ uuid 0 (db, fs) k item).
  - split; [reflexivity |]. split; [auto | reflexivity].
Qed.

End WithSharp.

Example migration_examples :
  let r := @backgroundMigration plain_sharp data_root (fun _ => "u") [blob_row] ∅ in
  let s := @migrateBlobImagesToFiles plain_sharp data_root (fun _ => "u")
             [blob_row] ∅ in
  col "image_data" <$> r.1 = [SNull]
  /\ col "image_path" <$> r.1 = [SNull]
  /\ r.2 !! "/data/images/img-1.webp" = Some png_bytes
  /\ col "image_data" <$> s.1 = [SBlob png_bytes]
  /\ col "image_path" <$> s.1 = [SNull]
  /\ s.2 !! "/data/images/img-1.webp" = Some png_bytes.
Proof. intros r s. repeat split; vm_compute; reflexivity. Qed.

End MigrationFacts.
